(** * Boltz backend: wallet providers, reverse routing hints, channel nursery

    A shallow embedding of
    - [lib/wallet/providers/ERC20WalletProvider.ts]  (token amounts and transfers),
    - [lib/wallet/providers/LndWalletProvider.ts]    (sends through LND and their fees),
    - [lib/wallet/WalletManager.ts]                  (mnemonic files, key providers, wallets),
    - [lib/wallet/Errors.ts]                         (the errors of the wallet and their codes),
    - the [ReverseRoutingHints] class                (hints of a reverse swap),
    - the [mine <blocks>] command of the Ethereum tool,
    - the channel nursery, as far as its test suite and the specification
      describe it,
    together with the properties the specification states about them and
    further properties of the code.  Lines written to the logger are left
    out throughout. *)

From Stdlib Require Import ZArith Lia Bool List String Ascii.
From Stdlib Require Import DecimalString DecimalPos DecimalZ.
From stdpp Require Import base option list strings gmap.

Import ListNotations.
Local Open Scope Z_scope.

(** ** Results of calls that may throw *)

Module Result.

Inductive result (E A : Type) : Type :=
| OK (a : A)
| Err (e : E).
Arguments OK {E A} a.
Arguments Err {E A} e.

Definition bind {E A B} (r : result E A) (k : A -> result E B) : result E B :=
  match r with
  | OK a => k a
  | Err e => Err e
  end.

Definition is_ok {E A} (r : result E A) : bool :=
  match r with OK _ => true | Err _ => false end.

End Result.
Export Result.

Notation "'let?' x ':=' r 'in' k" := (Result.bind r (fun x => k))
  (at level 10, x name, r at level 100, k at level 200).

(** ** JavaScript numbers

    [number] is an IEEE-754 double.  The wallet code passes numbers through
    [BigInt(..)], obtains them from [Number(..)] and tests them for
    truthiness, so a number is represented by the integer it holds when it
    holds one (the two zeros are one value), and as [NotInt] otherwise: NaN,
    an infinity, or a finite double with a fractional part. *)

Module JS.

Inductive nonint : Type :=
| NaN
| Infinity
| NegInfinity
| Fraction (num : Z) (den : positive).

Inductive number : Type :=
| Int (z : Z)
| NotInt (v : nonint).

Inductive RangeError : Type := CannotConvertToBigInt.

Definition MAX_SAFE_INTEGER : Z := 2 ^ 53 - 1.

(** Round-to-nearest, ties-to-even, onto the 53-bit significand of a
    double: what [Number(bigint)] does to an integer before the range check. *)
Definition round_to_double (z : Z) : Z :=
  let m := Z.abs z in
  let e := Z.log2 m - 52 in
  if e <=? 0 then z
  else
    let q := Z.shiftr m e in
    let r := Z.land m (Z.ones e) in
    let half := Z.shiftl 1 (e - 1) in
    let q' := if (half <? r) || ((r =? half) && Z.odd q) then q + 1 else q in
    Z.sgn z * Z.shiftl q' e.

(** [Number(b)] for a bigint [b]: the nearest double, an infinity once the
    rounded magnitude reaches 2^1024. *)
Definition Number (b : Z) : number :=
  let v := round_to_double b in
  if Z.abs v <? 2 ^ 1024 then Int v
  else if 0 <? v then NotInt Infinity else NotInt NegInfinity.

(** [BigInt(n)] for a number [n]: a RangeError unless [n] is an integer. *)
Definition BigInt (n : number) : result RangeError Z :=
  match n with
  | Int z => OK z
  | NotInt _ => Err CannotConvertToBigInt
  end.

(** The integers a double can hold. *)
Definition is_double (z : Z) : Prop := Number z = Int z.

(** [ToBoolean] on numbers: 0, -0 and NaN are falsy. *)
Definition truthy (n : number) : bool :=
  match n with
  | Int z => negb (z =? 0)
  | NotInt NaN => false
  | NotInt _ => true
  end.

(** [a || b] where [a] is [number | undefined]; [b] is only evaluated when
    [a] is falsy, so it is passed as the computation it is. *)
Definition or_else {M : Type} (pure : number -> M) (a : option number) (b : M) : M :=
  match a with
  | Some n => if truthy n then pure n else b
  | None => b
  end.

End JS.

(** ** Async methods and the calls they make

    An async method is followed through its awaits: it appends the calls it
    makes to its collaborators to a log, and resolves or rejects. *)

Module Effects.

Section Log.

Variables Call Error : Type.

Definition Async (A : Type) : Type := list Call -> list Call * result Error A.

Definition resolve {A} (a : A) : Async A := fun log => (log, OK a).

Definition reject {A} (e : Error) : Async A := fun log => (log, Err e).

Definition await {A B} (m : Async A) (k : A -> Async B) : Async B :=
  fun log =>
    match m log with
    | (log', OK a) => k a log'
    | (log', Err e) => (log', Err e)
    end.

Definition call {A} (c : Call) (answer : result Error A) : Async A :=
  fun log => (log ++ [c], answer).

Definition run {A} (m : Async A) : list Call * result Error A := m [].

End Log.

Arguments resolve {Call Error A} a.
Arguments reject {Call Error A} e.
Arguments await {Call Error A B} m k.
Arguments call {Call Error A} c answer.
Arguments run {Call Error A} m.

(** The answer of a collaborator, with its rejection wrapped. *)
Definition mapErr {E E' A} (f : E -> E') (r : result E A) : result E' A :=
  match r with
  | OK a => OK a
  | Err e => Err (f e)
  end.

End Effects.

Notation "'let!' x ':=' m 'in' k" := (Effects.await m (fun x => k))
  (at level 10, x name, m at level 100, k at level 200).

(** ** ERC20WalletProvider: amounts in 10^-8 units against token units *)

Module ERC20WalletProvider.
Import JS.

Record Token : Type := mkToken {
  symbol : string;
  address : string;
  decimals : Z
}.

(** Formats the token amount to send from 10 ** -8 decimals. *)
Definition formatTokenAmount (token : Token) (amount : number)
  : result RangeError Z :=
  let? amountBn := BigInt amount in
  if decimals token =? 8 then OK amountBn
  else
    let exponent := 10 ^ Z.abs (decimals token - 8) in
    if 8 <? decimals token then OK (amountBn * exponent)
    else OK (Z.quot amountBn exponent).

(** Normalizes the token balance to 10 ** -8 decimals. *)
Definition normalizeTokenAmount (token : Token) (amount : Z) : number :=
  if decimals token =? 8 then Number amount
  else
    let exponent := 10 ^ Z.abs (decimals token - 8) in
    if 8 <? decimals token then Number (Z.quot amount exponent)
    else Number (amount * exponent).

(** [normalizeTokenAmount(formatTokenAmount(a))]. *)
Definition roundTrip (token : Token) (a : number) : result RangeError number :=
  let? sent := formatTokenAmount token a in
  OK (normalizeTokenAmount token sent).

(** What makes a method of the provider fail: a RangeError thrown by
    [BigInt], or the rejection of a call to the contract, the signer or the
    label repository. *)
Inductive Failure : Type :=
| Thrown (e : RangeError)
| Rejected (reason : string).

Record WalletBalance : Type := mkWalletBalance {
  confirmedBalance : number;
  unconfirmedBalance : number
}.

Record SentTransaction : Type := mkSentTransaction { transactionId : string }.

Section Methods.

(** What [getGasPrices] of [ethereum/EthereumUtils] resolves to: the
    overrides spread into a contract call. *)
Variable GasPrices : Type.

Record Contract : Type := mkContract {
  balanceOf : string -> result string Z;
  transfer : string -> Z -> GasPrices -> result string string;
  allowance : string -> string -> result string Z;
  contract_approve : string -> Z -> option number -> GasPrices -> result string string
}.

Record Signer : Type := mkSigner {
  signer_getAddress : result string string;
  getGasPrices : result string GasPrices
}.

Record TransactionLabelRepository : Type := mkTransactionLabelRepository {
  addLabel : string -> string -> string -> result string unit;
  erc20Approval : string
}.

(** The provider: its token (whose [contract] field is kept apart), its
    signer, and the repository of labels. *)
Record Provider : Type := mkProvider {
  token : Token;
  contract : Contract;
  signer : Signer;
  labelRepository : TransactionLabelRepository
}.

Inductive Call : Type :=
| SignerGetAddress
| ContractBalanceOf (owner : string)
| GetGasPrices
| ContractTransfer (to : string) (amount : Z) (overrides : GasPrices)
| ContractAllowance (owner spender : string)
| ContractApprove (spender : string) (amount : Z) (nonce : option number)
    (overrides : GasPrices)
| AddLabel (transactionHash symbol label : string).

Definition Method (A : Type) : Type := Effects.Async Call Failure A.

Definition ask {A} (c : Call) (answer : result string A) : Method A :=
  Effects.call c (Effects.mapErr Rejected answer).

Variable this : Provider.

Definition getAddress : Method string :=
  ask SignerGetAddress (signer_getAddress (signer this)).

Definition getBalance : Method WalletBalance :=
  let! owner := getAddress in
  let! balance := ask (ContractBalanceOf owner) (balanceOf (contract this) owner) in
  Effects.resolve
    {| confirmedBalance := normalizeTokenAmount (token this) balance;
       unconfirmedBalance := Int 0 |}.

Definition sendToAddress
  (address : string) (amount : number) (_satPerVbyte : option number) (label : string)
  : Method SentTransaction :=
  match formatTokenAmount (token this) amount with
  | Err e => Effects.reject (Thrown e)
  | OK actualAmount =>
      let! gasPrices := ask GetGasPrices (getGasPrices (signer this)) in
      let! hash :=
        ask (ContractTransfer address actualAmount gasPrices)
          (transfer (contract this) address actualAmount gasPrices) in
      let! _ :=
        ask (AddLabel hash (symbol (token this)) label)
          (addLabel (labelRepository this) hash (symbol (token this)) label) in
      Effects.resolve {| transactionId := hash |}
  end.

Definition sweepWallet
  (address : string) (_satPerVbyte : option number) (label : string)
  : Method SentTransaction :=
  let! owner := getAddress in
  let! balance := ask (ContractBalanceOf owner) (balanceOf (contract this) owner) in
  let! gasPrices := ask GetGasPrices (getGasPrices (signer this)) in
  let! hash :=
    ask (ContractTransfer address balance gasPrices)
      (transfer (contract this) address balance gasPrices) in
  let! _ :=
    ask (AddLabel hash (symbol (token this)) label)
      (addLabel (labelRepository this) hash (symbol (token this)) label) in
  Effects.resolve {| transactionId := hash |}.

Definition getAllowance (spender : string) : Method Z :=
  let! owner := ask SignerGetAddress (signer_getAddress (signer this)) in
  ask (ContractAllowance owner spender) (allowance (contract this) owner spender).

Definition approve (spender : string) (amount : Z) (nonce : option number)
  : Method SentTransaction :=
  let! gasPrices := ask GetGasPrices (getGasPrices (signer this)) in
  let! hash :=
    ask (ContractApprove spender amount nonce gasPrices)
      (contract_approve (contract this) spender amount nonce gasPrices) in
  let! _ :=
    ask (AddLabel hash (symbol (token this)) (erc20Approval (labelRepository this)))
      (addLabel (labelRepository this) hash (symbol (token this))
         (erc20Approval (labelRepository this))) in
  Effects.resolve {| transactionId := hash |}.

End Methods.

Arguments balanceOf {GasPrices} _ _.
Arguments transfer {GasPrices} _ _ _ _.
Arguments allowance {GasPrices} _ _ _.
Arguments contract_approve {GasPrices} _ _ _ _ _.
Arguments signer_getAddress {GasPrices} _.
Arguments getGasPrices {GasPrices} _.
Arguments token {GasPrices} _.
Arguments contract {GasPrices} _.
Arguments signer {GasPrices} _.
Arguments labelRepository {GasPrices} _.
Arguments SignerGetAddress {GasPrices}.
Arguments ContractBalanceOf {GasPrices} owner.
Arguments GetGasPrices {GasPrices}.
Arguments ContractTransfer {GasPrices} to amount overrides.
Arguments ContractAllowance {GasPrices} owner spender.
Arguments ContractApprove {GasPrices} spender amount nonce overrides.
Arguments AddLabel {GasPrices} transactionHash symbol label.
Arguments getAddress {GasPrices} this.
Arguments getBalance {GasPrices} this.
Arguments sendToAddress {GasPrices} this address amount _satPerVbyte label.
Arguments sweepWallet {GasPrices} this address _satPerVbyte label.
Arguments getAllowance {GasPrices} this spender.
Arguments approve {GasPrices} this spender amount nonce.

(** The amounts of the transfers asked of the contract in a log. *)
Definition transferred {GasPrices : Type} (log : list (Call GasPrices)) : list Z :=
  flat_map (fun c => match c with ContractTransfer _ amount _ => [amount] | _ => [] end)
    log.

(** The amount, in 10^-8 units, a balance of the token stands for when that
    amount is an integer: the balance divided or multiplied by the power of
    ten between the two scales. *)
Definition normalized (token : Token) (balance : Z) : Z :=
  if 8 <? decimals token then balance / 10 ^ (decimals token - 8)
  else balance * 10 ^ (8 - decimals token).

(** Three tokens, one for each number of decimals in use. *)
Definition usdt : Token := mkToken "USDT" "0xdAC17F958D2ee523a2206206994597C13D831ec7" 6.
Definition wbtc : Token := mkToken "WBTC" "0x2260FAC5E5542a773Aa44fBCfeDf7C193bc2C599" 8.
Definition dai : Token := mkToken "DAI" "0x6B175474E89094C44Da98b954EedeAC495271d0F" 18.

(** A provider for [token] whose wallet holds [balance] units of it and
    whose collaborators always answer. *)
Definition exampleProvider (token : Token) (balance : Z) : Provider string :=
  {| token := token;
     contract :=
       {| balanceOf := fun _ => OK balance;
          transfer := fun _ _ _ => OK "0xa1b2"%string;
          allowance := fun _ _ => OK 0;
          contract_approve := fun _ _ _ _ => OK "0xc3d4"%string |};
     signer :=
       {| signer_getAddress := OK "0xf39Fd6e51aad88F6F4ce6aB8827279cffFb92266"%string;
          getGasPrices := OK "gasPrice"%string |};
     labelRepository :=
       {| addLabel := fun _ _ _ => OK tt;
          erc20Approval := "ERC20 approval" |} |}.

End ERC20WalletProvider.

(** ** LndWalletProvider: on-chain sends through the wallet of LND *)

Module LndWalletProvider.
Import JS.

(** The reason a promise of a collaborator was rejected with. *)
Definition exn : Type := string.

Record ScriptPubKey : Type := mkScriptPubKey {
  spk_address : option string;
  spk_addresses : option (list string)
}.

Record Output : Type := mkOutput {
  out_n : number;
  out_scriptPubKey : ScriptPubKey
}.

Record RawTransaction : Type := mkRawTransaction {
  raw_vout : list Output;
  raw_hex : string
}.

Record LndInfo : Type := mkLndInfo { blockHeight : number }.

Record LndTransaction : Type := mkLndTransaction {
  txHash : string;
  totalFees : number
}.

(** What the provider asks of [LndClient] and [IChainClient]; every call
    either resolves or rejects. *)
Record LndClient : Type := mkLndClient {
  getInfo : result exn LndInfo;
  sendCoins : string -> number -> number -> string -> result exn string;
  lnd_sweepWallet : string -> number -> string -> result exn string;
  getOnchainTransactions : number -> result exn (list LndTransaction)
}.

Record ChainClient : Type := mkChainClient {
  chain_symbol : string;
  estimateFee : result exn number;
  getRawTransactionVerbose : string -> result exn RawTransaction
}.

(** The calls made to the two collaborators, in the order they are made. *)
Inductive Call : Type :=
| LndGetInfo
| LndSendCoins (address : string) (amount satPerVbyte : number) (label : string)
| LndSweepWallet (address : string) (satPerVbyte : number) (label : string)
| LndGetOnchainTransactions (startHeight : number)
| ChainEstimateFee
| ChainGetRawTransactionVerbose (transactionId : string).

(** An async method: it appends to the log of calls and resolves or
    rejects. *)
Definition Async (A : Type) : Type := list Call -> list Call * result exn A.

Definition resolve {A} (a : A) : Async A := fun log => (log, OK a).

Definition await {A B} (m : Async A) (k : A -> Async B) : Async B :=
  fun log =>
    match m log with
    | (log', OK a) => k a log'
    | (log', Err e) => (log', Err e)
    end.

Definition call {A} (c : Call) (answer : result exn A) : Async A :=
  fun log => (log ++ [c], answer).

Definition run {A} (m : Async A) : list Call * result exn A := m [].

Section Provider.

(** [Transaction.fromHex] of bitcoinjs-lib. *)
Variable BitcoinTransaction : Type.
Variable fromHex : string -> result exn BitcoinTransaction.

Record SentTransaction : Type := mkSentTransaction {
  sent_fee : number;
  sent_vout : number;
  sent_transactionId : string;
  sent_transaction : BitcoinTransaction
}.

Record Provider : Type := mkProvider {
  lndClient : LndClient;
  chainClient : ChainClient
}.

Variable this : Provider.

Definition getFeePerVbyte (satPerVbyte : option number) : Async number :=
  or_else resolve satPerVbyte
    (call ChainEstimateFee (estimateFee (chainClient this))).

Definition outputPaysTo (address : string) (output : Output) : bool :=
  match spk_address (out_scriptPubKey output) with
  | Some a => String.eqb a address
  | None => false
  end
  || match spk_addresses (out_scriptPubKey output) with
     | Some l => existsb (String.eqb address) l
     | None => false
     end.

Fixpoint feeOf (transactionId : string) (transactionsList : list LndTransaction)
  : number :=
  match transactionsList with
  | [] => Int 0
  | transaction :: rest =>
      if String.eqb (txHash transaction) transactionId
      then totalFees transaction
      else feeOf transactionId rest
  end.

Definition handleLndTransaction
  (transactionId address : string) (listStartHeight : number)
  : Async SentTransaction :=
  await (call (ChainGetRawTransactionVerbose transactionId)
           (getRawTransactionVerbose (chainClient this) transactionId))
    (fun rawTransaction =>
  let vout :=
    fold_left
      (fun vout output => if outputPaysTo address output then out_n output else vout)
      (raw_vout rawTransaction) (Int 0) in
  await (call (LndGetOnchainTransactions listStartHeight)
           (getOnchainTransactions (lndClient this) listStartHeight))
    (fun transactionsList =>
  let fee := feeOf transactionId transactionsList in
  fun log =>
    match fromHex (raw_hex rawTransaction) with
    | OK transaction => (log, OK (mkSentTransaction fee vout transactionId transaction))
    | Err e => (log, Err e)
    end)).

Definition sendToAddress
  (address : string) (amount : number) (satPerVbyte : option number)
  (label : string) : Async SentTransaction :=
  await (call LndGetInfo (getInfo (lndClient this))) (fun info =>
  await (getFeePerVbyte satPerVbyte) (fun feePerVbyte =>
  await (call (LndSendCoins address amount feePerVbyte label)
           (sendCoins (lndClient this) address amount feePerVbyte label))
    (fun txid =>
  handleLndTransaction txid address (blockHeight info)))).

Definition sweepWallet
  (address : string) (satPerVbyte : option number) (label : string)
  : Async SentTransaction :=
  await (call LndGetInfo (getInfo (lndClient this))) (fun info =>
  await (getFeePerVbyte satPerVbyte) (fun feePerVbyte =>
  await (call (LndSweepWallet address feePerVbyte label)
           (lnd_sweepWallet (lndClient this) address feePerVbyte label))
    (fun txid =>
  handleLndTransaction txid address (blockHeight info)))).

End Provider.

(** The fee rates handed to LND in a log of calls. *)
Definition feeRatesPassedToLnd (log : list Call) : list number :=
  flat_map
    (fun c =>
       match c with
       | LndSendCoins _ _ f _ => [f]
       | LndSweepWallet _ f _ => [f]
       | _ => []
       end) log.

Definition estimateFeeCalls (log : list Call) : nat :=
  List.length (List.filter (fun c => match c with ChainEstimateFee => true | _ => false end) log).

(** A provider whose collaborators always answer: LND at height 800000,
    an estimate of 3 sat/vbyte, a transaction paying its second output to
    the address used below. *)
Definition exampleLnd : LndClient :=
  {| getInfo := OK (mkLndInfo (Int 800000));
     sendCoins := fun _ _ _ _ => OK "4a5e1e4b"%string;
     lnd_sweepWallet := fun _ _ _ => OK "4a5e1e4b"%string;
     getOnchainTransactions := fun _ =>
       OK [mkLndTransaction "059a4a67" (Int 99); mkLndTransaction "4a5e1e4b" (Int 141)] |}.

Definition exampleChain : ChainClient :=
  {| chain_symbol := "BTC";
     estimateFee := OK (Int 3);
     getRawTransactionVerbose := fun _ =>
       OK (mkRawTransaction
             [ mkOutput (Int 0) (mkScriptPubKey (Some "bcrt1qchange"%string) None);
               mkOutput (Int 1) (mkScriptPubKey (Some "bcrt1qdest"%string) None) ]
             "0200") |}.

Definition exampleProvider : Provider := mkProvider exampleLnd exampleChain.

(** Collaborators that fail: an LND that is not reachable, a chain client
    without a fee estimate. *)
Definition offlineLnd : LndClient :=
  {| getInfo := Err "14 UNAVAILABLE: No connection established"%string;
     sendCoins := sendCoins exampleLnd;
     lnd_sweepWallet := lnd_sweepWallet exampleLnd;
     getOnchainTransactions := getOnchainTransactions exampleLnd |}.

Definition noEstimateChain : ChainClient :=
  {| chain_symbol := "BTC";
     estimateFee := Err "Insufficient data or no feerate found"%string;
     getRawTransactionVerbose := getRawTransactionVerbose exampleChain |}.

(** A transaction that pays the address with its outputs 0 and 2, and an
    LND that lists the transaction twice. *)
Definition twoPaymentsChain : ChainClient :=
  {| chain_symbol := "BTC";
     estimateFee := OK (Int 3);
     getRawTransactionVerbose := fun _ =>
       OK (mkRawTransaction
             [ mkOutput (Int 0) (mkScriptPubKey (Some "bcrt1qdest"%string) None);
               mkOutput (Int 1) (mkScriptPubKey (Some "bcrt1qchange"%string) None);
               mkOutput (Int 2) (mkScriptPubKey None (Some ["bcrt1qdest"%string])) ]
             "0200") |}.

Definition listsTwiceLnd : LndClient :=
  {| getInfo := getInfo exampleLnd;
     sendCoins := sendCoins exampleLnd;
     lnd_sweepWallet := lnd_sweepWallet exampleLnd;
     getOnchainTransactions := fun _ =>
       OK [ mkLndTransaction "059a4a67" (Int 99);
            mkLndTransaction "4a5e1e4b" (Int 141);
            mkLndTransaction "4a5e1e4b" (Int 7) ] |}.

End LndWalletProvider.

(** ** ReverseRoutingHints: what a reverse swap tells the payer *)

Module ReverseRoutingHints.
Import JS.

Definition Buffer : Type := list Byte.byte.

(** [Buffer.from(s, 'utf-8')]: a string is kept as its UTF-8 bytes. *)
Definition utf8 (s : string) : Buffer := list_byte_of_string s.

(** Members of [consts/Enums] the class refers to. *)
Inductive SwapVersion : Type := Legacy | Taproot.
Inductive SwapType : Type := Submarine | ReverseSubmarine | Chain.

(** The errors of [swap/Errors] the class throws. *)
Inductive SwapError : Type :=
| INVALID_ADDRESS
| INVALID_ADDRESS_SIGNATURE
| INVALID_DESCRIPTION_HASH
| PAYEE_MISSING_FROM_INVOICE.

(** What a call of the class fails with: an error of [swap/Errors], or the
    [TypeError] with which [ECPair.fromPublicKey] and [verifySchnorr] refuse
    a public key that is no point of the curve or a signature that is not
    64 bytes long.  The class catches neither. *)
Inductive Thrown : Type :=
| Swap (e : SwapError)
| TypeError (message : string).

Record HopHint : Type := mkHopHint {
  nodeId : string;
  chanId : Z;
  feeBaseMsat : Z;
  cltvExpiryDelta : Z;
  feeProportionalMillionths : Z
}.

Record SwapHints : Type := mkSwapHints {
  invoiceMemo : option string;
  invoiceDescriptionHash : option Buffer;
  receivedAmount : number;
  bip21Params : option string;
  routingHint : option (list (list HopHint))
}.

Record DecodedInvoice : Type := mkDecodedInvoice {
  description : option string;
  payee : option Buffer
}.

Record Invoice : Type := mkInvoice { decoded : DecodedInvoice }.

Record Args : Type := mkArgs {
  memo : option string;
  userAddress : option string;
  version : SwapVersion;
  onchainAmount : number;
  claimPublicKey : option Buffer;
  descriptionHash : option Buffer;
  userAddressSignature : option Buffer;
  invoice : option Invoice
}.

Record Currency : Type := mkCurrency { symbol : string }.

(** The collaborators handed to the constructor. *)
Record Wallet : Type := mkWallet {
  decodeAddress : string -> result string Buffer
}.

Record WalletManager : Type := mkWalletManager {
  wallets : gmap string Wallet
}.

Record ReverseMinerFees : Type := mkReverseMinerFees {
  claim : number;
  lockup : number
}.

Record MinerFees : Type := mkMinerFees {
  normal : number;
  reverse : ReverseMinerFees
}.

(** [minerFees.get(symbol)![version]]: the non-null assertion of the source
    is the lookup being total. *)
Record FeeProvider : Type := mkFeeProvider {
  minerFees : string -> SwapVersion -> MinerFees
}.

Record RateProvider : Type := mkRateProvider { feeProvider : FeeProvider }.

Record PaymentRequestUtils : Type := mkPaymentRequestUtils {
  encodeParams : string -> number -> option string -> string
}.

Record ReverseRoutingHints : Type := mkReverseRoutingHints {
  walletManager : WalletManager;
  rateProvider : RateProvider;
  paymentRequestUtils : PaymentRequestUtils
}.

(** Modelled from the spec: [transactionToLndScid] of
    [lightning/ChannelUtils] is not part of the sources.  The short channel
    id is the 64-bit identifier packing block height (3 bytes), transaction
    index (3 bytes) and output index (2 bytes), as BOLT prescribes. *)
Definition transactionToLndScid (blockHeight transactionIndex outputIndex : Z) : Z :=
  Z.lor (Z.lor (Z.shiftl blockHeight 40) (Z.shiftl transactionIndex 16)) outputIndex.

(** The inverse reading of a short channel id. *)
Definition scidBlockHeight (scid : Z) : Z := Z.shiftr scid 40.
Definition scidTransactionIndex (scid : Z) : Z :=
  Z.land (Z.shiftr scid 16) (Z.ones 24).
Definition scidOutputIndex (scid : Z) : Z := Z.land scid (Z.ones 16).

Definition routingHintChanId : Z := transactionToLndScid 542409 1308 0.

Section Imports.

(** [crypto.sha256] of bitcoinjs-lib and
    [ECPair.fromPublicKey(publicKey).verifySchnorr(hash, signature)], which
    answers whether the signature is valid or throws a [TypeError], here
    [Err] with its message. *)
Variable sha256 : Buffer -> Buffer.
Variable verifySchnorr : Buffer -> Buffer -> Buffer -> result string bool.

(** [getHexString] and [getSwapMemo] of [Utils]. *)
Variable getHexString : Buffer -> string.
Variable getSwapMemo : string -> SwapType -> string.

(** The difference of two doubles. *)
Variable minus : number -> number -> number.

Variable this : ReverseRoutingHints.

Definition verifyAddressSignature
  (publicKey : Buffer) (userAddress : string) (userAddressSignature : Buffer)
  : result string bool :=
  verifySchnorr publicKey (sha256 (utf8 userAddress)) userAddressSignature.

Definition checkDescriptionHash (descriptionHash : option Buffer)
  : result Thrown (option Buffer) :=
  match descriptionHash with
  | None => OK None
  | Some h =>
      if negb (Nat.eqb (List.length h) 32) then Err (Swap INVALID_DESCRIPTION_HASH)
      else OK (Some h)
  end.

Definition verifyBolt12Invoice
  (decoded : DecodedInvoice) (userAddress : string) (userAddressSignature : Buffer)
  : result Thrown unit :=
  match payee decoded with
  | None => Err (Swap PAYEE_MISSING_FROM_INVOICE)
  | Some payee =>
      match verifyAddressSignature payee userAddress userAddressSignature with
      | Err message => Err (TypeError message)
      | OK valid =>
          if negb valid then Err (Swap INVALID_ADDRESS_SIGNATURE)
          else OK tt
      end
  end.

Definition encodeRoutingHint
  (claimPublicKey : option Buffer) (userAddress : string)
  (userAddressSignature : Buffer)
  : result Thrown (option (list (list HopHint))) :=
  match claimPublicKey with
  | None => OK None
  | Some claimPublicKey =>
      match verifyAddressSignature claimPublicKey userAddress userAddressSignature with
      | Err message => Err (TypeError message)
      | OK valid =>
          if negb valid then Err (Swap INVALID_ADDRESS_SIGNATURE)
          else
            OK (Some [[ {| nodeId := getHexString claimPublicKey;
                           chanId := routingHintChanId;
                           feeBaseMsat := 0;
                           cltvExpiryDelta := 81;
                           feeProportionalMillionths := 21 |} ]])
      end
  end.

(** The [try { wallets.get(symbol)!.decodeAddress(..) } catch { throw
    INVALID_ADDRESS }] block: a missing wallet throws inside the [try]
    as well. *)
Definition tryDecodeAddress (symbol : string) (userAddress : string)
  : result Thrown unit :=
  match wallets (walletManager this) !! symbol with
  | None => Err (Swap INVALID_ADDRESS)
  | Some wallet =>
      match decodeAddress wallet userAddress with
      | OK _ => OK tt
      | Err _ => Err (Swap INVALID_ADDRESS)
      end
  end.

Definition getHints (sendingCurrency : Currency) (args : Args)
  : result Thrown SwapHints :=
  let isBolt12 := match invoice args with Some _ => true | None => false end in
  let? invoiceDescriptionHash :=
    if negb isBolt12 then checkDescriptionHash (descriptionHash args)
    else OK None in
  let invoiceMemo :=
    match invoice args with
    | None =>
        match memo args with
        | Some m => Some m
        | None => Some (getSwapMemo (symbol sendingCurrency) ReverseSubmarine)
        end
    | Some i => description (decoded i)
    end in
  let receivedAmount :=
    minus (onchainAmount args)
      (claim (reverse (minerFees (feeProvider (rateProvider this))
                         (symbol sendingCurrency) (version args)))) in
  match userAddress args, userAddressSignature args with
  | Some address, Some signature =>
      let? _ := tryDecodeAddress (symbol sendingCurrency) address in
      let bip21Params :=
        encodeParams (paymentRequestUtils this)
          (symbol sendingCurrency) receivedAmount (memo args) in
      let? routingHint :=
        match invoice args with
        | Some i =>
            let? _ := verifyBolt12Invoice (decoded i) address signature in
            OK None
        | None => encodeRoutingHint (claimPublicKey args) address signature
        end in
      OK {| bip21Params := Some bip21Params;
            routingHint := routingHint;
            invoiceMemo := invoiceMemo;
            receivedAmount := receivedAmount;
            invoiceDescriptionHash := invoiceDescriptionHash |}
  | _, _ =>
      OK {| invoiceMemo := invoiceMemo;
            receivedAmount := receivedAmount;
            invoiceDescriptionHash := invoiceDescriptionHash;
            bip21Params := None;
            routingHint := None |}
  end.

(** What a request without both an address and a signature gets. *)
Definition plainHints (currency : Currency) (args : Args)
  (checkedHash : option Buffer) : SwapHints :=
  {| invoiceMemo :=
       match invoice args with
       | None =>
           match memo args with
           | Some m => Some m
           | None => Some (getSwapMemo (symbol currency) ReverseSubmarine)
           end
       | Some i => description (decoded i)
       end;
     invoiceDescriptionHash := checkedHash;
     receivedAmount :=
       minus (onchainAmount args)
         (claim (reverse (minerFees (feeProvider (rateProvider this))
                            (symbol currency) (version args))));
     bip21Params := None;
     routingHint := None |}.

(** What a request with an address and a signature gets once all checks
    have passed. *)
Definition addressedHints (currency : Currency) (args : Args)
  (checkedHash : option Buffer) (hint : option (list (list HopHint))) : SwapHints :=
  let plain := plainHints currency args checkedHash in
  {| invoiceMemo := invoiceMemo plain;
     invoiceDescriptionHash := checkedHash;
     receivedAmount := receivedAmount plain;
     bip21Params :=
       Some (encodeParams (paymentRequestUtils this) (symbol currency)
               (receivedAmount plain) (memo args));
     routingHint := hint |}.

End Imports.

(** The sending currency has a wallet, and it decodes the address. *)
Definition decodable
  (this : ReverseRoutingHints) (sendingCurrency : Currency) (address : string) : Prop :=
  exists wallet,
    wallets (walletManager this) !! symbol sendingCurrency = Some wallet
    /\ is_ok (decodeAddress wallet address) = true.

(** A description hash that is absent or 32 bytes long. *)
Definition acceptableDescriptionHash (descriptionHash : option Buffer) : Prop :=
  match descriptionHash with
  | None => True
  | Some h => List.length h = 32%nat
  end.

Definition isBolt12 (args : Args) : Prop := invoice args <> None.

(** *** A concrete instance to run the class on

    Stand-ins for the imports: a hash that reverses its input, a signature
    scheme in which the signature of a hash under a key is the key followed
    by the hash and whose verifier throws at an empty key or an empty
    signature, hexadecimal printing, subtraction of the doubles that hold
    integers. *)

Fixpoint bufferEqb (a b : Buffer) : bool :=
  match a, b with
  | [], [] => true
  | x :: a', y :: b' => Byte.eqb x y && bufferEqb a' b'
  | _, _ => false
  end.

Definition standInSha256 (data : Buffer) : Buffer := rev data.

Definition standInVerifySchnorr (publicKey hash signature : Buffer)
  : result string bool :=
  match publicKey, signature with
  | [], _ => Err "Expected Point"%string
  | _, [] => Err "Expected Signature"%string
  | _, _ => OK (bufferEqb signature (publicKey ++ hash))
  end.

Definition standInSign (publicKey : Buffer) (message : string) : Buffer :=
  publicKey ++ standInSha256 (utf8 message).

Definition hexDigit (n : nat) : ascii :=
  nth n (list_ascii_of_string "0123456789abcdef") "0"%char.

Definition hex (data : Buffer) : string :=
  fold_right
    (fun b acc =>
       let n := Byte.to_nat b in
       String (hexDigit (n / 16)) (String (hexDigit (n mod 16)) acc))
    EmptyString data.

Definition memoFor (symbol : string) (type : SwapType) : string :=
  ("Send to " ++ symbol ++ " address")%string.

Definition minusOfIntegers (a b : number) : number :=
  match a, b with
  | Int x, Int y => Number (x - y)
  | _, _ => NotInt NaN
  end.

Definition regtestWallet : Wallet :=
  {| decodeAddress := fun address =>
       if String.prefix "bcrt1" address then OK (utf8 address)
       else Err "invalid address"%string |}.

Definition exampleHints : ReverseRoutingHints :=
  {| walletManager := {| wallets := {[ "BTC"%string := regtestWallet ]} |};
     rateProvider :=
       {| feeProvider :=
            {| minerFees := fun _ version =>
                 match version with
                 | Legacy => mkMinerFees (Int 170) (mkReverseMinerFees (Int 138) (Int 153))
                 | Taproot => mkMinerFees (Int 151) (mkReverseMinerFees (Int 111) (Int 154))
                 end |} |};
     paymentRequestUtils :=
       {| encodeParams := fun symbol _ label =>
            match label with
            | Some l => ("amount&label=" ++ l)%string
            | None => "amount"%string
            end |} |}.

Definition btc : Currency := mkCurrency "BTC".
Definition ltc : Currency := mkCurrency "LTC".

Definition clientKey : Buffer := utf8 "client-claim-key".
Definition payeeKey : Buffer := utf8 "invoice-payee-key".
Definition userAddr : string := "bcrt1qw508d6qejxtdg4y5r3zarvary0c5xw7kygt080".

(** A BOLT11 request with a claim key and a signed refund address. *)
Definition bolt11Request (descriptionHash : option Buffer) : Args :=
  {| memo := None;
     userAddress := Some userAddr;
     version := Taproot;
     onchainAmount := Int 500000;
     claimPublicKey := Some clientKey;
     descriptionHash := descriptionHash;
     userAddressSignature := Some (standInSign clientKey userAddr);
     invoice := None |}.

(** A BOLT11 request without a claim key, with a signature nobody made. *)
Definition unsignedRequest : Args :=
  {| memo := None;
     userAddress := Some userAddr;
     version := Taproot;
     onchainAmount := Int 500000;
     claimPublicKey := None;
     descriptionHash := None;
     userAddressSignature := Some (utf8 "not a signature");
     invoice := None |}.

(** A BOLT12 request: the signature is by [signer], the address is
    [address]. *)
Definition bolt12Request (address : string) (signer : Buffer) : Args :=
  {| memo := None;
     userAddress := Some address;
     version := Taproot;
     onchainAmount := Int 500000;
     claimPublicKey := Some clientKey;
     descriptionHash := None;
     userAddressSignature := Some (standInSign signer address);
     invoice := Some (mkInvoice (mkDecodedInvoice (Some "coffee"%string) (Some payeeKey))) |}.

(** A verifier under which no signature is valid. *)
Definition rejectAll (publicKey hash signature : Buffer) : result string bool :=
  OK false.

(** A request of either kind whose signature is empty. *)
Definition emptySignature (args : Args) : Args :=
  {| memo := memo args;
     userAddress := userAddress args;
     version := version args;
     onchainAmount := onchainAmount args;
     claimPublicKey := claimPublicKey args;
     descriptionHash := descriptionHash args;
     userAddressSignature := Some [];
     invoice := invoice args |}.

Definition exampleGetHints : Currency -> Args -> result Thrown SwapHints :=
  getHints standInSha256 standInVerifySchnorr hex memoFor minusOfIntegers exampleHints.

(** A request that gives no address, and one with a BOLT12 invoice that
    carries a description hash of 31 bytes and no claim key. *)
Definition plainRequest : Args :=
  {| memo := Some "order 17"%string;
     userAddress := None;
     version := Legacy;
     onchainAmount := Int 500000;
     claimPublicKey := Some clientKey;
     descriptionHash := None;
     userAddressSignature := Some (standInSign clientKey userAddr);
     invoice := None |}.

Definition bolt12RequestWithHash : Args :=
  {| memo := None;
     userAddress := Some userAddr;
     version := Taproot;
     onchainAmount := Int 500000;
     claimPublicKey := None;
     descriptionHash := Some (repeat Byte.x00 31);
     userAddressSignature := Some (standInSign payeeKey userAddr);
     invoice := Some (mkInvoice (mkDecodedInvoice (Some "coffee"%string) (Some payeeKey))) |}.

(** The example with no wallet at all and an encoder that ignores what it
    is given. *)
Definition walletless : ReverseRoutingHints :=
  {| walletManager := {| wallets := ∅ |};
     rateProvider := rateProvider exampleHints;
     paymentRequestUtils := {| encodeParams := fun _ _ _ => EmptyString |} |}.

End ReverseRoutingHints.

(** ** ChannelNursery: opening a channel and settling the swap through it

    [lib/swap/ChannelNursery.ts] is not part of the sources; its test suite
    is.  The definitions of this module follow the specification (section
    4.8) and agree with what the test suite observes. *)

Module ChannelNursery.

(** [haystack.includes(needle)]. *)
Fixpoint includes (needle haystack : string) : bool :=
  String.prefix needle haystack
  || match haystack with
     | EmptyString => false
     | String _ rest => includes needle rest
     end.

(** What follows the first occurrence of [needle] in [haystack]. *)
Fixpoint afterFirst (needle haystack : string) : option string :=
  if String.prefix needle haystack
  then Some (String.substring (String.length needle)
               (String.length haystack - String.length needle) haystack)
  else match haystack with
       | EmptyString => None
       | String _ rest => afterFirst needle rest
       end.

(** Modelled from the spec: the error strings the missing
    ChannelNursery.ts looks for (section 4.8, step 4 and "settlement
    idempotency"): [peer <node> is not online], the two messages of a node
    that is still syncing, and the message of an invoice paid before. *)
Definition peerNotOnline (error : string) : bool :=
  match afterFirst "peer " error with
  | Some rest => includes " is not online" rest
  | None => false
  end.

Definition lndSyncing (error : string) : bool :=
  includes "wallet is fully synced" error
  || includes "Synchronizing blockchain" error.

Definition invoiceAlreadyPaid (error : string) : bool :=
  includes "invoice is already paid" error.

Inductive OpenChannelFailure : Type :=
| LndSyncing
| PeerOffline
| Terminal.

(** Modelled from the spec: the error classification of [openChannel]
    (section 4.8, step 4), which lives in the missing ChannelNursery.ts.
    The first matching class wins. *)
Definition classifyOpenChannelError (error : string) : OpenChannelFailure :=
  if lndSyncing error then LndSyncing
  else if peerNotOnline error then PeerOffline
  else Terminal.

(** What the nursery does to its collaborators. *)
Inductive Effect : Type :=
| LndOpenChannel
| Wait (delay : Z)
| ConnectByPublicKey
| SetAttempted
| SetFundingTransaction (transactionId : string) (vout : Z)
| SetSwapStatusChannelCreated
| EmitChannelCreated
| SetAbandoned
| LndListChannels
| SettleSwap (chanId : string)
| SetSettled
| AcquireLock (key : string)
| ReleaseLock (key : string)
| SettleChannel (swapId : string)
| StoreSettleRetries (swapId : string) (retries : option Z)
| ScheduleSettle (swapId : string) (delay : Z).

Definition count (p : Effect -> bool) (log : list Effect) : nat :=
  List.length (List.filter p log).

Definition isLndOpenChannel (e : Effect) : bool :=
  match e with LndOpenChannel => true | _ => false end.
Definition isConnectByPublicKey (e : Effect) : bool :=
  match e with ConnectByPublicKey => true | _ => false end.
Definition isSetAttempted (e : Effect) : bool :=
  match e with SetAttempted => true | _ => false end.
Definition isSetFundingTransaction (e : Effect) : bool :=
  match e with SetFundingTransaction _ _ => true | _ => false end.
Definition isEmitChannelCreated (e : Effect) : bool :=
  match e with EmitChannelCreated => true | _ => false end.
Definition isSetAbandoned (e : Effect) : bool :=
  match e with SetAbandoned => true | _ => false end.
Definition isSettleSwap (e : Effect) : bool :=
  match e with SettleSwap _ => true | _ => false end.
Definition isSetSettled (e : Effect) : bool :=
  match e with SetSettled => true | _ => false end.
Definition isSettleChannel (e : Effect) : bool :=
  match e with SettleChannel _ => true | _ => false end.

Record ChannelPoint : Type := mkChannelPoint {
  fundingTransactionId : string;
  outputIndex : Z
}.

Section OpenChannel.

(** The pause before the first retry; the k-th retry in a row waits
    [k] times as long (linear backoff). *)
Variable retryInterval : Z.

(** The funding outpoint LND answers with once it opens the channel. *)
Variable channelPoint : ChannelPoint.

(** Modelled from the spec: what [openChannel] of the missing
    ChannelNursery.ts does when LND opens the channel (section 4.8,
    step 2): the attempt and the funding outpoint are stored, the status of
    the swap is set and [channel.created] is emitted. *)
Definition channelOpened : list Effect :=
  [ LndOpenChannel;
    SetAttempted;
    SetFundingTransaction (fundingTransactionId channelPoint) (outputIndex channelPoint);
    SetSwapStatusChannelCreated;
    EmitChannelCreated ].

(** Modelled from the spec: [openChannel] of the missing
    ChannelNursery.ts (section 4.8, steps 2 and 4).  [errors] are the
    errors the next calls of [lndClient.openChannel] throw, in order;
    the call after them succeeds.  The result is what has happened when
    the call resolves and, if a retry is left to happen after that, the
    errors that remain for it: the test suite sees one
    [lndClient.openChannel] and one [connectByPublicKey] by the time
    [openChannel] resolves on an offline peer, and both calls of a
    syncing retry.  A call that may not reconnect treats an offline peer
    like any other error. *)
Fixpoint openChannel (mayReconnect : bool) (retries : nat) (errors : list string)
  : list Effect * option (list string) :=
  match errors with
  | [] => (channelOpened, None)
  | error :: rest =>
      match classifyOpenChannelError error with
      | LndSyncing =>
          let '(log, pending) := openChannel mayReconnect (S retries) rest in
          (LndOpenChannel :: Wait (Z.of_nat (S retries) * retryInterval) :: log,
           pending)
      | PeerOffline =>
          if mayReconnect
          then ([LndOpenChannel; ConnectByPublicKey], Some rest)
          else ([LndOpenChannel; SetAbandoned], None)
      | Terminal => ([LndOpenChannel; SetAbandoned], None)
      end
  end.

(** Modelled from the spec: what [n] failures in a row of a node that is
    still syncing leave behind, after [retries] earlier ones: a call of
    LND and a pause each, the pauses growing linearly (section 4.8,
    step 4). *)
Fixpoint backoff (retries n : nat) : list Effect :=
  match n with
  | O => []
  | S n' =>
      LndOpenChannel :: Wait (Z.of_nat (S retries) * retryInterval)
        :: backoff (S retries) n'
  end.

(** Modelled from the spec: [openChannel] of the missing ChannelNursery.ts
    together with the one retry that follows a [connectByPublicKey]
    (section 4.8, step 4: "attempt connectByPublicKey then retry once").
    The test suite does not see that retry by the time [openChannel]
    resolves, which is why [openChannel] hands it back as pending; the
    retry does not reconnect a second time. *)
Definition openChannelAndRetry (errors : list string) : list Effect :=
  match openChannel true 0 errors with
  | (log, None) => log
  | (log, Some rest) => log ++ fst (openChannel false 0 rest)
  end.

End OpenChannel.

Record Channel : Type := mkChannel {
  ch_fundingTransactionId : option string;
  ch_fundingTransactionVout : option Z;
  ch_chanId : string
}.

Record ChannelCreation : Type := mkChannelCreation {
  cc_fundingTransactionId : string;
  cc_fundingTransactionVout : Z
}.

Definition fundedBy (channelCreation : ChannelCreation) (channel : Channel) : bool :=
  match ch_fundingTransactionId channel, ch_fundingTransactionVout channel with
  | Some id, Some vout =>
      String.eqb id (cc_fundingTransactionId channelCreation)
      && (vout =? cc_fundingTransactionVout channelCreation)
  | _, _ => false
  end.

(** Modelled from the spec: [settleChannel] of the missing
    ChannelNursery.ts (section 4.8, step 3 and "settlement idempotency").
    [channels] is the answer of [lndClient.listChannels(true)],
    [settleSwap] the injected payment of the invoice through a channel.
    Without an active channel on the funding outpoint nothing is paid and
    nothing is settled. *)
Definition settleChannel
  (channels : list Channel) (settleSwap : string -> Result.result string unit)
  (channelCreation : ChannelCreation) : bool * list Effect :=
  match List.find (fundedBy channelCreation) channels with
  | None => (false, [LndListChannels])
  | Some channel =>
      match settleSwap (ch_chanId channel) with
      | OK _ => (true, [LndListChannels; SettleSwap (ch_chanId channel); SetSettled])
      | Err error =>
          if invoiceAlreadyPaid error
          then (true, [LndListChannels; SettleSwap (ch_chanId channel); SetSettled])
          else (false, [LndListChannels; SettleSwap (ch_chanId channel)])
      end
  end.

Definition channelSettleLock : string := "channelSettle".

(** The largest value the retry counter of a swap takes. *)
Definition maxSettleRetries : Z := 4.

(** Modelled from the spec: the bookkeeping of [settleChannelWrapper] in
    the missing ChannelNursery.ts after one attempt.  The counter of the
    swap starts at 1 and doubles while it is below [maxSettleRetries]; it
    is the factor of the base retry time after which the wrapper runs
    again.  Once an attempt fails with the counter at its maximum, the
    counter is deleted and nothing is scheduled.  An attempt that settles
    leaves the counters as they are and schedules nothing. *)
Definition afterSettleAttempt
  (settled : bool) (swapId : string) (settleRetries : gmap string Z)
  : gmap string Z * option Z :=
  if settled then (settleRetries, None)
  else
    match settleRetries !! swapId with
    | None => (<[swapId := 1]> settleRetries, Some 1)
    | Some retries =>
        if retries <? maxSettleRetries
        then (<[swapId := 2 * retries]> settleRetries, Some (2 * retries))
        else (delete swapId settleRetries, None)
    end.

(** Modelled from the spec: one run of [settleChannelWrapper] in the
    missing ChannelNursery.ts: the attempt, the counter it leaves, the timer
    it sets.  A run started by a timer holds the lock from its start to its
    end; the test suite calls the wrapper while it holds the lock itself,
    and that call goes through. *)
Definition settleAttempt
  (fromTimer : bool) (swapId : string) (baseRetryTime : Z)
  (stored : option Z) (next : option Z) : list Effect :=
  (if fromTimer then [AcquireLock channelSettleLock] else [])
  ++ [SettleChannel swapId; StoreSettleRetries swapId stored]
  ++ match next with
     | Some factor => [ScheduleSettle swapId (factor * baseRetryTime)]
     | None => []
     end
  ++ (if fromTimer then [ReleaseLock channelSettleLock] else []).

(** Modelled from the spec: [settleChannelWrapper] of the missing
    ChannelNursery.ts, followed through the timers it sets.  [outcome k] is
    what the k-th call of [settleChannel] returns; [fuel] bounds the number
    of runs that are followed. *)
Fixpoint settleChannelWrapper
  (fuel : nat) (outcome : nat -> bool) (attempt : nat) (fromTimer : bool)
  (swapId : string) (baseRetryTime : Z) (settleRetries : gmap string Z)
  : list Effect * gmap string Z :=
  match fuel with
  | O => ([], settleRetries)
  | S fuel' =>
      let '(settleRetries', next) :=
        afterSettleAttempt (outcome attempt) swapId settleRetries in
      let here :=
        settleAttempt fromTimer swapId baseRetryTime (settleRetries' !! swapId) next in
      match next with
      | None => (here, settleRetries')
      | Some _ =>
          let '(later, final) :=
            settleChannelWrapper fuel' outcome (S attempt) true swapId baseRetryTime
              settleRetries' in
          (here ++ later, final)
      end
  end.

(** The values the retry counter of [swapId] was left at, attempt by
    attempt. *)
Definition storedRetries (swapId : string) (log : list Effect) : list (option Z) :=
  flat_map
    (fun e =>
       match e with
       | StoreSettleRetries id r => if String.eqb id swapId then [r] else []
       | _ => []
       end) log.

Definition scheduledDelays (log : list Effect) : list Z :=
  flat_map (fun e => match e with ScheduleSettle _ d => [d] | _ => [] end) log.

(** Every attempt of a log but the first is made while [key] is held. *)
Fixpoint retriesHoldLock (key : string) (held isRetry : bool) (log : list Effect)
  : bool :=
  match log with
  | [] => true
  | AcquireLock k :: rest =>
      retriesHoldLock key (held || String.eqb k key) isRetry rest
  | ReleaseLock k :: rest =>
      retriesHoldLock key (held && negb (String.eqb k key)) isRetry rest
  | SettleChannel _ :: rest =>
      (negb isRetry || held) && retriesHoldLock key held true rest
  | _ :: rest => retriesHoldLock key held isRetry rest
  end.

(** *** The data of the test suite *)

Definition walletNotSynced : string :=
  "2 UNKNOWN: channels cannot be created before the wallet is fully synced".

Definition remoteNotSynced : string :=
  "2 UNKNOWN: received funding error from 0380e1dbcae8ca0df4eb8dca5b7262808c68c9a4eb662fa599db3e6fbaad95e97b: chan_id=4c63f4f69b447ff1c3bb2d729b0ae9349c6687a65540edcf15abb1c936dd24d0, err=Synchronizing blockchain".

Definition peerIsNotOnline : string :=
  "2 UNKNOWN: peer 02d4c41c75f79c52d31014f0665f327c47f92505217d9a8b75019374a6ebd04ce0 is not online".

Definition someOtherError : string := "some other error".

Definition alreadyPaid : string := "could not pay invoice: invoice is already paid".

Definition testChannelPoint : ChannelPoint :=
  mkChannelPoint "4a5e1e4baab89f3a32518a88c31bc87f618f76673e2cc77ab2127b7afdeda33b" 2.

Definition testChannelCreation : ChannelCreation := mkChannelCreation "id" 123.

Definition testChannels : list Channel :=
  [ mkChannel None None "wrong";
    mkChannel (Some "id"%string) (Some 122) "wrong";
    mkChannel (Some "id"%string) (Some 123) "correct" ].

End ChannelNursery.

(** ** Sums and comparisons of numbers

    [a + b] on two doubles that hold integers is the integer sum, rounded
    like every double; the sum with a double that holds no integer is left
    to [plusNonInteger].  [a < b] is false as soon as one side is NaN. *)

Module Arith.
Import JS.

Section Plus.

Variable plusNonInteger : number -> number -> number.

Definition plus (a b : number) : number :=
  match a, b with
  | Int x, Int y => Number (x + y)
  | _, _ => plusNonInteger a b
  end.

End Plus.

Definition lt (a b : number) : bool :=
  match a, b with
  | Int x, Int y => x <? y
  | Int x, NotInt (Fraction n d) => x * Z.pos d <? n
  | NotInt (Fraction n d), Int y => n <? y * Z.pos d
  | NotInt (Fraction n d), NotInt (Fraction n' d') => n * Z.pos d' <? n' * Z.pos d
  | NotInt NaN, _ => false
  | _, NotInt NaN => false
  | NotInt Infinity, _ => false
  | NotInt NegInfinity, NotInt NegInfinity => false
  | NotInt NegInfinity, _ => true
  | _, NotInt Infinity => true
  | _, NotInt NegInfinity => false
  end.

Definition gt (a b : number) : bool := lt b a.

End Arith.

(** ** [lib/wallet/Errors.ts]: the errors of the wallet *)

Module WalletErrors.
Import JS.

Record Error : Type := mkError {
  message : string;
  code : string
}.

(** The double quote of the messages. *)
Definition quote : string := String (ascii_of_nat 34) EmptyString.

Section Table.

(** [ErrorCodePrefix.Wallet] of [consts/Enums], [concatErrorCode] of
    [Utils], and how a number prints in a template string. *)
Variable ErrorCodePrefix : Type.
Variable Wallet : ErrorCodePrefix.
Variable concatErrorCode : ErrorCodePrefix -> Z -> string.
Variable toString : number -> string.

Definition NOT_INITIALIZED : Error :=
  {| message := "wallet not initialized";
     code := concatErrorCode Wallet 0 |}.

Definition INVALID_MNEMONIC (mnemonic : string) : Error :=
  {| message := ("mnemonic " ++ quote ++ mnemonic ++ quote ++ " is invalid")%string;
     code := concatErrorCode Wallet 1 |}.

Definition INVALID_DEPTH_INDEX (depth : number) : Error :=
  {| message := ("depth index " ++ quote ++ toString depth ++ quote ++ " is invalide")%string;
     code := concatErrorCode Wallet 2 |}.

Definition NOT_ENOUGH_FUNDS (amount : number) : Error :=
  {| message := ("not enough funds to send " ++ toString amount)%string;
     code := concatErrorCode Wallet 3 |}.

Definition INVALID_SIGNATURE : Error :=
  {| message := "could not verify signatures of constructed transaction";
     code := concatErrorCode Wallet 4 |}.

Definition CURRENCY_NOT_SUPPORTED (symbol : string) : Error :=
  {| message := (symbol ++ " is not supported")%string;
     code := concatErrorCode Wallet 5 |}.

Definition OUTPUTTYPE_NOT_SUPPORTED (symbol : string) (type : number) : Error :=
  {| message :=
       (symbol ++ " wallet does not supports outputs of type: " ++ toString type)%string;
     code := concatErrorCode Wallet 6 |}.

Definition NO_WALLET_SUPPORT (symbol : string) : Error :=
  {| message := (symbol ++ " core has no wallet support compiled in")%string;
     code := concatErrorCode Wallet 7 |}.

Definition MISSING_SWAP_CONTRACTS : Error :=
  {| message := "missing swap contracts";
     code := concatErrorCode Wallet 8 |}.

Definition INVALID_ETHEREUM_CONFIGURATION (reason : string) : Error :=
  {| message := ("invalid Ethereum configuration: " ++ reason)%string;
     code := concatErrorCode Wallet 9 |}.

Definition NOT_SUPPORTED_BY_WALLET (symbol method : string) : Error :=
  {| message := (quote ++ method ++ quote ++ " not supported by " ++ symbol)%string;
     code := concatErrorCode Wallet 9 |}.

Definition UNSUPPORTED_CONTRACT_VERSION
  (name address : string) (actualVersion supportedVersion : Z) : Error :=
  {| message :=
       ("unsupported " ++ name ++ " (" ++ address ++ ") contract version "
        ++ toString (Number actualVersion) ++ "; supported version: "
        ++ toString (Number supportedVersion))%string;
     code := concatErrorCode Wallet 10 |}.

Definition TAPROOT_BLINDING_NOT_SUPPORTED : Error :=
  {| code := concatErrorCode Wallet 11;
     message := "blinding of Taproot addresses not supported" |}.

(** The codes of the table, in the order of the source, for the arguments
    given to the errors that take some. *)
Definition codes
  (text : string) (n : number) (version : Z) : list (string * string) :=
  [ ("NOT_INITIALIZED", code NOT_INITIALIZED);
    ("INVALID_MNEMONIC", code (INVALID_MNEMONIC text));
    ("INVALID_DEPTH_INDEX", code (INVALID_DEPTH_INDEX n));
    ("NOT_ENOUGH_FUNDS", code (NOT_ENOUGH_FUNDS n));
    ("INVALID_SIGNATURE", code INVALID_SIGNATURE);
    ("CURRENCY_NOT_SUPPORTED", code (CURRENCY_NOT_SUPPORTED text));
    ("OUTPUTTYPE_NOT_SUPPORTED", code (OUTPUTTYPE_NOT_SUPPORTED text n));
    ("NO_WALLET_SUPPORT", code (NO_WALLET_SUPPORT text));
    ("MISSING_SWAP_CONTRACTS", code MISSING_SWAP_CONTRACTS);
    ("INVALID_ETHEREUM_CONFIGURATION", code (INVALID_ETHEREUM_CONFIGURATION text));
    ("NOT_SUPPORTED_BY_WALLET", code (NOT_SUPPORTED_BY_WALLET text text));
    ("UNSUPPORTED_CONTRACT_VERSION",
     code (UNSUPPORTED_CONTRACT_VERSION text text version version));
    ("TAPROOT_BLINDING_NOT_SUPPORTED", code TAPROOT_BLINDING_NOT_SUPPORTED) ]%string.

End Table.

(** A stand-in for [concatErrorCode]: the prefix, a dot, the number of the
    error in decimal digits. *)
Definition digit (n : Z) : string :=
  String (ascii_of_nat (48 + Z.to_nat n)) EmptyString.

Definition twoDigits (n : Z) : string :=
  if n <? 10 then digit n else (digit (n / 10) ++ digit (n mod 10))%string.

Definition dotted (prefix : string) (n : Z) : string :=
  (prefix ++ "." ++ twoDigits n)%string.

End WalletErrors.

(** ** [lib/wallet/WalletManager.ts]

    The manager loads two mnemonics from files, and [init] builds one
    wallet for each UTXO based currency: over LND when the currency has an
    LND client and its configuration does not prefer the wallet of the
    node, over the node otherwise; a currency without a key provider gets
    one under the next free derivation index. *)

Module WalletManager.
Import JS.

(** [CurrencyType] of [consts/Enums]: the two members the manager
    distinguishes, and the others. *)
Inductive CurrencyType : Type :=
| BitcoinLike
| Liquid
| AccountBased.

Record KeyProviderType : Type := mkKeyProviderType {
  symbol : string;
  derivationPath : string;
  highestUsedIndex : number
}.

(** What [splitDerivationPath] of [Utils] returns. *)
Record SplitPath : Type := mkSplitPath {
  master : string;
  sub : list number
}.

Record CurrencyConfig : Type := mkCurrencyConfig {
  config_symbol : string;
  preferredWallet : option string
}.

(** A [Map] with string keys: its entries in insertion order, [set]
    replacing the value of a key in place. *)
Definition Map (V : Type) : Type := list (string * V).

Definition mapGet {V} (key : string) (map : Map V) : option V :=
  option_map snd (List.find (fun entry => String.eqb (fst entry) key) map).

Fixpoint mapSet {V} (key : string) (value : V) (map : Map V) : Map V :=
  match map with
  | [] => [(key, value)]
  | (k, v) :: rest =>
      if String.eqb k key then (key, value) :: rest
      else (k, v) :: mapSet key value rest
  end.

(** *** Mnemonics

    The files are a map from names to contents; [generateMnemonic] of
    bip39 is the sequence of the mnemonics it returns, call after call.
    [readFileSync] throws on a file that is not there.  The file system may
    refuse to write to a path (a directory that is missing, a permission
    that is denied) or to read what is at a path (a directory, a file
    without the permission): [writeFileSync] and [readFileSync] then throw
    the error with its code.  *)

Record World : Type := mkWorld {
  files : gmap string string;
  generated : nat;
  writeRefused : string -> option string;
  readRefused : string -> option string
}.

Definition existsSync (filename : string) (world : World) : bool :=
  match files world !! filename with
  | Some _ => true
  | None => false
  end.

Inductive LoadFailure : Type :=
| ENOENT (filename : string)
| WriteRefused (filename code : string)
| ReadRefused (filename code : string)
| InvalidMnemonic (e : WalletErrors.Error).

(** A write that is refused leaves the files as they are. *)
Definition writeFileSync (filename data : string) (world : World)
  : World * result LoadFailure unit :=
  match writeRefused world filename with
  | Some code => (world, Err (WriteRefused filename code))
  | None =>
      ({| files := <[filename := data]> (files world);
          generated := generated world;
          writeRefused := writeRefused world;
          readRefused := readRefused world |},
       OK tt)
  end.

Definition readFileSync (filename : string) (world : World) : result LoadFailure string :=
  match files world !! filename with
  | Some content =>
      match readRefused world filename with
      | Some code => Err (ReadRefused filename code)
      | None => OK content
      end
  | None => Err (ENOENT filename)
  end.

Section Mnemonics.

Variable ErrorCodePrefix : Type.
Variable WalletPrefix : ErrorCodePrefix.
Variable concatErrorCode : ErrorCodePrefix -> Z -> string.

(** [generateMnemonic] and [validateMnemonic] of bip39, [String.trim]. *)
Variable generateMnemonic : nat -> string.
Variable validateMnemonic : string -> bool.
Variable trim : string -> string.

(** The argument of [writeFileSync] is evaluated before the call: a
    mnemonic is generated whether or not the write goes through. *)
Definition loadMnemonic (filename : string) (world : World)
  : World * result LoadFailure string :=
  let (world, written) :=
    if negb (existsSync filename world)
    then writeFileSync filename (generateMnemonic (generated world))
           {| files := files world;
              generated := S (generated world);
              writeRefused := writeRefused world;
              readRefused := readRefused world |}
    else (world, OK tt) in
  match written with
  | Err e => (world, Err e)
  | OK _ =>
      match readFileSync filename world with
      | Err e => (world, Err e)
      | OK content =>
          let mnemonic := trim content in
          if negb (validateMnemonic mnemonic)
          then (world,
                Err (InvalidMnemonic
                       (WalletErrors.INVALID_MNEMONIC ErrorCodePrefix WalletPrefix
                          concatErrorCode mnemonic)))
          else (world, OK mnemonic)
      end
  end.

(** What a load ends with once the file is there. *)
Definition readAndValidate (filename content : string) (world : World)
  : result LoadFailure string :=
  match readRefused world filename with
  | Some code => Err (ReadRefused filename code)
  | None =>
      if validateMnemonic (trim content) then OK (trim content)
      else Err (InvalidMnemonic
                  (WalletErrors.INVALID_MNEMONIC ErrorCodePrefix WalletPrefix
                     concatErrorCode (trim content)))
  end.

(** The two loads of the constructor: the mnemonic, then the one for the
    EVM chains. *)
Definition loadMnemonics (mnemonicPath mnemonicPathEvm : string) (world : World)
  : World * result LoadFailure (string * string) :=
  match loadMnemonic mnemonicPath world with
  | (world, Err e) => (world, Err e)
  | (world, OK mnemonic) =>
      match loadMnemonic mnemonicPathEvm world with
      | (world, Err e) => (world, Err e)
      | (world, OK mnemonicEvm) => (world, OK (mnemonic, mnemonicEvm))
      end
  end.

End Mnemonics.

(** *** Wallets *)

Section Manager.

(** The clients and networks of a currency and the wallets of an Ethereum
    manager are handed on as they are; a rejection is a thrown value of
    which [init] reads the [message]. *)
Variables LndClient ChainClient Network EthereumWallet Exception : Type.
Variable messageOf : Exception -> option string.

Variable ErrorCodePrefix : Type.
Variable WalletPrefix : ErrorCodePrefix.
Variable concatErrorCode : ErrorCodePrefix -> Z -> string.
Variable toString : number -> string.
Variable plusNonInteger : number -> number -> number.

(** [splitDerivationPath] of [Utils]. *)
Variable splitDerivationPath : string -> SplitPath.

Record Currency : Type := mkCurrency {
  currency_symbol : string;
  type : CurrencyType;
  network : Network;
  lndClient : option LndClient;
  chainClient : ChainClient
}.

Inductive WalletProvider : Type :=
| LndWalletProvider (lndClient : LndClient) (chainClient : ChainClient)
| CoreWalletProvider (chainClient : ChainClient)
| ElementsWalletProvider (chainClient : ChainClient).

(** A [Wallet], or for the type [Liquid] a [WalletLiquid], after
    [initKeyProvider]. *)
Record Wallet : Type := mkWallet {
  wallet_type : CurrencyType;
  walletProvider : WalletProvider;
  wallet_network : Network;
  wallet_derivationPath : string;
  wallet_highestUsedIndex : number
}.

Inductive AnyWallet : Type :=
| Utxo (wallet : Wallet)
| Ethereum (wallet : EthereumWallet).

Record EthereumManager : Type := mkEthereumManager {
  manager_init : string -> result Exception (Map EthereumWallet)
}.

(** The manager, with what it reaches for: the key repository and the
    balance of a wallet provider of the node. *)
Record WalletManager : Type := mkWalletManager {
  currencies : list Currency;
  ethereumManagers : list EthereumManager;
  mnemonicEvm : string;
  getKeyProviders : result Exception (list KeyProviderType);
  addKeyProvider : KeyProviderType -> result Exception unit;
  getBalance : WalletProvider -> result Exception unit
}.

Inductive Failure : Type :=
| Thrown (e : WalletErrors.Error)
| Rejected (x : Exception).

(** The calls [init] makes, and its writes to [this.wallets], which stay
    when it fails later on. *)
Inductive Call : Type :=
| GetKeyProviders
| GetBalance (walletProvider : WalletProvider)
| AddKeyProvider (info : KeyProviderType)
| WalletsSet (symbol : string) (wallet : AnyWallet)
| EthereumManagerInit (mnemonic : string).

Definition Method (A : Type) : Type := Effects.Async Call Failure A.

Definition ask {A} (c : Call) (answer : result Exception A) : Method A :=
  Effects.call c (Effects.mapErr Rejected answer).

Variable this : WalletManager.

Definition getKeyProviderMap : Method (Map KeyProviderType) :=
  let! keyProviders := ask GetKeyProviders (getKeyProviders this) in
  Effects.resolve
    (fold_left
       (fun map keyProvider =>
          mapSet (symbol keyProvider)
            {| symbol := symbol keyProvider;
               derivationPath := derivationPath keyProvider;
               highestUsedIndex := highestUsedIndex keyProvider |}
            map)
       keyProviders []).

(** [split.sub[depth - 1]]: undefined unless [depth - 1] is an index of
    the array, which it is not when [depth] holds no integer. *)
Definition subAt (split : SplitPath) (depth : number) : option number :=
  match depth with
  | Int d =>
      match Number (d - 1) with
      | Int i => if 0 <=? i then nth_error (sub split) (Z.to_nat i) else None
      | NotInt _ => None
      end
  | NotInt _ => None
  end.

Definition getHighestDepthIndex (map : Map KeyProviderType) (depth : number)
  : result WalletErrors.Error number :=
  if match depth with Int z => z =? 0 | NotInt _ => false end
  then Err (WalletErrors.INVALID_DEPTH_INDEX
              ErrorCodePrefix WalletPrefix concatErrorCode toString depth)
  else
    OK (fold_left
          (fun highestIndex entry =>
             match subAt (splitDerivationPath (derivationPath (snd entry))) depth with
             | Some index =>
                 if Arith.gt index highestIndex then index else highestIndex
             | None => highestIndex
             end)
          map (Int (-1))).

(** The LND client the wallet of the currency runs on, if it does. *)
Definition lndWallet (configCurrencies : list CurrencyConfig) (currency : Currency)
  : option LndClient :=
  let preferred :=
    match List.find
            (fun config => String.eqb (config_symbol config) (currency_symbol currency))
            configCurrencies with
    | Some config => preferredWallet config
    | None => None
    end in
  if match preferred with Some wallet => String.eqb wallet "core" | None => false end
  then None
  else lndClient currency.

Definition baseDerivationPath : string := "m/0".

(** One round of the loop over the currencies. *)
Definition initCurrency
  (configCurrencies : list CurrencyConfig)
  (keyProviderMap : Map KeyProviderType) (currency : Currency)
  : Method (Map KeyProviderType) :=
  match type currency with
  | AccountBased => Effects.resolve keyProviderMap
  | _ =>
      let! walletProvider :=
        match lndWallet configCurrencies currency with
        | Some lnd => Effects.resolve (LndWalletProvider lnd (chainClient currency))
        | None =>
            let walletProvider :=
              match type currency with
              | BitcoinLike => CoreWalletProvider (chainClient currency)
              | _ => ElementsWalletProvider (chainClient currency)
              end in
            Effects.call (GetBalance walletProvider)
              match getBalance this walletProvider with
              | OK _ => OK walletProvider
              | Err error =>
                  if match messageOf error with
                     | Some message => String.eqb message "Method not found"
                     | None => false
                     end
                  then Err (Thrown (WalletErrors.NO_WALLET_SUPPORT
                                      ErrorCodePrefix WalletPrefix concatErrorCode
                                      (currency_symbol currency)))
                  else Err (Rejected error)
              end
        end in
      let! found :=
        match mapGet (currency_symbol currency) keyProviderMap with
        | Some keyProviderInfo => Effects.resolve (keyProviderInfo, keyProviderMap)
        | None =>
            match getHighestDepthIndex keyProviderMap (Int 2) with
            | Err e => Effects.reject (Thrown e)
            | OK highest =>
                let keyProviderInfo :=
                  {| highestUsedIndex := Int 0;
                     symbol := currency_symbol currency;
                     derivationPath :=
                       (baseDerivationPath ++ "/"
                        ++ toString (Arith.plus plusNonInteger highest (Int 1)))%string |} in
                let! _ :=
                  ask (AddKeyProvider keyProviderInfo)
                    (addKeyProvider this keyProviderInfo) in
                Effects.resolve
                  (keyProviderInfo,
                   mapSet (currency_symbol currency) keyProviderInfo keyProviderMap)
            end
        end in
      let wallet :=
        {| wallet_type := type currency;
           walletProvider := walletProvider;
           wallet_network := network currency;
           wallet_derivationPath := derivationPath (fst found);
           wallet_highestUsedIndex := highestUsedIndex (fst found) |} in
      let! _ :=
        Effects.call (WalletsSet (currency_symbol currency) (Utxo wallet)) (OK tt) in
      Effects.resolve (snd found)
  end.

Fixpoint initCurrencies
  (configCurrencies : list CurrencyConfig)
  (keyProviderMap : Map KeyProviderType) (currencies : list Currency)
  : Method (Map KeyProviderType) :=
  match currencies with
  | [] => Effects.resolve keyProviderMap
  | currency :: rest =>
      let! keyProviderMap := initCurrency configCurrencies keyProviderMap currency in
      initCurrencies configCurrencies keyProviderMap rest
  end.

Fixpoint setEthereumWallets (ethereumWallets : Map EthereumWallet) : Method unit :=
  match ethereumWallets with
  | [] => Effects.resolve tt
  | (symbol, ethereumWallet) :: rest =>
      let! _ := Effects.call (WalletsSet symbol (Ethereum ethereumWallet)) (OK tt) in
      setEthereumWallets rest
  end.

Fixpoint initEthereumManagers (managers : list EthereumManager) : Method unit :=
  match managers with
  | [] => Effects.resolve tt
  | manager :: rest =>
      let! ethereumWallets :=
        ask (EthereumManagerInit (mnemonicEvm this))
          (manager_init manager (mnemonicEvm this)) in
      let! _ := setEthereumWallets ethereumWallets in
      initEthereumManagers rest
  end.

Definition init (configCurrencies : list CurrencyConfig) : Method unit :=
  let! keyProviderMap := getKeyProviderMap in
  let! _ := initCurrencies configCurrencies keyProviderMap (currencies this) in
  initEthereumManagers (ethereumManagers this).

End Manager.

Arguments currency_symbol {LndClient ChainClient Network} _.
Arguments type {LndClient ChainClient Network} _.
Arguments network {LndClient ChainClient Network} _.
Arguments lndClient {LndClient ChainClient Network} _.
Arguments chainClient {LndClient ChainClient Network} _.
Arguments LndWalletProvider {LndClient ChainClient} lndClient chainClient.
Arguments CoreWalletProvider {LndClient ChainClient} chainClient.
Arguments ElementsWalletProvider {LndClient ChainClient} chainClient.
Arguments wallet_type {LndClient ChainClient Network} _.
Arguments walletProvider {LndClient ChainClient Network} _.
Arguments wallet_network {LndClient ChainClient Network} _.
Arguments wallet_derivationPath {LndClient ChainClient Network} _.
Arguments wallet_highestUsedIndex {LndClient ChainClient Network} _.
Arguments Utxo {LndClient ChainClient Network EthereumWallet} wallet.
Arguments Ethereum {LndClient ChainClient Network EthereumWallet} wallet.
Arguments manager_init {EthereumWallet Exception} _ _.
Arguments currencies {LndClient ChainClient Network EthereumWallet Exception} _.
Arguments ethereumManagers {LndClient ChainClient Network EthereumWallet Exception} _.
Arguments mnemonicEvm {LndClient ChainClient Network EthereumWallet Exception} _.
Arguments getKeyProviders {LndClient ChainClient Network EthereumWallet Exception} _.
Arguments addKeyProvider {LndClient ChainClient Network EthereumWallet Exception} _ _.
Arguments getBalance {LndClient ChainClient Network EthereumWallet Exception} _ _.
Arguments Thrown {Exception} e.
Arguments Rejected {Exception} x.
Arguments GetKeyProviders {LndClient ChainClient Network EthereumWallet}.
Arguments GetBalance {LndClient ChainClient Network EthereumWallet} walletProvider.
Arguments AddKeyProvider {LndClient ChainClient Network EthereumWallet} info.
Arguments WalletsSet {LndClient ChainClient Network EthereumWallet} symbol wallet.
Arguments EthereumManagerInit {LndClient ChainClient Network EthereumWallet} mnemonic.
Arguments getKeyProviderMap {LndClient ChainClient Network EthereumWallet Exception} this.
Arguments getHighestDepthIndex {ErrorCodePrefix}
  WalletPrefix concatErrorCode toString splitDerivationPath map depth.
Arguments lndWallet {LndClient ChainClient Network} configCurrencies currency.
Arguments initCurrency {LndClient ChainClient Network EthereumWallet Exception}
  messageOf {ErrorCodePrefix} WalletPrefix concatErrorCode toString plusNonInteger
  splitDerivationPath this configCurrencies keyProviderMap currency.
Arguments initCurrencies {LndClient ChainClient Network EthereumWallet Exception}
  messageOf {ErrorCodePrefix} WalletPrefix concatErrorCode toString plusNonInteger
  splitDerivationPath this configCurrencies keyProviderMap currencies.
Arguments setEthereumWallets {LndClient ChainClient Network EthereumWallet Exception}
  ethereumWallets.
Arguments initEthereumManagers {LndClient ChainClient Network EthereumWallet Exception}
  this managers.
Arguments init {LndClient ChainClient Network EthereumWallet Exception}
  messageOf {ErrorCodePrefix} WalletPrefix concatErrorCode toString plusNonInteger
  splitDerivationPath this configCurrencies.

(** The key providers handed to the repository in a log, and the wallets
    of the manager after the writes of a log. *)
Definition addedKeyProviders {LndClient ChainClient Network EthereumWallet : Type}
  (log : list (Call LndClient ChainClient Network EthereumWallet))
  : list KeyProviderType :=
  flat_map (fun c => match c with AddKeyProvider info => [info] | _ => [] end) log.

Definition walletsAfter {LndClient ChainClient Network EthereumWallet : Type}
  (log : list (Call LndClient ChainClient Network EthereumWallet))
  : Map (AnyWallet LndClient ChainClient Network EthereumWallet) :=
  fold_left
    (fun wallets c =>
       match c with
       | WalletsSet symbol wallet => mapSet symbol wallet wallets
       | _ => wallets
       end)
    log [].

(** The index of a key provider at depth 2 of its derivation path. *)
Definition accountIndex (splitDerivationPath : string -> SplitPath)
  (info : KeyProviderType) : option number :=
  subAt (splitDerivationPath (derivationPath info)) (Int 2).

(** The key providers [init] creates one after the other on top of a map:
    each under a symbol the map does not have yet, with no index used,
    under the path that follows the highest index of the map at depth 2. *)
Fixpoint createdOnTop {ErrorCodePrefix : Type}
  (WalletPrefix : ErrorCodePrefix) (concatErrorCode : ErrorCodePrefix -> Z -> string)
  (toString : number -> string) (plusNonInteger : number -> number -> number)
  (splitDerivationPath : string -> SplitPath)
  (map : Map KeyProviderType) (created : list KeyProviderType)
  (mapEnd : Map KeyProviderType) : Prop :=
  match created with
  | [] => mapEnd = map
  | info :: rest =>
      mapGet (symbol info) map = None
      /\ (exists highest,
            getHighestDepthIndex WalletPrefix concatErrorCode toString
              splitDerivationPath map (Int 2) = OK highest
            /\ info = {| highestUsedIndex := Int 0;
                         symbol := symbol info;
                         derivationPath :=
                           (baseDerivationPath ++ "/"
                            ++ toString (Arith.plus plusNonInteger highest (Int 1)))%string |})
      /\ createdOnTop WalletPrefix concatErrorCode toString plusNonInteger
            splitDerivationPath (mapSet (symbol info) info map) rest mapEnd
  end.

(** *** Files to load mnemonics from

    Stand-ins for bip39 and [trim]: two mnemonics that come in turn, of
    which every non-empty string is a valid one, and contents without
    white space around them; a file system that refuses nothing, and one
    that refuses every write. *)

Definition exampleGenerate (n : nat) : string :=
  if Nat.even n
  then "legal winner thank year wave sausage worth useful legal winner thank yellow"
  else "zoo zoo zoo zoo zoo zoo zoo zoo zoo zoo zoo wrong".

Definition exampleValidate (mnemonic : string) : bool :=
  negb (String.eqb mnemonic EmptyString).

Definition exampleTrim (content : string) : string := content.

Definition emptyWorld : World :=
  {| files := ∅;
     generated := 0;
     writeRefused := fun _ => None;
     readRefused := fun _ => None |}.

(** No files, and nothing can be written. *)
Definition readOnlyWorld : World :=
  {| files := ∅;
     generated := 0;
     writeRefused := fun _ => Some "EROFS"%string;
     readRefused := fun _ => None |}.

Definition exampleLoadMnemonics (mnemonicPath mnemonicPathEvm : string)
  : World * result LoadFailure (string * string) :=
  loadMnemonics string "W"%string WalletErrors.dotted
    exampleGenerate exampleValidate exampleTrim mnemonicPath mnemonicPathEvm emptyWorld.

(** *** A manager to run [init] on

    Stand-ins for the imports: numbers print in decimal digits, and a path
    is split into the account 0 and the number that follows the four
    characters of its base.  Clients, networks and Ethereum wallets are
    their names, a rejection is its message. *)

Definition decimal (n : number) : string :=
  match n with
  | Int z => NilZero.string_of_int (Z.to_int z)
  | NotInt _ => "NaN"
  end.

Definition afterBase (path : string) : string :=
  match path with
  | String _ (String _ (String _ (String _ rest))) => rest
  | _ => EmptyString
  end.

Definition splitUnderBase (path : string) : SplitPath :=
  {| master := "m";
     sub := [ Int 0;
              match NilZero.int_of_string (afterBase path) with
              | Some i => Int (Z.of_int i)
              | None => NotInt NaN
              end ] |}.

Definition plusOfIntegers (a b : number) : number := NotInt NaN.

Definition exampleCurrencies : list (Currency string string string) :=
  [ mkCurrency _ _ _ "BTC" BitcoinLike "bitcoinRegtest" (Some "lnd-btc"%string) "bitcoind";
    mkCurrency _ _ _ "L-BTC" Liquid "liquidRegtest" None "elementsd";
    mkCurrency _ _ _ "LTC" BitcoinLike "litecoinRegtest" None "litecoind";
    mkCurrency _ _ _ "ETH" AccountBased "anvil" None "none" ]%string.

Definition exampleConfig : list CurrencyConfig :=
  [ mkCurrencyConfig "BTC" None; mkCurrencyConfig "L-BTC" (Some "core"%string) ].

(** The repository knows BTC under the index 4; the node of [failing]
    has no wallet compiled in. *)
Definition exampleManager (failing : string)
  : WalletManager string string string string string :=
  {| currencies := exampleCurrencies;
     ethereumManagers :=
       [ mkEthereumManager _ _
           (fun _ => OK [("ETH", "ether wallet"); ("USDT", "token wallet")]%string) ];
     mnemonicEvm := "test test test test test test test test test test test junk";
     getKeyProviders := OK [ mkKeyProviderType "BTC" "m/0/4" (Int 17) ];
     addKeyProvider := fun _ => OK tt;
     getBalance := fun walletProvider =>
       match walletProvider with
       | CoreWalletProvider chain | ElementsWalletProvider chain =>
           if String.eqb chain failing then Err "Method not found"%string else OK tt
       | LndWalletProvider _ _ => OK tt
       end |}.

Definition exampleInit (failing : string)
  : Method string string string string string unit :=
  init Some "W"%string WalletErrors.dotted decimal plusOfIntegers splitUnderBase
    (exampleManager failing) exampleConfig.

End WalletManager.

(** ** The [mine <blocks>] command of the Ethereum tool

    The loop of the handler runs on fuel: [None] is a handler that is
    still sending when the fuel has run out. *)

Module MineCommand.
Import JS.

Definition exn : Type := string.

Record Signer : Type := mkSigner {
  getAddress : result exn string;
  getNonce : result exn number;
  sendTransaction : string -> number -> result exn unit
}.

Record Argv : Type := mkArgv {
  provider : string;
  blocks : number
}.

Inductive Call : Type :=
| ConnectEthereum (provider : string)
| GetAddress
| GetNonce
| SendTransaction (to : string) (nonce : number)
| ConsoleLog (line : string).

Definition Command (A : Type) : Type := Effects.Async Call exn A.

Section Handler.

(** [connectEthereum] of [EthereumUtils]. *)
Variable connectEthereum : string -> result exn Signer.
Variable toString : number -> string.
Variable plusNonInteger : number -> number -> number.

Fixpoint mine
  (fuel : nat) (signer : Signer) (signerAddress : string) (nonce blocks i : number)
  : Command (option unit) :=
  match fuel with
  | O => Effects.resolve None
  | S fuel =>
      if Arith.lt i blocks
      then
        let! _ :=
          Effects.call
            (SendTransaction signerAddress (Arith.plus plusNonInteger nonce i))
            (sendTransaction signer signerAddress (Arith.plus plusNonInteger nonce i)) in
        mine fuel signer signerAddress nonce blocks
          (Arith.plus plusNonInteger i (Int 1))
      else Effects.resolve (Some tt)
  end.

Definition handler (fuel : nat) (argv : Argv) : Command (option unit) :=
  let! signer :=
    Effects.call (ConnectEthereum (provider argv)) (connectEthereum (provider argv)) in
  let! signerAddress := Effects.call GetAddress (getAddress signer) in
  let! nonce := Effects.call GetNonce (getNonce signer) in
  let! mined := mine fuel signer signerAddress nonce (blocks argv) (Int 0) in
  match mined with
  | None => Effects.resolve None
  | Some _ =>
      let! _ :=
        Effects.call
          (ConsoleLog ("Mined " ++ toString (blocks argv) ++ " blocks")%string)
          (OK tt) in
      Effects.resolve (Some tt)
  end.

End Handler.

(** The nonces of the transactions sent in a log. *)
Definition sentNonces (log : list Call) : list number :=
  flat_map (fun c => match c with SendTransaction _ nonce => [nonce] | _ => [] end) log.

(** A signer at nonce 7 whose transactions all go through. *)
Definition exampleSigner : Signer :=
  {| getAddress := OK "0xf39Fd6e51aad88F6F4ce6aB8827279cffFb92266"%string;
     getNonce := OK (Int 7);
     sendTransaction := fun _ _ => OK tt |}.

Definition exampleHandler (fuel : nat) (blocks : number) : Command (option unit) :=
  handler (fun _ => OK exampleSigner) WalletManager.decimal
    WalletManager.plusOfIntegers fuel (mkArgv "http://127.0.0.1:8545" blocks).

End MineCommand.

(** * Properties *)

(** ** Numbers *)

Section NumberFacts.
Import JS.

Lemma round_to_double_safe z :
  Z.abs z <= MAX_SAFE_INTEGER -> round_to_double z = z.
Proof.
  unfold MAX_SAFE_INTEGER, round_to_double. intros Hz.
  destruct (Z.eq_dec (Z.abs z) 0) as [H0 | H0].
  - rewrite H0. reflexivity.
  - assert (Hlog : Z.log2 (Z.abs z) < 53).
    { apply Z.log2_lt_pow2; lia. }
    destruct (Z.leb_spec (Z.log2 (Z.abs z) - 52) 0); [reflexivity | lia].
Qed.

(** Every safe integer is a double. *)
Lemma safe_integer_is_double z : Z.abs z <= MAX_SAFE_INTEGER -> is_double z.
Proof.
  intros Hz. unfold is_double, Number. rewrite (round_to_double_safe z Hz).
  assert (Z.abs z < 2 ^ 1024).
  { unfold MAX_SAFE_INTEGER in Hz.
    assert (2 ^ 53 < 2 ^ 1024) by (apply Z.pow_lt_mono_r; lia). lia. }
  destruct (Z.ltb_spec (Z.abs z) (2 ^ 1024)); [reflexivity | lia].
Qed.

Lemma truthy_spec n : truthy n = false <-> n = Int 0 \/ n = NotInt NaN.
Proof.
  destruct n as [z | [ | | | num den]]; simpl; split; intros H;
    try discriminate; try (destruct H; discriminate); auto.
  - left. f_equal. destruct (Z.eqb_spec z 0); [assumption | discriminate].
  - destruct H as [H | H]; [| discriminate]. injection H as ->. reflexivity.
Qed.

End NumberFacts.

(** ** Token amounts *)

Section TokenAmounts.
Import JS ERC20WalletProvider.

Lemma formatTokenAmount_8 token a :
  decimals token = 8 -> formatTokenAmount token (Int a) = OK a.
Proof. intros Hd. unfold formatTokenAmount. simpl. rewrite Hd. reflexivity. Qed.

Lemma formatTokenAmount_18 token a :
  decimals token = 18 -> formatTokenAmount token (Int a) = OK (a * 10 ^ 10).
Proof. intros Hd. unfold formatTokenAmount. simpl. rewrite Hd. reflexivity. Qed.

Lemma formatTokenAmount_6 token a :
  decimals token = 6 -> formatTokenAmount token (Int a) = OK (Z.quot a (10 ^ 2)).
Proof. intros Hd. unfold formatTokenAmount. simpl. rewrite Hd. reflexivity. Qed.

Lemma normalizeTokenAmount_8 token b :
  decimals token = 8 -> normalizeTokenAmount token b = Number b.
Proof. intros Hd. unfold normalizeTokenAmount. rewrite Hd. reflexivity. Qed.

Lemma normalizeTokenAmount_18 token b :
  decimals token = 18 -> normalizeTokenAmount token b = Number (Z.quot b (10 ^ 10)).
Proof. intros Hd. unfold normalizeTokenAmount. rewrite Hd. reflexivity. Qed.

Lemma normalizeTokenAmount_6 token b :
  decimals token = 6 -> normalizeTokenAmount token b = Number (b * 10 ^ 2).
Proof. intros Hd. unfold normalizeTokenAmount. rewrite Hd. reflexivity. Qed.

(** C1 (amended): for a non-negative integer amount [a] held by a number,
    [normalizeTokenAmount(formatTokenAmount(a))] is exactly [a] for 8 and
    for 18 decimals; for 6 decimals it is [(a div 10^(8-6)) * 10^(8-6)]
    whenever a number can hold that value.  The arithmetic in between is
    on unbounded integers. *)
Theorem token_amount_roundtrip (token : Token) (a : Z) :
  0 <= a ->
  is_double a ->
  (decimals token = 8 \/ decimals token = 18 ->
   roundTrip token (Int a) = OK (Int a))
  /\ (decimals token = 6 ->
      is_double (a / 10 ^ (8 - 6) * 10 ^ (8 - 6)) ->
      roundTrip token (Int a) = OK (Int (a / 10 ^ (8 - 6) * 10 ^ (8 - 6)))).
Proof.
  intros Hpos Hdouble. unfold roundTrip. split.
  - intros [Hd | Hd].
    + rewrite (formatTokenAmount_8 _ _ Hd). simpl.
      rewrite (normalizeTokenAmount_8 _ _ Hd). now rewrite Hdouble.
    + rewrite (formatTokenAmount_18 _ _ Hd). simpl.
      rewrite (normalizeTokenAmount_18 _ _ Hd).
      rewrite Z.quot_mul by lia. now rewrite Hdouble.
  - intros Hd Hres.
    rewrite (formatTokenAmount_6 _ _ Hd). simpl.
    rewrite (normalizeTokenAmount_6 _ _ Hd).
    rewrite Z.quot_div_nonneg by lia.
    change (8 - 6) with 2 in Hres. now rewrite Hres.
Qed.

(** Up to [Number.MAX_SAFE_INTEGER] the side condition of the 6-decimals
    case always holds. *)
Lemma truncated_amount_is_double a :
  0 <= a <= MAX_SAFE_INTEGER -> is_double (a / 10 ^ (8 - 6) * 10 ^ (8 - 6)).
Proof.
  intros [Hpos Hmax]. apply safe_integer_is_double.
  change (10 ^ (8 - 6)) with 100.
  assert (0 <= a / 100 * 100 <= a).
  { split; [apply Z.mul_nonneg_nonneg; [apply Z.div_pos |]; lia |].
    rewrite Z.mul_comm. apply Z.mul_div_le. lia. }
  lia.
Qed.

Lemma token_amount_roundtrip_witness :
  roundTrip wbtc (Int 123456789) = OK (Int 123456789)
  /\ roundTrip dai (Int 123456789) = OK (Int 123456789)
  /\ roundTrip usdt (Int 123456789) = OK (Int 123456700).
Proof.
  split; [| split].
  - apply (token_amount_roundtrip wbtc 123456789); [lia | reflexivity | now left].
  - apply (token_amount_roundtrip dai 123456789); [lia | reflexivity | now right].
  - apply (token_amount_roundtrip usdt 123456789); [lia | reflexivity ..].
Defined.

(** C1 as stated fails for 6 decimals beyond the safe integers: 2^60 is a
    double, the truncated amount is not, and [Number] rounds it. *)
Lemma token_amount_roundtrip_counterexample :
  0 <= 2 ^ 60
  /\ is_double (2 ^ 60)
  /\ roundTrip usdt (Int (2 ^ 60)) = OK (Int 1152921504606846848)
  /\ 2 ^ 60 / 10 ^ (8 - 6) * 10 ^ (8 - 6) = 1152921504606846900
  /\ roundTrip usdt (Int (2 ^ 60))
     <> OK (Int (2 ^ 60 / 10 ^ (8 - 6) * 10 ^ (8 - 6))).
Proof.
  split; [lia |]. split; [reflexivity |]. split; [reflexivity |].
  split; [reflexivity |]. vm_compute. discriminate.
Qed.

End TokenAmounts.

(** ** Fee rates handed to LND *)

Section LndFees.
Import JS LndWalletProvider.

Variable BitcoinTransaction : Type.
Variable fromHex : string -> result exn BitcoinTransaction.
Variable this : Provider.

Lemma getFeePerVbyte_given satPerVbyte log :
  truthy satPerVbyte = true ->
  getFeePerVbyte this (Some satPerVbyte) log = (log, OK satPerVbyte).
Proof. intros H. unfold getFeePerVbyte, or_else. now rewrite H. Qed.

Lemma getFeePerVbyte_estimated satPerVbyte log :
  match satPerVbyte with Some n => truthy n = false | None => True end ->
  getFeePerVbyte this satPerVbyte log
  = (log ++ [ChainEstimateFee], estimateFee (chainClient this)).
Proof.
  intros H. unfold getFeePerVbyte, or_else.
  destruct satPerVbyte as [n |]; [rewrite H |]; reflexivity.
Qed.

Lemma feeRatesPassedToLnd_app l1 l2 :
  feeRatesPassedToLnd (l1 ++ l2) = feeRatesPassedToLnd l1 ++ feeRatesPassedToLnd l2.
Proof. unfold feeRatesPassedToLnd. apply flat_map_app. Qed.

Lemma estimateFeeCalls_app l1 l2 :
  estimateFeeCalls (l1 ++ l2) = (estimateFeeCalls l1 + estimateFeeCalls l2)%nat.
Proof. unfold estimateFeeCalls. now rewrite List.filter_app, length_app. Qed.

(** [handleLndTransaction] only extends the log, with no call that carries
    a fee rate and without asking for an estimate. *)
Lemma handleLndTransaction_log transactionId address height log :
  exists more,
    fst (handleLndTransaction BitcoinTransaction fromHex this transactionId address height log)
    = log ++ more
    /\ feeRatesPassedToLnd more = []
    /\ estimateFeeCalls more = 0%nat.
Proof.
  unfold handleLndTransaction, await, call.
  destruct (getRawTransactionVerbose _ _) as [raw | e]; simpl.
  - destruct (getOnchainTransactions _ _) as [txs | e]; simpl.
    + destruct (fromHex _); simpl;
        exists [ChainGetRawTransactionVerbose transactionId; LndGetOnchainTransactions height];
        (split; [now rewrite <- app_assoc | split; reflexivity]).
    + exists [ChainGetRawTransactionVerbose transactionId; LndGetOnchainTransactions height].
      split; [now rewrite <- app_assoc | split; reflexivity].
  - exists [ChainGetRawTransactionVerbose transactionId]. split; [| split]; reflexivity.
Qed.

(** The log of a send once LND has answered [getInfo] and the fee rate is
    settled: the one call that carries it, then the lookup of the result. *)
Lemma sendCoins_log address amount feePerVbyte label height log k :
  let '(log', _) :=
    await (call (LndSendCoins address amount feePerVbyte label)
             (sendCoins (lndClient this) address amount feePerVbyte label))
      (fun txid => handleLndTransaction BitcoinTransaction fromHex this txid address height)
      log in
  feeRatesPassedToLnd log = [] ->
  estimateFeeCalls log = k ->
  feeRatesPassedToLnd log' = [feePerVbyte] /\ estimateFeeCalls log' = k.
Proof.
  unfold await, call.
  destruct (sendCoins _ _ _ _ _) as [txid | e].
  - destruct (handleLndTransaction_log txid address height
                (log ++ [LndSendCoins address amount feePerVbyte label]))
      as (more & Hlog & Hfees & Hest).
    destruct (handleLndTransaction _ _ _ _ _ _ _) as [log' r]. simpl in Hlog. subst log'.
    intros Hnone Hk.
    rewrite !feeRatesPassedToLnd_app, !estimateFeeCalls_app, Hnone, Hfees, Hest, Hk.
    split; [reflexivity | cbn; lia].
  - intros Hnone Hk.
    rewrite feeRatesPassedToLnd_app, estimateFeeCalls_app, Hnone, Hk.
    split; [reflexivity | cbn; lia].
Qed.

Lemma sweepWallet_log address feePerVbyte label height log k :
  let '(log', _) :=
    await (call (LndSweepWallet address feePerVbyte label)
             (lnd_sweepWallet (lndClient this) address feePerVbyte label))
      (fun txid => handleLndTransaction BitcoinTransaction fromHex this txid address height)
      log in
  feeRatesPassedToLnd log = [] ->
  estimateFeeCalls log = k ->
  feeRatesPassedToLnd log' = [feePerVbyte] /\ estimateFeeCalls log' = k.
Proof.
  unfold await, call.
  destruct (lnd_sweepWallet _ _ _ _) as [txid | e].
  - destruct (handleLndTransaction_log txid address height
                (log ++ [LndSweepWallet address feePerVbyte label]))
      as (more & Hlog & Hfees & Hest).
    destruct (handleLndTransaction _ _ _ _ _ _ _) as [log' r]. simpl in Hlog. subst log'.
    intros Hnone Hk.
    rewrite !feeRatesPassedToLnd_app, !estimateFeeCalls_app, Hnone, Hfees, Hest, Hk.
    split; [reflexivity | cbn; lia].
  - intros Hnone Hk.
    rewrite feeRatesPassedToLnd_app, estimateFeeCalls_app, Hnone, Hk.
    split; [reflexivity | cbn; lia].
Qed.

Lemma sendToAddress_after_fee address amount satPerVbyte label info feePerVbyte log :
  getInfo (lndClient this) = OK info ->
  getFeePerVbyte this satPerVbyte [LndGetInfo] = (log, OK feePerVbyte) ->
  run (sendToAddress BitcoinTransaction fromHex this address amount satPerVbyte label)
  = await (call (LndSendCoins address amount feePerVbyte label)
             (sendCoins (lndClient this) address amount feePerVbyte label))
      (fun txid => handleLndTransaction BitcoinTransaction fromHex this txid address
                     (blockHeight info))
      log.
Proof.
  intros Hinfo Hfee. unfold run, sendToAddress.
  unfold await at 1. unfold call at 1. rewrite Hinfo. simpl app.
  unfold await at 1. now rewrite Hfee.
Qed.

Lemma sweepWallet_after_fee address satPerVbyte label info feePerVbyte log :
  getInfo (lndClient this) = OK info ->
  getFeePerVbyte this satPerVbyte [LndGetInfo] = (log, OK feePerVbyte) ->
  run (sweepWallet BitcoinTransaction fromHex this address satPerVbyte label)
  = await (call (LndSweepWallet address feePerVbyte label)
             (lnd_sweepWallet (lndClient this) address feePerVbyte label))
      (fun txid => handleLndTransaction BitcoinTransaction fromHex this txid address
                     (blockHeight info))
      log.
Proof.
  intros Hinfo Hfee. unfold run, sweepWallet.
  unfold await at 1. unfold call at 1. rewrite Hinfo. simpl app.
  unfold await at 1. now rewrite Hfee.
Qed.

(** The fee rate a send or a sweep hands to LND, by what
    [getFeePerVbyte] resolves to after [k] estimates. *)
Lemma send_and_sweep_fee address amount satPerVbyte label info feePerVbyte k :
  getInfo (lndClient this) = OK info ->
  getFeePerVbyte this satPerVbyte [LndGetInfo]
  = ([LndGetInfo] ++ repeat ChainEstimateFee k, OK feePerVbyte) ->
  let sent := fst (run (sendToAddress BitcoinTransaction fromHex this
                          address amount satPerVbyte label)) in
  let swept := fst (run (sweepWallet BitcoinTransaction fromHex this
                           address satPerVbyte label)) in
  feeRatesPassedToLnd sent = [feePerVbyte]
  /\ estimateFeeCalls sent = k
  /\ feeRatesPassedToLnd swept = [feePerVbyte]
  /\ estimateFeeCalls swept = k.
Proof.
  intros Hinfo Hfee. cbv zeta.
  assert (Hnone : feeRatesPassedToLnd ([LndGetInfo] ++ repeat ChainEstimateFee k) = []).
  { rewrite feeRatesPassedToLnd_app. simpl. clear. induction k; [reflexivity | assumption]. }
  assert (Hk : estimateFeeCalls ([LndGetInfo] ++ repeat ChainEstimateFee k) = k).
  { rewrite estimateFeeCalls_app. simpl. clear.
    induction k as [| k IH]; [reflexivity |].
    unfold estimateFeeCalls in *. simpl. now rewrite IH. }
  pose proof (sendCoins_log address amount feePerVbyte label (blockHeight info)
                ([LndGetInfo] ++ repeat ChainEstimateFee k) k) as Hsend.
  pose proof (sweepWallet_log address feePerVbyte label (blockHeight info)
                ([LndGetInfo] ++ repeat ChainEstimateFee k) k) as Hsweep.
  rewrite (sendToAddress_after_fee _ _ _ _ _ _ _ Hinfo Hfee).
  rewrite (sweepWallet_after_fee _ _ _ _ _ _ Hinfo Hfee).
  destruct (await _ _ _) as [log1 r1] in Hsend |- *.
  destruct (await _ _ _) as [log2 r2] in Hsweep |- *.
  destruct (Hsend Hnone Hk) as [H1 H2]. destruct (Hsweep Hnone Hk) as [H3 H4].
  simpl. auto.
Qed.

(** C10 (amended): in [sendToAddress] and in [sweepWallet], once LND has
    answered [getInfo]: when [satPerVbyte] is undefined, 0 or NaN, the fee
    rate handed to LND is the estimate of the chain client; when it is any
    other number, it is handed on unchanged and no estimate is asked
    for. *)
Theorem lnd_fee_rate_selection
  (address label : string) (amount : number) (satPerVbyte : option number)
  (info : LndInfo) :
  getInfo (lndClient this) = OK info ->
  let sent := fst (run (sendToAddress BitcoinTransaction fromHex this
                          address amount satPerVbyte label)) in
  let swept := fst (run (sweepWallet BitcoinTransaction fromHex this
                           address satPerVbyte label)) in
  (satPerVbyte = None \/ satPerVbyte = Some (Int 0) ->
   forall estimate, estimateFee (chainClient this) = OK estimate ->
     feeRatesPassedToLnd sent = [estimate] /\ feeRatesPassedToLnd swept = [estimate])
  /\ (forall n, satPerVbyte = Some n -> n <> Int 0 -> n <> NotInt NaN ->
        feeRatesPassedToLnd sent = [n] /\ estimateFeeCalls sent = 0%nat
        /\ feeRatesPassedToLnd swept = [n] /\ estimateFeeCalls swept = 0%nat)
  /\ (satPerVbyte = Some (NotInt NaN) ->
      forall estimate, estimateFee (chainClient this) = OK estimate ->
        feeRatesPassedToLnd sent = [estimate] /\ feeRatesPassedToLnd swept = [estimate]).
Proof.
  intros Hinfo. cbv zeta.
  assert (Hestimated :
    match satPerVbyte with Some n => truthy n = false | None => True end ->
    forall estimate, estimateFee (chainClient this) = OK estimate ->
      feeRatesPassedToLnd
        (fst (run (sendToAddress BitcoinTransaction fromHex this
                     address amount satPerVbyte label))) = [estimate]
      /\ feeRatesPassedToLnd
           (fst (run (sweepWallet BitcoinTransaction fromHex this
                        address satPerVbyte label))) = [estimate]).
  { intros Hfalsy estimate Hestimate.
    assert (Hfee : getFeePerVbyte this satPerVbyte [LndGetInfo]
                   = ([LndGetInfo] ++ repeat ChainEstimateFee 1, OK estimate)).
    { now rewrite getFeePerVbyte_estimated, Hestimate. }
    destruct (send_and_sweep_fee address amount satPerVbyte label info estimate 1
                Hinfo Hfee) as (H1 & _ & H3 & _).
    now split. }
  split; [| split].
  - intros Hfalsy. apply Hestimated.
    destruct Hfalsy as [-> | ->]; [exact I | reflexivity].
  - intros n -> Hzero Hnan.
    assert (Htruthy : truthy n = true).
    { destruct (truthy n) eqn:E; [reflexivity |].
      apply truthy_spec in E. destruct E; contradiction. }
    apply (send_and_sweep_fee address amount (Some n) label info n 0 Hinfo).
    now rewrite getFeePerVbyte_given.
  - intros ->. now apply Hestimated.
Qed.

End LndFees.

Lemma lnd_fee_rate_selection_witness :
  let send satPerVbyte :=
    fst (LndWalletProvider.run
           (LndWalletProvider.sendToAddress string OK LndWalletProvider.exampleProvider
              "bcrt1qdest" (JS.Int 100000) satPerVbyte "payout")) in
  LndWalletProvider.feeRatesPassedToLnd (send None) = [JS.Int 3]
  /\ LndWalletProvider.feeRatesPassedToLnd (send (Some (JS.Int 0))) = [JS.Int 3]
  /\ LndWalletProvider.feeRatesPassedToLnd (send (Some (JS.Int 12))) = [JS.Int 12].
Proof.
  cbv zeta.
  pose proof (fun satPerVbyte =>
    lnd_fee_rate_selection string OK LndWalletProvider.exampleProvider
      "bcrt1qdest" "payout" (JS.Int 100000) satPerVbyte _ eq_refl) as H.
  split; [| split].
  - destruct (H None) as [Hestimate _].
    exact (proj1 (Hestimate (or_introl eq_refl) _ eq_refl)).
  - destruct (H (Some (JS.Int 0))) as [Hestimate _].
    exact (proj1 (Hestimate (or_intror eq_refl) _ eq_refl)).
  - destruct (H (Some (JS.Int 12))) as (_ & Hgiven & _).
    refine (proj1 (Hgiven (JS.Int 12) eq_refl _ _)); discriminate.
Defined.

(** C10 as stated fails: NaN is a value of [satPerVbyte : number] that is
    not equal to 0, and with it the fee rate handed to LND, by
    [sendToAddress] and by [sweepWallet], is the estimate the chain client
    is asked for, not NaN. *)
Lemma lnd_fee_rate_selection_counterexample :
  LndWalletProvider.feeRatesPassedToLnd
    (fst (LndWalletProvider.run
            (LndWalletProvider.sendToAddress string OK LndWalletProvider.exampleProvider
               "bcrt1qdest" (JS.Int 100000) (Some (JS.NotInt JS.NaN)) "payout")))
  = [JS.Int 3]
  /\ LndWalletProvider.feeRatesPassedToLnd
       (fst (LndWalletProvider.run
               (LndWalletProvider.sweepWallet string OK LndWalletProvider.exampleProvider
                  "bcrt1qdest" (Some (JS.NotInt JS.NaN)) "payout")))
     = [JS.Int 3]
  /\ LndWalletProvider.estimateFeeCalls
       (fst (LndWalletProvider.run
               (LndWalletProvider.sendToAddress string OK
                  LndWalletProvider.exampleProvider
                  "bcrt1qdest" (JS.Int 100000) (Some (JS.NotInt JS.NaN)) "payout")))
     = 1%nat
  /\ JS.NotInt JS.NaN <> JS.Int 0
  /\ [JS.Int 3] <> [JS.NotInt JS.NaN].
Proof.
  split; [reflexivity |]. split; [reflexivity |]. split; [reflexivity |].
  split; discriminate.
Qed.

(** The whole of a send on the example provider: the output that pays the
    address and the fee LND reports for the transaction. *)
Example sendToAddress_example :
  LndWalletProvider.run
    (LndWalletProvider.sendToAddress string OK LndWalletProvider.exampleProvider
       "bcrt1qdest" (JS.Int 100000) None "payout")
  = ([ LndWalletProvider.LndGetInfo;
       LndWalletProvider.ChainEstimateFee;
       LndWalletProvider.LndSendCoins "bcrt1qdest" (JS.Int 100000) (JS.Int 3) "payout";
       LndWalletProvider.ChainGetRawTransactionVerbose "4a5e1e4b";
       LndWalletProvider.LndGetOnchainTransactions (JS.Int 800000) ],
     OK (LndWalletProvider.mkSentTransaction string
           (JS.Int 141) (JS.Int 1) "4a5e1e4b" "0200")).
Proof. reflexivity. Qed.

(** ** Short channel ids *)

Section ShortChannelIds.
Import ReverseRoutingHints.

Lemma shiftr_small a n : 0 <= a < 2 ^ n -> 0 <= n -> Z.shiftr a n = 0.
Proof. intros Ha Hn. rewrite Z.shiftr_div_pow2 by assumption. now apply Z.div_small. Qed.

Lemma land_ones_small a n : 0 <= a < 2 ^ n -> 0 <= n -> Z.land a (Z.ones n) = a.
Proof. intros Ha Hn. rewrite Z.land_ones by assumption. now apply Z.mod_small. Qed.

Lemma land_ones_shiftl a n m : 0 <= n <= m -> Z.land (Z.shiftl a m) (Z.ones n) = 0.
Proof.
  intros Hnm. rewrite Z.land_ones by lia. rewrite Z.shiftl_mul_pow2 by lia.
  replace m with ((m - n) + n) by lia. rewrite Z.pow_add_r by lia.
  rewrite Z.mul_assoc. apply Z.mod_mul. apply Z.pow_nonzero; lia.
Qed.

(** Packing and reading back a short channel id whose transaction and
    output index fit their 3 and 2 bytes. *)
Lemma transactionToLndScid_reads_back blockHeight transactionIndex outputIndex :
  0 <= transactionIndex < 2 ^ 24 ->
  0 <= outputIndex < 2 ^ 16 ->
  let scid := transactionToLndScid blockHeight transactionIndex outputIndex in
  scidBlockHeight scid = blockHeight
  /\ scidTransactionIndex scid = transactionIndex
  /\ scidOutputIndex scid = outputIndex.
Proof.
  intros Ht Ho. cbv zeta.
  unfold transactionToLndScid, scidBlockHeight, scidTransactionIndex, scidOutputIndex.
  assert (Ho24 : 0 <= outputIndex < 2 ^ 40).
  { assert (2 ^ 16 < 2 ^ 40) by (apply Z.pow_lt_mono_r; lia). lia. }
  split; [| split].
  - rewrite !Z.shiftr_lor.
    rewrite Z.shiftr_shiftl_l by lia. rewrite Z.shiftr_shiftl_r by lia.
    change (40 - 40) with 0. change (40 - 16) with 24.
    rewrite Z.shiftl_0_r, (shiftr_small transactionIndex 24),
      (shiftr_small outputIndex 40) by (assumption || lia).
    now rewrite !Z.lor_0_r.
  - rewrite !Z.shiftr_lor.
    rewrite Z.shiftr_shiftl_l by lia. rewrite Z.shiftr_shiftl_l by lia.
    change (40 - 16) with 24. change (16 - 16) with 0.
    rewrite Z.shiftl_0_r, (shiftr_small outputIndex 16) by (assumption || lia).
    rewrite Z.lor_0_r, Z.land_lor_distr_l.
    rewrite land_ones_shiftl, land_ones_small by (assumption || lia).
    reflexivity.
  - rewrite !Z.land_lor_distr_l.
    rewrite !land_ones_shiftl, land_ones_small by (assumption || lia).
    reflexivity.
Qed.

(** The constant of the routing hint reads back as (542409, 1308, 0). *)
Lemma routingHintChanId_reads_back :
  routingHintChanId = 596385002596073472
  /\ scidBlockHeight routingHintChanId = 542409
  /\ scidTransactionIndex routingHintChanId = 1308
  /\ scidOutputIndex routingHintChanId = 0.
Proof.
  split; [reflexivity |].
  apply (transactionToLndScid_reads_back 542409 1308 0); lia.
Qed.

End ShortChannelIds.

(** ** Hints of a reverse swap *)

Section RoutingHints.
Import JS ReverseRoutingHints.

Variable sha256 : Buffer -> Buffer.
Variable verifySchnorr : Buffer -> Buffer -> Buffer -> result string bool.
Variable getHexString : Buffer -> string.
Variable getSwapMemo : string -> SwapType -> string.
Variable minus : number -> number -> number.

Local Abbreviation verify := (verifyAddressSignature sha256 verifySchnorr).
Local Abbreviation hintsOf := (getHints sha256 verifySchnorr getHexString getSwapMemo minus).

Lemma checkDescriptionHash_accepts h :
  acceptableDescriptionHash h -> checkDescriptionHash h = OK h.
Proof.
  destruct h as [h |]; simpl; [| reflexivity].
  intros ->. reflexivity.
Qed.

Lemma checkDescriptionHash_rejects (h : Buffer) :
  List.length h <> 32%nat -> checkDescriptionHash (Some h) = Err (Swap INVALID_DESCRIPTION_HASH).
Proof.
  intros Hlen. simpl.
  destruct (Nat.eqb_spec (List.length h) 32); [contradiction | reflexivity].
Qed.

Lemma checkDescriptionHash_inv h r :
  checkDescriptionHash h = OK r -> r = h /\ acceptableDescriptionHash h.
Proof.
  destruct h as [h |]; simpl.
  - destruct (Nat.eqb_spec (List.length h) 32); simpl; [| discriminate].
    intros [= <-]. auto.
  - intros [= <-]. auto.
Qed.

Lemma tryDecodeAddress_decodable this currency address :
  tryDecodeAddress this (symbol currency) address = OK tt
  <-> decodable this currency address.
Proof.
  unfold tryDecodeAddress, decodable. split.
  - destruct (wallets (walletManager this) !! symbol currency) as [wallet |];
      [| discriminate].
    destruct (decodeAddress wallet address) eqn:E; [| discriminate].
    intros _. exists wallet. rewrite E. auto.
  - intros (wallet & -> & Hok).
    destruct (decodeAddress wallet address); [reflexivity | discriminate].
Qed.

Lemma tryDecodeAddress_undecodable this currency address :
  ~ decodable this currency address ->
  tryDecodeAddress this (symbol currency) address = Err (Swap INVALID_ADDRESS).
Proof.
  intros Hno.
  destruct (tryDecodeAddress this (symbol currency) address) as [[] | e] eqn:E.
  - apply tryDecodeAddress_decodable in E. contradiction.
  - revert E. unfold tryDecodeAddress.
    destruct (wallets (walletManager this) !! symbol currency) as [wallet |];
      [destruct (decodeAddress wallet address) |]; congruence.
Qed.

Lemma verifyBolt12Invoice_ok decoded address signature :
  verifyBolt12Invoice sha256 verifySchnorr decoded address signature = OK tt
  <-> exists payeeKey, payee decoded = Some payeeKey
                       /\ verify payeeKey address signature = OK true.
Proof.
  unfold verifyBolt12Invoice. split.
  - destruct (payee decoded) as [k |]; [| discriminate].
    destruct (verifyAddressSignature _ _ k address signature) as [[] | message] eqn:E;
      [| discriminate | discriminate].
    intros _. now exists k.
  - intros (k & -> & ->). reflexivity.
Qed.

Lemma encodeRoutingHint_ok claimKey address signature r :
  encodeRoutingHint sha256 verifySchnorr getHexString claimKey address signature = OK r
  <-> match claimKey with
      | None => r = None
      | Some k =>
          verify k address signature = OK true
          /\ r = Some [[ {| nodeId := getHexString k;
                            chanId := transactionToLndScid 542409 1308 0;
                            feeBaseMsat := 0;
                            cltvExpiryDelta := 81;
                            feeProportionalMillionths := 21 |} ]]
      end.
Proof.
  unfold encodeRoutingHint. destruct claimKey as [k |].
  - destruct (verifyAddressSignature _ _ k address signature) as [[] | message];
      simpl; split.
    + intros [= <-]. auto.
    + intros [_ ->]. reflexivity.
    + discriminate.
    + intros [? _]. discriminate.
    + discriminate.
    + intros [? _]. discriminate.
  - split; [intros [= <-] | intros ->]; reflexivity.
Qed.

(** [getHints], one check after the other. *)
Lemma getHints_steps this currency args :
  hintsOf this currency args
  = let? checkedHash :=
      match invoice args with
      | None => checkDescriptionHash (descriptionHash args)
      | Some _ => OK None
      end in
    match userAddress args, userAddressSignature args with
    | Some address, Some signature =>
        let? _ := tryDecodeAddress this (symbol currency) address in
        let? hint :=
          match invoice args with
          | Some i =>
              let? _ := verifyBolt12Invoice sha256 verifySchnorr (decoded i)
                          address signature in
              OK None
          | None =>
              encodeRoutingHint sha256 verifySchnorr getHexString
                (claimPublicKey args) address signature
          end in
        OK (addressedHints getSwapMemo minus this currency args checkedHash hint)
    | _, _ => OK (plainHints getSwapMemo minus this currency args checkedHash)
    end.
Proof.
  unfold getHints, addressedHints, plainHints.
  destruct (invoice args); reflexivity.
Qed.

(** What a successful call has gone through. *)
Lemma getHints_inv this currency args hints :
  hintsOf this currency args = OK hints ->
  exists checkedHash,
    match invoice args with
    | None => checkDescriptionHash (descriptionHash args) = OK checkedHash
    | Some _ => checkedHash = None
    end
    /\ match userAddress args, userAddressSignature args with
       | Some address, Some signature =>
           decodable this currency address
           /\ exists hint,
               hints = addressedHints getSwapMemo minus this currency args checkedHash hint
               /\ match invoice args with
                  | Some i =>
                      hint = None
                      /\ verifyBolt12Invoice sha256 verifySchnorr (decoded i)
                           address signature = OK tt
                  | None =>
                      encodeRoutingHint sha256 verifySchnorr getHexString
                        (claimPublicKey args) address signature = OK hint
                  end
       | _, _ => hints = plainHints getSwapMemo minus this currency args checkedHash
       end.
Proof.
  intros Hhints. rewrite getHints_steps in Hhints. unfold Result.bind in Hhints.
  destruct (invoice args) as [i |] eqn:Hinvoice.
  - exists None. split; [reflexivity |]. revert Hhints.
    destruct (userAddress args) as [address |]; [| now intros [= <-]].
    destruct (userAddressSignature args) as [signature |]; [| now intros [= <-]].
    destruct (tryDecodeAddress this (symbol currency) address) as [[] |] eqn:Hdecode;
      [| discriminate].
    apply tryDecodeAddress_decodable in Hdecode.
    destruct (verifyBolt12Invoice _ _ _ _ _) as [[] |] eqn:Hverify; [| discriminate].
    intros [= <-]. split; [assumption |]. exists None. auto.
  - destruct (checkDescriptionHash (descriptionHash args)) as [checkedHash |];
      [| discriminate].
    exists checkedHash. split; [reflexivity |]. revert Hhints.
    destruct (userAddress args) as [address |]; [| now intros [= <-]].
    destruct (userAddressSignature args) as [signature |]; [| now intros [= <-]].
    destruct (tryDecodeAddress this (symbol currency) address) as [[] |] eqn:Hdecode;
      [| discriminate].
    apply tryDecodeAddress_decodable in Hdecode.
    destruct (encodeRoutingHint _ _ _ _ _ _) as [hint |] eqn:Hhint; [| discriminate].
    intros [= <-]. split; [assumption |]. exists hint. auto.
Qed.

(** C7: with a BOLT11 request, a description hash whose length is not 32
    bytes makes the call fail with INVALID_DESCRIPTION_HASH; the check lets
    a buffer through exactly when it is 32 bytes long, the hints then carry
    it; an absent description hash is accepted. *)
Theorem description_hash_must_be_32_bytes
  (this : ReverseRoutingHints) (currency : Currency) (args : Args) :
  invoice args = None ->
  match descriptionHash args with
  | Some h =>
      (List.length h <> 32%nat ->
       getHints sha256 verifySchnorr getHexString getSwapMemo minus this currency args
       = Err (Swap INVALID_DESCRIPTION_HASH))
      /\ (checkDescriptionHash (Some h) = OK (Some h) <-> List.length h = 32%nat)
      /\ (List.length h = 32%nat ->
          getHints sha256 verifySchnorr getHexString getSwapMemo minus this currency args
          <> Err (Swap INVALID_DESCRIPTION_HASH)
          /\ forall hints,
               getHints sha256 verifySchnorr getHexString getSwapMemo minus
                 this currency args = OK hints ->
               invoiceDescriptionHash hints = Some h)
  | None =>
      checkDescriptionHash None = OK None
      /\ getHints sha256 verifySchnorr getHexString getSwapMemo minus this currency args
         <> Err (Swap INVALID_DESCRIPTION_HASH)
  end.
Proof.
  intros Hinvoice.
  assert (Hpast : forall h,
    checkDescriptionHash (descriptionHash args) = OK h ->
    hintsOf this currency args <> Err (Swap INVALID_DESCRIPTION_HASH)).
  { intros h Hcheck. rewrite getHints_steps, Hinvoice, Hcheck. unfold Result.bind.
    destruct (userAddress args) as [address |]; [| discriminate].
    destruct (userAddressSignature args) as [signature |]; [| discriminate].
    unfold tryDecodeAddress.
    destruct (wallets (walletManager this) !! symbol currency) as [wallet |];
      [| discriminate].
    destruct (decodeAddress wallet address); [| discriminate].
    unfold encodeRoutingHint.
    destruct (claimPublicKey args) as [k |]; [| discriminate].
    destruct (verifyAddressSignature _ _ k address signature) as [[] | message];
      discriminate. }
  destruct (descriptionHash args) as [h |] eqn:Hhash.
  - split; [| split].
    + intros Hlen. rewrite getHints_steps, Hinvoice, Hhash.
      now rewrite (checkDescriptionHash_rejects h Hlen).
    + split.
      * intros Hok. now apply checkDescriptionHash_inv in Hok as [_ Hok].
      * intros Hlen. now apply checkDescriptionHash_accepts.
    + intros Hlen. split.
      * apply (Hpast (Some h)). now apply checkDescriptionHash_accepts.
      * intros hints Hhints.
        apply getHints_inv in Hhints as (checkedHash & Hcheck & Hrest).
        rewrite Hinvoice, Hhash in Hcheck.
        apply checkDescriptionHash_inv in Hcheck as [-> _].
        destruct (userAddress args); [| now subst hints].
        destruct (userAddressSignature args); [| now subst hints].
        destruct Hrest as (_ & hint & -> & _). reflexivity.
  - split; [reflexivity |]. now apply (Hpast None).
Qed.

(** C9: the received amount of the hints is the on-chain amount of the
    request minus the claim miner fee configured for the sending currency
    and the version of the swap. *)
Theorem received_amount_is_onchain_amount_minus_claim_fee
  (this : ReverseRoutingHints) (currency : Currency) (args : Args) (hints : SwapHints) :
  getHints sha256 verifySchnorr getHexString getSwapMemo minus this currency args
  = OK hints ->
  receivedAmount hints
  = minus (onchainAmount args)
      (claim (reverse (minerFees (feeProvider (rateProvider this))
                         (symbol currency) (version args)))).
Proof.
  intros Hhints. apply getHints_inv in Hhints as (checkedHash & _ & Hrest).
  destruct (userAddress args); [| now subst hints].
  destruct (userAddressSignature args); [| now subst hints].
  destruct Hrest as (_ & hint & -> & _). reflexivity.
Qed.

(** A request with an address and a signature that passes every check. *)
Lemma getHints_addressed this currency args address signature checkedHash hint :
  userAddress args = Some address ->
  userAddressSignature args = Some signature ->
  match invoice args with
  | None => checkDescriptionHash (descriptionHash args) = OK checkedHash
  | Some _ => checkedHash = None
  end ->
  decodable this currency address ->
  match invoice args with
  | Some i =>
      hint = None
      /\ verifyBolt12Invoice sha256 verifySchnorr (decoded i) address signature = OK tt
  | None =>
      encodeRoutingHint sha256 verifySchnorr getHexString
        (claimPublicKey args) address signature = OK hint
  end ->
  hintsOf this currency args
  = OK (addressedHints getSwapMemo minus this currency args checkedHash hint).
Proof.
  intros Haddress Hsignature Hhash Hdecode Hhint.
  apply tryDecodeAddress_decodable in Hdecode.
  rewrite getHints_steps, Haddress, Hsignature, Hdecode.
  destruct (invoice args) as [i |].
  - destruct Hhint as [-> Hverify]. subst checkedHash. now rewrite Hverify.
  - now rewrite Hhash, Hhint.
Qed.

(** C2 (amended): a BOLT11 request with a claim public key, an address the
    wallet of the sending currency decodes, a valid signature of the
    address by the claim key and a description hash that is absent or 32
    bytes long gets exactly one routing hint of one hop: the short channel
    id packed from (542409, 1308, 0), base fee 0, proportional fee 21, CLTV
    delta 81.  A BOLT12 request never gets a routing hint. *)
Theorem synthetic_routing_hint
  (this : ReverseRoutingHints) (currency : Currency) (args : Args) :
  (invoice args = None ->
   forall claimKey address signature,
     claimPublicKey args = Some claimKey ->
     userAddress args = Some address ->
     userAddressSignature args = Some signature ->
     decodable this currency address ->
     verifyAddressSignature sha256 verifySchnorr claimKey address signature = OK true ->
     acceptableDescriptionHash (descriptionHash args) ->
     exists hints,
       getHints sha256 verifySchnorr getHexString getSwapMemo minus this currency args
       = OK hints
       /\ routingHint hints
          = Some [[ {| nodeId := getHexString claimKey;
                       chanId := transactionToLndScid 542409 1308 0;
                       feeBaseMsat := 0;
                       cltvExpiryDelta := 81;
                       feeProportionalMillionths := 21 |} ]])
  /\ (isBolt12 args ->
      forall hints,
        getHints sha256 verifySchnorr getHexString getSwapMemo minus this currency args
        = OK hints ->
        routingHint hints = None).
Proof.
  split.
  - intros Hinvoice claimKey address signature Hkey Haddress Hsignature Hdecode
      Hvalid Hhash.
    eexists. split.
    + apply (getHints_addressed this currency args address signature
               (descriptionHash args)); try eassumption.
      * rewrite Hinvoice. now apply checkDescriptionHash_accepts.
      * rewrite Hinvoice, Hkey. apply encodeRoutingHint_ok. split; [exact Hvalid | reflexivity].
    + reflexivity.
  - intros Hbolt12 hints Hhints.
    apply getHints_inv in Hhints as (checkedHash & _ & Hrest).
    unfold isBolt12 in Hbolt12.
    destruct (invoice args) as [i |]; [| contradiction].
    destruct (userAddress args); [| now subst hints].
    destruct (userAddressSignature args); [| now subst hints].
    destruct Hrest as (_ & hint & -> & -> & _). reflexivity.
Qed.

(** C3 (amended): the hints carry BIP21 parameters exactly when the request
    supplies an address the wallet of the sending currency decodes together
    with a signature and, for BOLT11, the description hash is absent or 32
    bytes long and the signature is valid under the claim public key if one
    is supplied (without one the signature is not checked); for BOLT12, the
    invoice names a payee key and the signature is valid under that key.
    In every other case the parameters are absent or the call fails. *)
Theorem bip21_params_returned_iff
  (this : ReverseRoutingHints) (currency : Currency) (args : Args) :
  (exists hints,
     getHints sha256 verifySchnorr getHexString getSwapMemo minus this currency args
     = OK hints
     /\ bip21Params hints <> None)
  <-> (exists address signature,
         userAddress args = Some address
         /\ userAddressSignature args = Some signature
         /\ decodable this currency address
         /\ match invoice args with
            | None =>
                acceptableDescriptionHash (descriptionHash args)
                /\ match claimPublicKey args with
                   | Some claimKey =>
                       verifyAddressSignature sha256 verifySchnorr
                         claimKey address signature = OK true
                   | None => True
                   end
            | Some i =>
                exists payeeKey,
                  payee (decoded i) = Some payeeKey
                  /\ verifyAddressSignature sha256 verifySchnorr
                       payeeKey address signature = OK true
            end).
Proof.
  split.
  - intros (hints & Hhints & Hparams).
    apply getHints_inv in Hhints as (checkedHash & Hhash & Hrest).
    destruct (userAddress args) as [address |]; [| now subst hints].
    destruct (userAddressSignature args) as [signature |]; [| now subst hints].
    destruct Hrest as (Hdecode & hint & -> & Hhint).
    exists address, signature. repeat (split; [easy |]).
    destruct (invoice args) as [i |].
    + destruct Hhint as [_ Hverify]. now apply verifyBolt12Invoice_ok.
    + apply checkDescriptionHash_inv in Hhash as [_ Hhash]. split; [assumption |].
      apply encodeRoutingHint_ok in Hhint.
      destruct (claimPublicKey args); [apply Hhint | exact I].
  - intros (address & signature & Haddress & Hsignature & Hdecode & Hchecks).
    destruct (invoice args) as [i |] eqn:Hinvoice.
    + exists (addressedHints getSwapMemo minus this currency args None None).
      split; [| discriminate].
      apply (getHints_addressed this currency args address signature);
        try assumption; rewrite Hinvoice; [reflexivity |].
      split; [reflexivity | now apply verifyBolt12Invoice_ok].
    + destruct Hchecks as [Hhash Hvalid].
      destruct (claimPublicKey args) as [claimKey |] eqn:Hkey.
      * exists (addressedHints getSwapMemo minus this currency args
                  (descriptionHash args)
                  (Some [[ {| nodeId := getHexString claimKey;
                              chanId := transactionToLndScid 542409 1308 0;
                              feeBaseMsat := 0;
                              cltvExpiryDelta := 81;
                              feeProportionalMillionths := 21 |} ]])).
        split; [| discriminate].
        apply (getHints_addressed this currency args address signature);
          try assumption; rewrite Hinvoice.
        -- now apply checkDescriptionHash_accepts.
        -- rewrite Hkey. apply encodeRoutingHint_ok. split; [exact Hvalid | reflexivity].
      * exists (addressedHints getSwapMemo minus this currency args
                  (descriptionHash args) None).
        split; [| discriminate].
        apply (getHints_addressed this currency args address signature);
          try assumption; rewrite Hinvoice.
        -- now apply checkDescriptionHash_accepts.
        -- rewrite Hkey. reflexivity.
Qed.

(** C8 (amended): for a BOLT12 request with an address and a signature, no
    routing hint is produced.  When the wallet of the sending currency
    decodes the address, the signature is checked against the payee key of
    the decoded invoice: the call succeeds if the check finds it valid,
    fails with INVALID_ADDRESS_SIGNATURE if the check finds it invalid,
    fails with the TypeError of the check if the check throws (a payee key
    that is no point of the curve, a signature that is not 64 bytes long),
    and fails with PAYEE_MISSING_FROM_INVOICE if the invoice names no payee.
    When the address does not decode, the call fails with INVALID_ADDRESS
    before any signature is looked at. *)
Theorem bolt12_address_signature
  (this : ReverseRoutingHints) (currency : Currency) (args : Args)
  (i : Invoice) (address : string) (signature : Buffer) :
  invoice args = Some i ->
  userAddress args = Some address ->
  userAddressSignature args = Some signature ->
  (forall hints,
     getHints sha256 verifySchnorr getHexString getSwapMemo minus this currency args
     = OK hints ->
     routingHint hints = None)
  /\ (decodable this currency address ->
      match payee (decoded i) with
      | Some payeeKey =>
          match verifyAddressSignature sha256 verifySchnorr payeeKey address signature with
          | OK true =>
              getHints sha256 verifySchnorr getHexString getSwapMemo minus
                this currency args
              = OK (addressedHints getSwapMemo minus this currency args None None)
          | OK false =>
              getHints sha256 verifySchnorr getHexString getSwapMemo minus
                this currency args
              = Err (Swap INVALID_ADDRESS_SIGNATURE)
          | Err message =>
              getHints sha256 verifySchnorr getHexString getSwapMemo minus
                this currency args
              = Err (TypeError message)
          end
      | None =>
          getHints sha256 verifySchnorr getHexString getSwapMemo minus this currency args
          = Err (Swap PAYEE_MISSING_FROM_INVOICE)
      end)
  /\ (~ decodable this currency address ->
      getHints sha256 verifySchnorr getHexString getSwapMemo minus this currency args
      = Err (Swap INVALID_ADDRESS)).
Proof.
  intros Hinvoice Haddress Hsignature. split; [| split].
  - intros hints Hhints.
    apply getHints_inv in Hhints as (checkedHash & _ & Hrest).
    rewrite Hinvoice, Haddress, Hsignature in Hrest.
    destruct Hrest as (_ & hint & -> & -> & _). reflexivity.
  - intros Hdecode. apply tryDecodeAddress_decodable in Hdecode.
    rewrite getHints_steps, Hinvoice, Haddress, Hsignature, Hdecode.
    unfold verifyBolt12Invoice.
    destruct (payee (decoded i)) as [payeeKey |]; [| reflexivity].
    destruct (verifyAddressSignature _ _ payeeKey address signature) as [[] | message];
      reflexivity.
  - intros Hdecode. apply tryDecodeAddress_undecodable in Hdecode.
    now rewrite getHints_steps, Hinvoice, Haddress, Hsignature, Hdecode.
Qed.

End RoutingHints.

Lemma description_hash_must_be_32_bytes_witness :
  ReverseRoutingHints.exampleGetHints ReverseRoutingHints.btc
    (ReverseRoutingHints.bolt11Request (Some (repeat Byte.x00 31)))
  = Err (ReverseRoutingHints.Swap ReverseRoutingHints.INVALID_DESCRIPTION_HASH).
Proof.
  refine (proj1 (description_hash_must_be_32_bytes _ _ _ _ _
                   ReverseRoutingHints.exampleHints ReverseRoutingHints.btc
                   (ReverseRoutingHints.bolt11Request (Some (repeat Byte.x00 31)))
                   eq_refl) _).
  simpl. lia.
Defined.

Lemma received_amount_witness :
  ReverseRoutingHints.receivedAmount
    (ReverseRoutingHints.addressedHints ReverseRoutingHints.memoFor
       ReverseRoutingHints.minusOfIntegers ReverseRoutingHints.exampleHints
       ReverseRoutingHints.btc (ReverseRoutingHints.bolt12Request
                                  ReverseRoutingHints.userAddr ReverseRoutingHints.payeeKey)
       None None)
  = JS.Int 499889.
Proof.
  exact (received_amount_is_onchain_amount_minus_claim_fee
           ReverseRoutingHints.standInSha256 ReverseRoutingHints.standInVerifySchnorr
           ReverseRoutingHints.hex ReverseRoutingHints.memoFor
           ReverseRoutingHints.minusOfIntegers
           ReverseRoutingHints.exampleHints ReverseRoutingHints.btc
           (ReverseRoutingHints.bolt12Request
              ReverseRoutingHints.userAddr ReverseRoutingHints.payeeKey)
           _ eq_refl).
Defined.

Section RoutingHintsExamples.
Import JS ReverseRoutingHints.

Lemma userAddr_decodable : decodable exampleHints btc userAddr.
Proof. exists regtestWallet. split; reflexivity. Qed.

Lemma synthetic_routing_hint_witness :
  exists hints,
    exampleGetHints btc (bolt11Request (Some (repeat Byte.x00 32))) = OK hints
    /\ routingHint hints
       = Some [[ {| nodeId := "636c69656e742d636c61696d2d6b6579";
                    chanId := 596385002596073472;
                    feeBaseMsat := 0;
                    cltvExpiryDelta := 81;
                    feeProportionalMillionths := 21 |} ]].
Proof.
  exact (proj1 (synthetic_routing_hint standInSha256 standInVerifySchnorr hex memoFor
                  minusOfIntegers exampleHints btc
                  (bolt11Request (Some (repeat Byte.x00 32))))
           eq_refl clientKey userAddr (standInSign clientKey userAddr)
           eq_refl eq_refl eq_refl userAddr_decodable eq_refl eq_refl).
Defined.

(** C2 as stated fails: every condition it names holds of this request, and
    the call fails on the 31 bytes of its description hash. *)
Lemma synthetic_routing_hint_counterexample :
  invoice (bolt11Request (Some (repeat Byte.x00 31))) = None
  /\ claimPublicKey (bolt11Request (Some (repeat Byte.x00 31))) = Some clientKey
  /\ userAddress (bolt11Request (Some (repeat Byte.x00 31))) = Some userAddr
  /\ userAddressSignature (bolt11Request (Some (repeat Byte.x00 31)))
     = Some (standInSign clientKey userAddr)
  /\ decodable exampleHints btc userAddr
  /\ verifyAddressSignature standInSha256 standInVerifySchnorr
       clientKey userAddr (standInSign clientKey userAddr) = OK true
  /\ getHints standInSha256 standInVerifySchnorr hex memoFor minusOfIntegers
       exampleHints btc (bolt11Request (Some (repeat Byte.x00 31)))
     = Err (Swap INVALID_DESCRIPTION_HASH).
Proof.
  repeat (split; [reflexivity |]).
  split; [exact userAddr_decodable |]. split; reflexivity.
Qed.

Lemma bip21_params_returned_witness :
  exists hints,
    exampleGetHints btc (bolt11Request None) = OK hints /\ bip21Params hints <> None.
Proof.
  apply (proj2 (bip21_params_returned_iff standInSha256 standInVerifySchnorr hex memoFor
                  minusOfIntegers exampleHints btc (bolt11Request None))).
  exists userAddr, (standInSign clientKey userAddr).
  split; [reflexivity |]. split; [reflexivity |]. split; [exact userAddr_decodable |].
  split; [exact I | reflexivity].
Defined.

(** C3 as stated fails: the request has no claim public key and no
    signature verifies under any key, and the hints carry BIP21 parameters
    all the same. *)
Lemma bip21_params_returned_counterexample :
  (exists hints,
     getHints standInSha256 rejectAll hex memoFor minusOfIntegers
       exampleHints btc unsignedRequest = OK hints
     /\ bip21Params hints = Some "amount"%string)
  /\ ~ (exists address signature claimKey,
          userAddress unsignedRequest = Some address
          /\ userAddressSignature unsignedRequest = Some signature
          /\ decodable exampleHints btc address
          /\ claimPublicKey unsignedRequest = Some claimKey
          /\ verifyAddressSignature standInSha256 rejectAll
               claimKey address signature = OK true).
Proof.
  split.
  - eexists. split; reflexivity.
  - intros (address & signature & claimKey & _ & _ & _ & _ & Hvalid).
    discriminate Hvalid.
Qed.

Lemma bolt12_address_signature_witness :
  exampleGetHints btc (bolt12Request userAddr clientKey) = Err (Swap INVALID_ADDRESS_SIGNATURE)
  /\ exampleGetHints btc (bolt12Request userAddr payeeKey)
     = OK (addressedHints memoFor minusOfIntegers exampleHints btc
             (bolt12Request userAddr payeeKey) None None)
  /\ exampleGetHints btc (emptySignature (bolt12Request userAddr payeeKey))
     = Err (TypeError "Expected Signature").
Proof.
  split; [| split].
  - exact (proj1 (proj2 (bolt12_address_signature standInSha256 standInVerifySchnorr hex
                           memoFor minusOfIntegers exampleHints btc
                           (bolt12Request userAddr clientKey) _ _ _
                           eq_refl eq_refl eq_refl))
             userAddr_decodable).
  - exact (proj1 (proj2 (bolt12_address_signature standInSha256 standInVerifySchnorr hex
                           memoFor minusOfIntegers exampleHints btc
                           (bolt12Request userAddr payeeKey) _ _ _
                           eq_refl eq_refl eq_refl))
             userAddr_decodable).
  - exact (proj1 (proj2 (bolt12_address_signature standInSha256 standInVerifySchnorr hex
                           memoFor minusOfIntegers exampleHints btc
                           (emptySignature (bolt12Request userAddr payeeKey)) _ _ _
                           eq_refl eq_refl eq_refl))
             userAddr_decodable).
Defined.

(** C8 as stated fails: the signature does not verify under the payee key,
    and the call fails with INVALID_ADDRESS, because the address does not
    decode, not with INVALID_ADDRESS_SIGNATURE. *)
Lemma bolt12_address_signature_counterexample :
  isBolt12 (bolt12Request "nonsense" clientKey)
  /\ userAddress (bolt12Request "nonsense" clientKey) = Some "nonsense"%string
  /\ userAddressSignature (bolt12Request "nonsense" clientKey)
     = Some (standInSign clientKey "nonsense")
  /\ payee (mkDecodedInvoice (Some "coffee"%string) (Some payeeKey)) = Some payeeKey
  /\ verifyAddressSignature standInSha256 standInVerifySchnorr
       payeeKey "nonsense" (standInSign clientKey "nonsense") = OK false
  /\ getHints standInSha256 standInVerifySchnorr hex memoFor minusOfIntegers
       exampleHints btc (bolt12Request "nonsense" clientKey)
     = Err (Swap INVALID_ADDRESS)
  /\ getHints standInSha256 standInVerifySchnorr hex memoFor minusOfIntegers
       exampleHints btc (bolt12Request "nonsense" clientKey)
     <> Err (Swap INVALID_ADDRESS_SIGNATURE).
Proof.
  split; [discriminate |].
  repeat (split; [reflexivity |]).
  discriminate.
Qed.

(** A currency without a wallet: the address is not decoded. *)
Example no_wallet_no_address :
  exampleGetHints ltc (bolt11Request None) = Err (Swap INVALID_ADDRESS).
Proof. reflexivity. Qed.

End RoutingHintsExamples.

(** ** Channel nursery *)

Section Nursery.
Import ChannelNursery.

(** *** Settling through the channel *)

(** C6: when the payment of a settlement attempt fails with an error that
    contains "invoice is already paid", [settleChannel] returns true and
    marks the channel creation settled, with the one payment call that
    failed and no other; on any other error it returns false and does not
    mark it settled. *)
Theorem settle_already_paid_is_success
  (channels : list Channel) (settleSwap : string -> result string unit)
  (channelCreation : ChannelCreation) (channel : Channel) (error : string) :
  List.find (fundedBy channelCreation) channels = Some channel ->
  settleSwap (ch_chanId channel) = Err error ->
  let settled := fst (settleChannel channels settleSwap channelCreation) in
  let log := snd (settleChannel channels settleSwap channelCreation) in
  if includes "invoice is already paid" error
  then settled = true
       /\ count isSetSettled log = 1%nat
       /\ count isSettleSwap log = 1%nat
  else settled = false
       /\ count isSetSettled log = 0%nat.
Proof.
  intros Hchannel Hpay. cbv zeta. unfold settleChannel.
  rewrite Hchannel, Hpay. unfold invoiceAlreadyPaid.
  destruct (includes "invoice is already paid" error); simpl; auto.
Qed.

(** *** Retrying to settle *)

Lemma settleChannelWrapper_step
  fuel outcome attempt fromTimer swapId baseRetryTime settleRetries :
  settleChannelWrapper (S fuel) outcome attempt fromTimer swapId baseRetryTime
    settleRetries
  = let after := afterSettleAttempt (outcome attempt) swapId settleRetries in
    let here :=
      settleAttempt fromTimer swapId baseRetryTime (fst after !! swapId) (snd after) in
    match snd after with
    | None => (here, fst after)
    | Some _ =>
        let later :=
          settleChannelWrapper fuel outcome (S attempt) true swapId baseRetryTime
            (fst after) in
        (here ++ fst later, snd later)
    end.
Proof.
  simpl. destruct (afterSettleAttempt _ _ _) as [settleRetries' [factor |]]; simpl;
    [destruct (settleChannelWrapper _ _ _ _ _ _ _) |]; reflexivity.
Qed.

Lemma afterSettleAttempt_first swapId (settleRetries : gmap string Z) :
  settleRetries !! swapId = None ->
  afterSettleAttempt false swapId settleRetries = (<[swapId := 1]> settleRetries, Some 1).
Proof. intros H. unfold afterSettleAttempt. now rewrite H. Qed.

Lemma afterSettleAttempt_doubles swapId (settleRetries : gmap string Z) retries :
  settleRetries !! swapId = Some retries ->
  retries < maxSettleRetries ->
  afterSettleAttempt false swapId settleRetries
  = (<[swapId := 2 * retries]> settleRetries, Some (2 * retries)).
Proof.
  intros H Hlt. unfold afterSettleAttempt. rewrite H.
  destruct (Z.ltb_spec retries maxSettleRetries); [reflexivity | lia].
Qed.

Lemma afterSettleAttempt_gives_up swapId (settleRetries : gmap string Z) retries :
  settleRetries !! swapId = Some retries ->
  maxSettleRetries <= retries ->
  afterSettleAttempt false swapId settleRetries = (delete swapId settleRetries, None).
Proof.
  intros H Hge. unfold afterSettleAttempt. rewrite H.
  destruct (Z.ltb_spec retries maxSettleRetries); [lia | reflexivity].
Qed.

(** The counter of another swap is never touched. *)
Lemma afterSettleAttempt_other settled swapId other (settleRetries : gmap string Z) :
  other <> swapId ->
  fst (afterSettleAttempt settled swapId settleRetries) !! other = settleRetries !! other.
Proof.
  intros Hother. unfold afterSettleAttempt.
  destruct settled; [reflexivity |].
  destruct (settleRetries !! swapId) as [retries |]; simpl.
  - destruct (retries <? maxSettleRetries); simpl.
    + now rewrite lookup_insert_ne.
    + now rewrite lookup_delete_ne.
  - now rewrite lookup_insert_ne.
Qed.

Lemma settleChannelWrapper_other fuel outcome swapId baseRetryTime other :
  other <> swapId ->
  forall attempt fromTimer (settleRetries : gmap string Z),
    snd (settleChannelWrapper fuel outcome attempt fromTimer swapId baseRetryTime
           settleRetries) !! other
    = settleRetries !! other.
Proof.
  intros Hother.
  induction fuel as [| fuel IH]; intros attempt fromTimer settleRetries; [reflexivity |].
  rewrite settleChannelWrapper_step. cbv zeta.
  pose proof (afterSettleAttempt_other (outcome attempt) swapId other settleRetries Hother)
    as Hstep.
  destruct (snd (afterSettleAttempt (outcome attempt) swapId settleRetries)); simpl.
  - now rewrite IH.
  - exact Hstep.
Qed.

Lemma afterSettleAttempt_settled swapId (settleRetries : gmap string Z) :
  afterSettleAttempt true swapId settleRetries = (settleRetries, None).
Proof. reflexivity. Qed.

(** One attempt, by its outcome and the state of the counter. *)
Ltac settle_attempt :=
  rewrite settleChannelWrapper_step; cbv zeta;
  match goal with
  | |- context [afterSettleAttempt (?outcome ?attempt)] =>
      destruct (outcome attempt) eqn:?
  end;
  [ rewrite afterSettleAttempt_settled
  | first
      [ rewrite afterSettleAttempt_first by assumption
      | erewrite afterSettleAttempt_doubles
          by (apply lookup_insert_eq || (unfold maxSettleRetries; lia))
      | erewrite afterSettleAttempt_gives_up
          by (apply lookup_insert_eq || (unfold maxSettleRetries; lia)) ] ];
  cbn [fst snd].

(** C4: starting with no counter for the swap, at most 4 settlement
    attempts are made, every retry is made while the lock "channelSettle"
    is held, and the counters of other swaps are left alone.  When every
    attempt fails, exactly 4 attempts are made; the counter of the swap is
    left at 1, 2 and 4 after the first three (the factor of the base retry
    time after which the next attempt is scheduled) and deleted after the
    fourth, after which nothing is scheduled. *)
Theorem settle_retry_schedule
  (outcome : nat -> bool) (swapId : string) (baseRetryTime : Z)
  (settleRetries : gmap string Z) (fuel : nat) :
  settleRetries !! swapId = None ->
  (4 <= fuel)%nat ->
  let log :=
    fst (settleChannelWrapper fuel outcome 0 false swapId baseRetryTime settleRetries) in
  let final :=
    snd (settleChannelWrapper fuel outcome 0 false swapId baseRetryTime settleRetries) in
  ((count isSettleChannel log <= 4)%nat
   /\ retriesHoldLock "channelSettle" false false log = true
   /\ forall other, other <> swapId -> final !! other = settleRetries !! other)
  /\ ((forall attempt, outcome attempt = false) ->
      count isSettleChannel log = 4%nat
      /\ storedRetries swapId log = [Some 1; Some 2; Some 4; None]
      /\ scheduledDelays log
         = [1 * baseRetryTime; 2 * baseRetryTime; 4 * baseRetryTime]
      /\ final !! swapId = None).
Proof.
  intros Hfresh Hfuel. cbv zeta.
  do 4 (destruct fuel as [| fuel]; [lia |]). clear Hfuel.
  split; [split; [| split] |].
  - settle_attempt; [cbn; lia |].
    settle_attempt; [cbn; lia |].
    settle_attempt; [cbn; lia |].
    settle_attempt; cbn; lia.
  - settle_attempt; [reflexivity |].
    settle_attempt; [reflexivity |].
    settle_attempt; [reflexivity |].
    settle_attempt; reflexivity.
  - intros other Hother. now apply settleChannelWrapper_other.
  - intros Hfail.
    rewrite settleChannelWrapper_step, (Hfail 0%nat). cbv zeta.
    rewrite afterSettleAttempt_first by assumption. cbn [fst snd].
    rewrite settleChannelWrapper_step, (Hfail 1%nat). cbv zeta.
    erewrite afterSettleAttempt_doubles
      by (apply lookup_insert_eq || (unfold maxSettleRetries; lia)).
    cbn [fst snd].
    rewrite settleChannelWrapper_step, (Hfail 2%nat). cbv zeta.
    erewrite afterSettleAttempt_doubles
      by (apply lookup_insert_eq || (unfold maxSettleRetries; lia)).
    cbn [fst snd].
    rewrite settleChannelWrapper_step, (Hfail 3%nat). cbv zeta.
    erewrite afterSettleAttempt_gives_up
      by (apply lookup_insert_eq || (unfold maxSettleRetries; lia)).
    cbn [fst snd].
    rewrite !lookup_insert_eq, lookup_delete_eq.
    unfold storedRetries, scheduledDelays, count. cbn.
    rewrite String.eqb_refl. cbn. auto.
Qed.

(** *** Opening the channel *)

Lemma classifyOpenChannelError_spec error :
  match classifyOpenChannelError error with
  | LndSyncing => lndSyncing error = true
  | PeerOffline => lndSyncing error = false /\ peerNotOnline error = true
  | Terminal => lndSyncing error = false /\ peerNotOnline error = false
  end.
Proof.
  unfold classifyOpenChannelError.
  destruct (lndSyncing error); [reflexivity |].
  destruct (peerNotOnline error); auto.
Qed.

Variable retryInterval : Z.
Variable channelPoint : ChannelPoint.

(** A call that may not reconnect leaves no retry behind and never
    connects; whatever the errors, its first act is to ask LND. *)
Lemma openChannel_without_reconnect errors :
  forall retries,
    snd (openChannel retryInterval channelPoint false retries errors) = None
    /\ count isConnectByPublicKey
         (fst (openChannel retryInterval channelPoint false retries errors)) = 0%nat.
Proof.
  induction errors as [| error rest IH]; intros retries; [split; reflexivity |].
  simpl. destruct (classifyOpenChannelError error); try (split; reflexivity).
  specialize (IH (S retries)).
  destruct (openChannel retryInterval channelPoint false (S retries) rest) as [log pending].
  simpl in *. exact IH.
Qed.

Lemma openChannel_asks_lnd_first mayReconnect retries errors :
  exists log,
    fst (openChannel retryInterval channelPoint mayReconnect retries errors)
    = LndOpenChannel :: log.
Proof.
  destruct errors as [| error rest]; simpl; [eexists; reflexivity |].
  destruct (classifyOpenChannelError error).
  - destruct (openChannel _ _ _ _ rest). eexists; reflexivity.
  - destruct mayReconnect; eexists; reflexivity.
  - eexists; reflexivity.
Qed.

(** Failures of a node that is still syncing are each followed by a pause
    and another call; what comes after them is met with the count of
    retries they have run up. *)
Lemma openChannel_after_syncing syncing :
  Forall (fun error => lndSyncing error = true) syncing ->
  forall mayReconnect retries errors,
    openChannel retryInterval channelPoint mayReconnect retries (syncing ++ errors)
    = (backoff retryInterval retries (List.length syncing)
         ++ fst (openChannel retryInterval channelPoint mayReconnect
                   (retries + List.length syncing) errors),
       snd (openChannel retryInterval channelPoint mayReconnect
              (retries + List.length syncing) errors)).
Proof.
  induction 1 as [| error syncing Herror _ IH]; intros mayReconnect retries errors.
  - simpl. rewrite Nat.add_0_r. now destruct (openChannel _ _ _ _ errors).
  - cbn [app List.length backoff openChannel].
    unfold classifyOpenChannelError. rewrite Herror.
    rewrite IH, Nat.add_succ_r. reflexivity.
Qed.

Lemma backoff_never_connects retries n :
  count isConnectByPublicKey (backoff retryInterval retries n) = 0%nat.
Proof.
  revert retries. induction n as [| n IH]; intros retries; [reflexivity |].
  exact (IH (S retries)).
Qed.


End Nursery.

Section NurseryExamples.
Import ChannelNursery.

Lemma settle_already_paid_is_success_witness :
  (fst (settleChannel testChannels (fun _ => Err alreadyPaid) testChannelCreation) = true
   /\ count isSetSettled
        (snd (settleChannel testChannels (fun _ => Err alreadyPaid) testChannelCreation))
      = 1%nat
   /\ count isSettleSwap
        (snd (settleChannel testChannels (fun _ => Err alreadyPaid) testChannelCreation))
      = 1%nat)
  /\ (fst (settleChannel testChannels (fun _ => Err someOtherError) testChannelCreation)
      = false
      /\ count isSetSettled
           (snd (settleChannel testChannels (fun _ => Err someOtherError)
                   testChannelCreation))
         = 0%nat).
Proof.
  split.
  - exact (settle_already_paid_is_success testChannels (fun _ => Err alreadyPaid)
             testChannelCreation (mkChannel (Some "id"%string) (Some 123) "correct")
             alreadyPaid eq_refl eq_refl).
  - exact (settle_already_paid_is_success testChannels (fun _ => Err someOtherError)
             testChannelCreation (mkChannel (Some "id"%string) (Some 123) "correct")
             someOtherError eq_refl eq_refl).
Defined.

(** The test "should settle channels": the channel is found by its funding
    outpoint, the swap is settled through it, and the channel creation is
    marked settled on success and on an invoice that was paid already, but
    not on another error. *)
Example test_should_settle_channels :
  settleChannel testChannels (fun _ => OK tt) testChannelCreation
  = (true, [LndListChannels; SettleSwap "correct"; SetSettled])
  /\ settleChannel testChannels (fun _ => Err alreadyPaid) testChannelCreation
     = (true, [LndListChannels; SettleSwap "correct"; SetSettled])
  /\ settleChannel testChannels (fun _ => Err someOtherError) testChannelCreation
     = (false, [LndListChannels; SettleSwap "correct"]).
Proof. repeat split. Qed.

Lemma settle_retry_schedule_witness :
  storedRetries "id123"
    (fst (settleChannelWrapper 4 (fun _ => false) 0 false "id123" 10 ∅))
  = [Some 1; Some 2; Some 4; None]
  /\ scheduledDelays (fst (settleChannelWrapper 4 (fun _ => false) 0 false "id123" 10 ∅))
     = [10; 20; 40]
  /\ snd (settleChannelWrapper 4 (fun _ => false) 0 false "id123" 10 ∅) !! "id123"
     = None.
Proof.
  destruct (settle_retry_schedule (fun _ => false) "id123" 10 ∅ 4
              (lookup_empty "id123") (le_n 4)) as [_ Hfail].
  destruct (Hfail (fun _ => eq_refl)) as (_ & Hstored & Hdelays & Hfinal).
  split; [exact Hstored |]. split; [exact Hdelays | exact Hfinal].
Defined.

(** The test "should retry settling channels periodically": the first
    attempt is made while the test holds the lock; each of the three
    retries takes the lock; the counter goes 1, 2, 4 and is gone after the
    fourth attempt.  When the first attempt settles there is one attempt
    and no counter. *)
Example test_should_retry_settling_channels :
  fst (settleChannelWrapper 10 (fun _ => false) 0 false "id123" 10 ∅)
  = [ SettleChannel "id123"; StoreSettleRetries "id123" (Some 1);
      ScheduleSettle "id123" 10;
      AcquireLock "channelSettle";
      SettleChannel "id123"; StoreSettleRetries "id123" (Some 2);
      ScheduleSettle "id123" 20;
      ReleaseLock "channelSettle";
      AcquireLock "channelSettle";
      SettleChannel "id123"; StoreSettleRetries "id123" (Some 4);
      ScheduleSettle "id123" 40;
      ReleaseLock "channelSettle";
      AcquireLock "channelSettle";
      SettleChannel "id123"; StoreSettleRetries "id123" None;
      ReleaseLock "channelSettle" ]
  /\ fst (settleChannelWrapper 10 (fun _ => true) 0 false "id123" 0 ∅)
     = [ SettleChannel "id123"; StoreSettleRetries "id123" None ].
Proof. split; reflexivity. Qed.


(** The retry after a reconnect: LND is not synced, then the peer is
    offline, then the peer is offline again.  One [connectByPublicKey], and
    the retry gives the channel creation up. *)
Example open_channel_reconnects_once :
  openChannelAndRetry 1000 testChannelPoint
    [walletNotSynced; peerIsNotOnline; peerIsNotOnline]
  = [ LndOpenChannel; Wait 1000;
      LndOpenChannel; ConnectByPublicKey;
      LndOpenChannel; SetAbandoned ].
Proof. reflexivity. Qed.

(** The test "should open channels", call by call: how often LND and the
    connection helper have been asked by the time [openChannel] resolves. *)
Example test_should_open_channels :
  fst (openChannel 1000 testChannelPoint true 0 [])
  = [ LndOpenChannel; SetAttempted;
      SetFundingTransaction
        "4a5e1e4baab89f3a32518a88c31bc87f618f76673e2cc77ab2127b7afdeda33b" 2;
      SetSwapStatusChannelCreated; EmitChannelCreated ]
  /\ count isLndOpenChannel (fst (openChannel 1000 testChannelPoint true 0 [walletNotSynced]))
     = 2%nat
  /\ count isLndOpenChannel (fst (openChannel 1000 testChannelPoint true 0 [remoteNotSynced]))
     = 2%nat
  /\ count isLndOpenChannel (fst (openChannel 1000 testChannelPoint true 0 [peerIsNotOnline]))
     = 1%nat
  /\ count isConnectByPublicKey
       (fst (openChannel 1000 testChannelPoint true 0 [peerIsNotOnline]))
     = 1%nat
  /\ count isLndOpenChannel (fst (openChannel 1000 testChannelPoint true 0 [someOtherError]))
     = 1%nat.
Proof. repeat split. Qed.

(** Scenario 4 of the specification: the wallet is not synced twice, then
    the channel opens; one [channel.created], one [setAttempted], one
    [setFundingTransaction]. *)
Example channel_creation_retry_scenario :
  let log :=
    fst (openChannel 1000 testChannelPoint true 0 [walletNotSynced; walletNotSynced]) in
  count isLndOpenChannel log = 3%nat
  /\ count isEmitChannelCreated log = 1%nat
  /\ count isSetAttempted log = 1%nat
  /\ count isSetFundingTransaction log = 1%nat
  /\ count isSetAbandoned log = 0%nat.
Proof. repeat split. Qed.

End NurseryExamples.

(** * Further properties *)

(** ** Token wallet *)

Section TokenWallet.
Import JS ERC20WalletProvider.

Lemma pow10_pos k : 0 < 10 ^ k \/ k < 0.
Proof. destruct (Z_lt_le_dec k 0); [now right | left; now apply Z.pow_pos_nonneg]. Qed.

(** X1: formatting a non-negative integer amount for a token with fewer
    than 8 decimals rounds down to whole token units: the result stands
    for no more than the amount and for less than one unit short of it.
    With 8 or more decimals nothing is lost. *)
Theorem formatTokenAmount_rounds_down (token : Token) (a : Z) :
  0 <= a ->
  exists units,
    formatTokenAmount token (Int a) = OK units
    /\ (decimals token < 8 ->
        units * 10 ^ (8 - decimals token) <= a < (units + 1) * 10 ^ (8 - decimals token))
    /\ (8 <= decimals token -> units = a * 10 ^ (decimals token - 8)).
Proof.
  intros Ha. unfold formatTokenAmount. simpl.
  destruct (Z.eqb_spec (decimals token) 8) as [E | E].
  - exists a. split; [reflexivity |]. split; [lia |]. intros _. rewrite E. simpl. lia.
  - destruct (Z.ltb_spec 8 (decimals token)) as [L | L].
    + eexists. split; [reflexivity |]. split; [lia |]. intros _.
      now rewrite Z.abs_eq by lia.
    + eexists. split; [reflexivity |]. split; [| lia]. intros _.
      replace (Z.abs (decimals token - 8)) with (8 - decimals token) by lia.
      assert (Hpow : 0 < 10 ^ (8 - decimals token)) by (apply Z.pow_pos_nonneg; lia).
      rewrite Z.quot_div_nonneg by lia.
      pose proof (Z.mul_div_le a _ Hpow).
      pose proof (Z.mul_succ_div_gt a _ Hpow). lia.
Qed.

Lemma formatTokenAmount_rounds_down_witness :
  formatTokenAmount usdt (Int 199) = OK 1 /\ 1 * 10 ^ (8 - 6) <= 199 < (1 + 1) * 10 ^ (8 - 6).
Proof.
  destruct (formatTokenAmount_rounds_down usdt 199 ltac:(lia)) as (units & Hunits & Hlow & _).
  assert (units = 1) as -> by (cbv in Hunits; congruence).
  split; [exact Hunits | apply Hlow; reflexivity].
Defined.

(** What a balance normalizes to and formats back to. *)
Lemma format_normalized_balance (token : Token) (b : Z) :
  0 <= b ->
  is_double (normalized token b) ->
  normalizeTokenAmount token b = Int (normalized token b)
  /\ exists sent,
      formatTokenAmount token (Int (normalized token b)) = OK sent
      /\ sent <= b
      /\ b - sent < 10 ^ Z.max 0 (decimals token - 8).
Proof.
  intros Hb. unfold normalized, normalizeTokenAmount, formatTokenAmount. simpl.
  destruct (Z.eqb_spec (decimals token) 8) as [E | E].
  - rewrite E. simpl. rewrite Z.mul_1_r. intros ->. split; [reflexivity |].
    exists b. split; [reflexivity | lia].
  - destruct (Z.ltb_spec 8 (decimals token)) as [L | L].
    + rewrite Z.abs_eq by lia.
      assert (Hpow : 0 < 10 ^ (decimals token - 8)) by (apply Z.pow_pos_nonneg; lia).
      rewrite Z.quot_div_nonneg by lia. intros ->. split; [reflexivity |].
      eexists. split; [reflexivity |].
      rewrite Z.max_r by lia.
      pose proof (Z.mul_div_le b _ Hpow).
      pose proof (Z.mul_succ_div_gt b _ Hpow). lia.
    + replace (Z.abs (decimals token - 8)) with (8 - decimals token) by lia.
      assert (Hpow : 0 < 10 ^ (8 - decimals token)) by (apply Z.pow_pos_nonneg; lia).
      intros ->. split; [reflexivity |].
      exists b. split; [| split; [lia |]].
      * now rewrite Z.quot_mul by lia.
      * rewrite Z.max_l by lia. simpl. lia.
Qed.

Variable GasPrices : Type.
Variable this : Provider GasPrices.

(** An integer is formatted for every token. *)
Lemma formatTokenAmount_integer (token : Token) (z : Z) :
  exists units, formatTokenAmount token (Int z) = OK units.
Proof.
  unfold formatTokenAmount. simpl.
  destruct (decimals token =? 8); [eauto |].
  destruct (8 <? decimals token); eauto.
Qed.

(** X2: when the amount a balance stands for is an integer that a number
    holds, [getBalance] reports it, and sending the reported balance asks
    the contract for one transfer of no more than the balance, and of less
    than one 10^-8 unit below it; the transfer is asked for as soon as the
    gas prices are known. *)
Theorem reported_balance_can_be_sent (owner : string) (balance : Z) :
  signer_getAddress (signer this) = OK owner ->
  balanceOf (contract this) owner = OK balance ->
  0 <= balance ->
  is_double (normalized (token this) balance) ->
  exists sent,
    snd (Effects.run (getBalance this))
    = OK {| confirmedBalance := Int (normalized (token this) balance);
            unconfirmedBalance := Int 0 |}
    /\ sent <= balance
    /\ balance - sent < 10 ^ Z.max 0 (decimals (token this) - 8)
    /\ forall address fee label,
         transferred
           (fst (Effects.run
                   (sendToAddress this address
                      (Int (normalized (token this) balance)) fee label)))
         = match getGasPrices (signer this) with
           | OK _ => [sent]
           | Err _ => []
           end.
Proof.
  intros Howner Hbalance Hpos Hdouble.
  destruct (format_normalized_balance (token this) balance Hpos Hdouble)
    as (Hnormalize & sent & Hformat & Hle & Hlt).
  exists sent. split; [| split; [exact Hle | split; [exact Hlt |]]].
  - unfold Effects.run, getBalance, getAddress, ask, Effects.await, Effects.call.
    rewrite Howner. simpl. rewrite Hbalance. simpl. now rewrite Hnormalize.
  - intros address fee label.
    unfold Effects.run, sendToAddress, ask, Effects.await, Effects.call.
    rewrite Hformat.
    destruct (getGasPrices (signer this)) as [gas | e]; simpl; [| reflexivity].
    destruct (transfer (contract this) address sent gas) as [hash | e]; simpl;
      [| reflexivity].
    destruct (addLabel _ _ _ _); reflexivity.
Qed.

(** X3: [sendToAddress] fails with the RangeError of [BigInt] exactly when
    the amount is not an integer, and it is then that nothing is asked of
    the signer, the contract or the label repository; with an integer
    amount the gas prices are asked first, and a failure is a rejection by
    one of the three. *)
Theorem sendToAddress_rejects_fractions
  (amount : number) (address label : string) (fee : option number) :
  let log := fst (Effects.run (sendToAddress this address amount fee label)) in
  let outcome := snd (Effects.run (sendToAddress this address amount fee label)) in
  ((exists v, amount = NotInt v) <-> log = [])
  /\ ((exists v, amount = NotInt v) <-> outcome = Err (Thrown CannotConvertToBigInt))
  /\ (forall z, amount = Int z -> hd_error log = Some GetGasPrices)
  /\ (forall z e, amount = Int z -> outcome = Err e -> exists reason, e = Rejected reason).
Proof.
  cbv zeta. destruct amount as [z | v].
  - assert (Hrun :
      Effects.run (sendToAddress this address (Int z) fee label)
      = match formatTokenAmount (token this) (Int z) with
        | OK units =>
            match getGasPrices (signer this) with
            | OK gas =>
                match transfer (contract this) address units gas with
                | OK hash =>
                    ([GetGasPrices; ContractTransfer address units gas;
                      AddLabel hash (symbol (token this)) label],
                     match addLabel (labelRepository this) hash
                             (symbol (token this)) label with
                     | OK _ => OK {| transactionId := hash |}
                     | Err reason => Err (Rejected reason)
                     end)
                | Err reason =>
                    ([GetGasPrices; ContractTransfer address units gas],
                     Err (Rejected reason))
                end
            | Err reason => ([GetGasPrices], Err (Rejected reason))
            end
        | Err e => ([], Err (Thrown e))
        end).
    { unfold Effects.run, sendToAddress, ask, Effects.await, Effects.call,
        Effects.mapErr, Effects.resolve.
      destruct (formatTokenAmount (token this) (Int z)) as [units | e]; [| reflexivity].
      destruct (getGasPrices (signer this)) as [gas | reason]; [| reflexivity].
      simpl. destruct (transfer (contract this) address units gas) as [hash | reason];
        [| reflexivity].
      simpl. destruct (addLabel _ _ _ _); reflexivity. }
    rewrite Hrun.
    destruct (formatTokenAmount_integer (token this) z) as [units ->].
    destruct (getGasPrices (signer this)) as [gas | reason];
      [destruct (transfer (contract this) address units gas) as [hash | reason];
       [destruct (addLabel (labelRepository this) hash (symbol (token this)) label)
          as [[] | reason] |] |];
      simpl;
      (split; [split; [intros [v Hv]; discriminate Hv | discriminate] |]);
      (split; [split; [intros [v Hv]; discriminate Hv | discriminate] |]);
      (split; [reflexivity |]);
      intros z' e _ He; try discriminate He; injection He as <-; eauto.
  - simpl. split; [split; [reflexivity | eauto] |].
    split; [split; [reflexivity | eauto] |].
    split; [discriminate |]. discriminate.
Qed.

(** X4: [sendToAddress] and [sweepWallet] ask for at most one transfer;
    [sweepWallet] transfers the balance the contract reports, as it is; a
    label is written only for a transfer that went through, under the hash
    it returned, with the symbol of the token and the label given. *)
Theorem label_follows_the_transfer
  (address label : string) (amount : number) (fee : option number) :
  let sent := fst (Effects.run (sendToAddress this address amount fee label)) in
  let swept := fst (Effects.run (sweepWallet this address fee label)) in
  ((List.length (transferred sent) <= 1)%nat
   /\ forall hash symbol' label',
        In (AddLabel hash symbol' label') sent ->
        symbol' = symbol (token this) /\ label' = label
        /\ exists units gas,
             formatTokenAmount (token this) amount = OK units
             /\ transfer (contract this) address units gas = OK hash
             /\ In (ContractTransfer address units gas) sent)
  /\ ((List.length (transferred swept) <= 1)%nat
      /\ (forall units, In units (transferred swept) ->
            exists owner, signer_getAddress (signer this) = OK owner
                          /\ balanceOf (contract this) owner = OK units)
      /\ forall hash symbol' label',
           In (AddLabel hash symbol' label') swept ->
           symbol' = symbol (token this) /\ label' = label
           /\ exists units gas,
                transfer (contract this) address units gas = OK hash
                /\ In (ContractTransfer address units gas) swept).
Proof.
  cbv zeta. split.
  - unfold Effects.run, sendToAddress, ask, Effects.await, Effects.call.
    destruct (formatTokenAmount (token this) amount) as [units | e];
      [| split; [simpl; lia | intros ? ? ? []]].
    destruct (getGasPrices (signer this)) as [gas | e]; simpl;
      [| split; [lia | intros ? ? ? [H | []]; discriminate H]].
    destruct (transfer (contract this) address units gas) as [hash | e] eqn:Htransfer;
      simpl.
    + destruct (addLabel _ _ _ _); simpl.
      * split; [lia |]. intros hash' symbol' label' Hin.
        destruct Hin as [H | [H | [H | []]]]; try discriminate H.
        injection H as <- <- <-. repeat split. exists units, gas. simpl. auto.
      * split; [lia |]. intros hash' symbol' label' Hin.
        destruct Hin as [H | [H | [H | []]]]; try discriminate H.
        injection H as <- <- <-. repeat split. exists units, gas. simpl. auto.
    + split; [lia |]. intros ? ? ? [H | [H | []]]; discriminate H.
  - unfold Effects.run, sweepWallet, getAddress, ask, Effects.await, Effects.call.
    destruct (signer_getAddress (signer this)) as [owner | e] eqn:Howner; simpl;
      [| split; [lia | split; [intros ? [] | intros ? ? ? [H | []]; discriminate H]]].
    destruct (balanceOf (contract this) owner) as [balance | e] eqn:Hbalance; simpl;
      [| split; [lia | split; [intros ? [] |
                               intros ? ? ? [H | [H | []]]; discriminate H]]].
    destruct (getGasPrices (signer this)) as [gas | e]; simpl;
      [| split; [lia | split; [intros ? [] |
                               intros ? ? ? [H | [H | [H | []]]]; discriminate H]]].
    destruct (transfer (contract this) address balance gas) as [hash | e] eqn:Htransfer;
      simpl.
    + destruct (addLabel _ _ _ _); simpl.
      * split; [lia |]. split.
        -- intros units [<- | []]. now exists owner.
        -- intros hash' symbol' label' Hin.
           destruct Hin as [H | [H | [H | [H | [H | []]]]]]; try discriminate H.
           injection H as <- <- <-. repeat split. exists balance, gas. simpl. auto 10.
      * split; [lia |]. split.
        -- intros units [<- | []]. now exists owner.
        -- intros hash' symbol' label' Hin.
           destruct Hin as [H | [H | [H | [H | [H | []]]]]]; try discriminate H.
           injection H as <- <- <-. repeat split. exists balance, gas. simpl. auto 10.
    + split; [lia |]. split.
      * intros units [<- | []]. now exists owner.
      * intros ? ? ? [H | [H | [H | [H | []]]]]; discriminate H.
Qed.

(** The calls of a log that change something: transfers, approvals and
    labels. *)
Local Abbreviation changes log :=
  (List.filter
     (fun c =>
        match c with
        | ContractTransfer _ _ _ | ContractApprove _ _ _ _ | AddLabel _ _ _ => true
        | _ => false
        end)
     log).

(** X23: [getAddress], [getBalance] and [getAllowance] only read: they ask
    for no transfer, no approval and no label.  [approve] never asks for a
    transfer; it asks for at most one approval, of the amount to the
    spender under the nonce it was given, and writes the label of ERC20
    approvals only for an approval that went through, under its hash. *)
Theorem approve_does_not_transfer
  (spender : string) (amount : Z) (nonce : option number) :
  let approved := fst (Effects.run (approve this spender amount nonce)) in
  changes (fst (Effects.run (getAddress this))) = []
  /\ changes (fst (Effects.run (getBalance this))) = []
  /\ changes (fst (Effects.run (getAllowance this spender))) = []
  /\ transferred approved = []
  /\ (forall spender' amount' nonce' gas,
        In (ContractApprove spender' amount' nonce' gas) approved ->
        spender' = spender /\ amount' = amount /\ nonce' = nonce
        /\ getGasPrices (signer this) = OK gas)
  /\ (List.length (changes approved) <= 2)%nat
  /\ forall hash symbol' label',
       In (AddLabel hash symbol' label') approved ->
       symbol' = symbol (token this)
       /\ label' = erc20Approval (labelRepository this)
       /\ exists gas,
            contract_approve (contract this) spender amount nonce gas = OK hash
            /\ In (ContractApprove spender amount nonce gas) approved.
Proof.
  cbv zeta.
  split; [reflexivity |].
  split.
  { unfold Effects.run, getBalance, getAddress, ask, Effects.await, Effects.call.
    destruct (signer_getAddress (signer this)) as [owner | e]; simpl; [| reflexivity].
    destruct (balanceOf (contract this) owner); reflexivity. }
  split.
  { unfold Effects.run, getAllowance, ask, Effects.await, Effects.call.
    destruct (signer_getAddress (signer this)) as [owner | e]; simpl; reflexivity. }
  assert (Hrun :
    Effects.run (approve this spender amount nonce)
    = match getGasPrices (signer this) with
      | OK gas =>
          match contract_approve (contract this) spender amount nonce gas with
          | OK hash =>
              ([GetGasPrices; ContractApprove spender amount nonce gas;
                AddLabel hash (symbol (token this))
                  (erc20Approval (labelRepository this))],
               match addLabel (labelRepository this) hash (symbol (token this))
                       (erc20Approval (labelRepository this)) with
               | OK _ => OK {| transactionId := hash |}
               | Err reason => Err (Rejected reason)
               end)
          | Err reason =>
              ([GetGasPrices; ContractApprove spender amount nonce gas],
               Err (Rejected reason))
          end
      | Err reason => ([GetGasPrices], Err (Rejected reason))
      end).
  { unfold Effects.run, approve, ask, Effects.await, Effects.call,
      Effects.mapErr, Effects.resolve.
    destruct (getGasPrices (signer this)) as [gas | reason]; [| reflexivity].
    simpl. destruct (contract_approve (contract this) spender amount nonce gas)
      as [hash | reason]; [| reflexivity].
    simpl. destruct (addLabel _ _ _ _); reflexivity. }
  rewrite Hrun.
  destruct (getGasPrices (signer this)) as [gas | reason] eqn:Hgas.
  - destruct (contract_approve (contract this) spender amount nonce gas)
      as [hash | reason] eqn:Happrove; simpl.
    + split; [reflexivity |]. split.
      { intros ? ? ? ? [H | [H | [H | []]]]; try discriminate H.
        injection H as <- <- <- <-. auto. }
      split; [lia |].
      intros ? ? ? [H | [H | [H | []]]]; try discriminate H.
      injection H as <- <- <-. split; [reflexivity |]. split; [reflexivity |].
      exists gas. auto.
    + split; [reflexivity |]. split.
      { intros ? ? ? ? [H | [H | []]]; try discriminate H.
        injection H as <- <- <- <-. auto. }
      split; [lia |].
      intros ? ? ? [H | [H | []]]; discriminate H.
  - simpl. split; [reflexivity |].
    split; [intros ? ? ? ? [H | []]; discriminate H |].
    split; [lia |]. intros ? ? ? [H | []]; discriminate H.
Qed.

End TokenWallet.

Lemma reported_balance_can_be_sent_witness :
  exists sent,
    snd (Effects.run
           (ERC20WalletProvider.getBalance
              (ERC20WalletProvider.exampleProvider ERC20WalletProvider.dai
                 1234567890123456789)))
    = OK {| ERC20WalletProvider.confirmedBalance := JS.Int 123456789;
            ERC20WalletProvider.unconfirmedBalance := JS.Int 0 |}
    /\ sent <= 1234567890123456789
    /\ 1234567890123456789 - sent < 10 ^ 10.
Proof.
  destruct (reported_balance_can_be_sent string
              (ERC20WalletProvider.exampleProvider ERC20WalletProvider.dai
                 1234567890123456789)
              "0xf39Fd6e51aad88F6F4ce6aB8827279cffFb92266" 1234567890123456789
              eq_refl eq_refl ltac:(lia) eq_refl)
    as (sent & Hbalance & Hle & Hlt & _).
  exists sent. split; [exact Hbalance | split; [exact Hle | exact Hlt]].
Defined.

(** ** Sends through LND *)

Section LndSends.
Import JS LndWalletProvider.

Variable BitcoinTransaction : Type.
Variable fromHex : string -> result exn BitcoinTransaction.
Variable this : Provider.

Lemma getFeePerVbyte_cases satPerVbyte log :
  (exists n, getFeePerVbyte this satPerVbyte log = (log, OK n))
  \/ getFeePerVbyte this satPerVbyte log
     = (log ++ [ChainEstimateFee], estimateFee (chainClient this)).
Proof.
  unfold getFeePerVbyte, or_else, resolve, call.
  destruct satPerVbyte as [n |]; [destruct (truthy n) |]; eauto.
Qed.

Ltac follow_calls satPerVbyte :=
  unfold run, sendToAddress, sweepWallet; unfold await at 1; unfold call at 1;
  destruct (getInfo (lndClient this)) as [info | e] eqn:Hinfo; simpl app;
  [ unfold await at 1;
    destruct (getFeePerVbyte_cases satPerVbyte [LndGetInfo]) as [[n ->] | ->];
    [| destruct (estimateFee (chainClient this)) as [n | e]]; simpl app;
    repeat (first [ progress unfold handleLndTransaction, await, call
                  | match goal with
                    | |- context [match ?x with OK _ => _ | Err _ => _ end] =>
                        destruct x eqn:?
                    end ];
            cbn beta iota);
    simpl
  | ].

Ltac in_log :=
  simpl in *;
  repeat match goal with
         | H : _ \/ _ |- _ => destruct H as [H | H]; [try discriminate H |]
         | H : False |- _ => destruct H
         end.

(** X5: when LND does not answer [getInfo], or when no fee rate is given
    and the chain client has no estimate, [sendToAddress] and [sweepWallet]
    reject with that error and LND is never asked to send anything. *)
Theorem nothing_is_sent_without_height_and_fee
  (address label : string) (amount : number) (satPerVbyte : option number) (e : exn) :
  let send := run (sendToAddress BitcoinTransaction fromHex this
                     address amount satPerVbyte label) in
  let sweep := run (sweepWallet BitcoinTransaction fromHex this
                      address satPerVbyte label) in
  (getInfo (lndClient this) = Err e ->
   send = ([LndGetInfo], Err e) /\ sweep = ([LndGetInfo], Err e))
  /\ (forall info,
        getInfo (lndClient this) = OK info ->
        match satPerVbyte with Some n => truthy n = false | None => True end ->
        estimateFee (chainClient this) = Err e ->
        send = ([LndGetInfo; ChainEstimateFee], Err e)
        /\ sweep = ([LndGetInfo; ChainEstimateFee], Err e)).
Proof.
  cbv zeta. split.
  - intros Hinfo. unfold run, sendToAddress, sweepWallet, await, call.
    rewrite Hinfo. split; reflexivity.
  - intros info Hinfo Hfalsy Hestimate.
    split; unfold run, sendToAddress, sweepWallet;
      unfold await at 1; unfold call at 1; rewrite Hinfo; simpl app;
      unfold await at 1; rewrite getFeePerVbyte_estimated by exact Hfalsy;
      rewrite Hestimate; reflexivity.
Qed.

(** X6: whatever the collaborators answer, [sendToAddress] asks LND for
    its info first and for at most one send, of the amount to the address
    under the label it was given, and never for a sweep; the transaction it
    looks up is the one LND answered the send with; the list of LND
    transactions is asked from the block height read before the send; the
    transaction id it resolves to is the one of the send. *)
Theorem sendToAddress_calls
  (address label : string) (amount : number) (satPerVbyte : option number) :
  let outcome := run (sendToAddress BitcoinTransaction fromHex this
                        address amount satPerVbyte label) in
  hd_error (fst outcome) = Some LndGetInfo
  /\ (List.length (feeRatesPassedToLnd (fst outcome)) <= 1)%nat
  /\ (forall a f l, ~ In (LndSweepWallet a f l) (fst outcome))
  /\ (forall a m f l, In (LndSendCoins a m f l) (fst outcome) ->
        a = address /\ m = amount /\ l = label)
  /\ (forall txid, In (ChainGetRawTransactionVerbose txid) (fst outcome) ->
        exists f, In (LndSendCoins address amount f label) (fst outcome)
                  /\ sendCoins (lndClient this) address amount f label = OK txid)
  /\ (forall height, In (LndGetOnchainTransactions height) (fst outcome) ->
        exists info, getInfo (lndClient this) = OK info /\ height = blockHeight info)
  /\ (forall sent, snd outcome = OK sent ->
        In (ChainGetRawTransactionVerbose (sent_transactionId _ sent)) (fst outcome)).
Proof.
  intros outcome.
  assert (Houtcome : run (sendToAddress BitcoinTransaction fromHex this
                            address amount satPerVbyte label) = outcome) by reflexivity.
  clearbody outcome. revert outcome Houtcome.
  follow_calls satPerVbyte; intros outcome <-;
    (split; [reflexivity |]);
    (split; [cbn; lia |]);
    (split; [intros ? ? ? Hin; in_log |]);
    (split; [intros ? ? ? ? Hin; in_log; injection Hin as <- <- <- <-; auto |]);
    (split; [intros ? Hin; in_log; injection Hin as <-; eexists;
             (split; [simpl; eauto 6 | eassumption]) |]);
    (split; [intros ? Hin; in_log; injection Hin as <-; eexists; split; reflexivity |]);
    intros sent Hsent; try discriminate Hsent;
    injection Hsent as <-; simpl; auto 6.
Qed.

(** X7: the same for [sweepWallet], which asks LND for at most one sweep
    to the address under the label, and never for a send of an amount. *)
Theorem sweepWallet_calls
  (address label : string) (satPerVbyte : option number) :
  let outcome := run (sweepWallet BitcoinTransaction fromHex this
                        address satPerVbyte label) in
  hd_error (fst outcome) = Some LndGetInfo
  /\ (List.length (feeRatesPassedToLnd (fst outcome)) <= 1)%nat
  /\ (forall a m f l, ~ In (LndSendCoins a m f l) (fst outcome))
  /\ (forall a f l, In (LndSweepWallet a f l) (fst outcome) ->
        a = address /\ l = label)
  /\ (forall txid, In (ChainGetRawTransactionVerbose txid) (fst outcome) ->
        exists f, In (LndSweepWallet address f label) (fst outcome)
                  /\ lnd_sweepWallet (lndClient this) address f label = OK txid)
  /\ (forall height, In (LndGetOnchainTransactions height) (fst outcome) ->
        exists info, getInfo (lndClient this) = OK info /\ height = blockHeight info)
  /\ (forall sent, snd outcome = OK sent ->
        In (ChainGetRawTransactionVerbose (sent_transactionId _ sent)) (fst outcome)).
Proof.
  intros outcome.
  assert (Houtcome : run (sweepWallet BitcoinTransaction fromHex this
                            address satPerVbyte label) = outcome) by reflexivity.
  clearbody outcome. revert outcome Houtcome.
  follow_calls satPerVbyte; intros outcome <-;
    (split; [reflexivity |]);
    (split; [cbn; lia |]);
    (split; [intros ? ? ? ? Hin; in_log |]);
    (split; [intros ? ? ? Hin; in_log; injection Hin as <- <- <-; auto |]);
    (split; [intros ? Hin; in_log; injection Hin as <-; eexists;
             (split; [simpl; eauto 6 | eassumption]) |]);
    (split; [intros ? Hin; in_log; injection Hin as <-; eexists; split; reflexivity |]);
    intros sent Hsent; try discriminate Hsent;
    injection Hsent as <-; simpl; auto 6.
Qed.

Lemma find_in_app {A} (f : A -> bool) (l1 l2 : list A) :
  List.find f (l1 ++ l2)
  = match List.find f l1 with
    | Some x => Some x
    | None => List.find f l2
    end.
Proof.
  induction l1 as [| x l1 IH]; [reflexivity |].
  simpl. destruct (f x); [reflexivity | exact IH].
Qed.

(** The loop over the outputs keeps the last one that pays the address. *)
Lemma vout_is_last_payment address outputs vout :
  fold_left
    (fun vout output => if outputPaysTo address output then out_n output else vout)
    outputs vout
  = match List.find (outputPaysTo address) (rev outputs) with
    | Some output => out_n output
    | None => vout
    end.
Proof.
  revert vout. induction outputs as [| output outputs IH]; intros vout; [reflexivity |].
  simpl. rewrite IH.
  rewrite find_in_app.
  destruct (List.find (outputPaysTo address) (rev outputs)); [reflexivity |].
  simpl. destruct (outputPaysTo address output); reflexivity.
Qed.

(** The loop over the transactions of LND stops at the first with the id. *)
Lemma fee_is_first_listed transactionId transactions :
  feeOf transactionId transactions
  = match List.find (fun t => String.eqb (txHash t) transactionId) transactions with
    | Some t => totalFees t
    | None => Int 0
    end.
Proof.
  induction transactions as [| t transactions IH]; [reflexivity |].
  simpl. destruct (String.eqb (txHash t) transactionId); [reflexivity | exact IH].
Qed.

(** X8: what [handleLndTransaction] resolves to: the transaction parsed
    from the hex of the raw transaction, under the id it was asked for; as
    output index the [n] of the last output of the raw transaction that
    pays the address, 0 when none does; as fee the total fees of the first
    transaction LND lists under the id, 0 when it lists none. *)
Theorem handleLndTransaction_result
  (transactionId address : string) (height : number)
  (log : list Call) (sent : SentTransaction BitcoinTransaction) :
  run (handleLndTransaction BitcoinTransaction fromHex this transactionId address height)
  = (log, OK sent) ->
  exists raw transactions,
    getRawTransactionVerbose (chainClient this) transactionId = OK raw
    /\ getOnchainTransactions (lndClient this) height = OK transactions
    /\ fromHex (raw_hex raw) = OK (sent_transaction _ sent)
    /\ sent_transactionId _ sent = transactionId
    /\ sent_vout _ sent
       = match List.find (outputPaysTo address) (rev (raw_vout raw)) with
         | Some output => out_n output
         | None => Int 0
         end
    /\ sent_fee _ sent
       = match List.find (fun t => String.eqb (txHash t) transactionId) transactions with
         | Some t => totalFees t
         | None => Int 0
         end.
Proof.
  unfold run, handleLndTransaction, await, call. simpl.
  destruct (getRawTransactionVerbose _ _) as [raw | e]; [| discriminate].
  destruct (getOnchainTransactions _ _) as [transactions | e]; [| discriminate].
  destruct (fromHex (raw_hex raw)) as [transaction | e] eqn:Hhex; [| discriminate].
  intros [= _ <-]. exists raw, transactions. simpl.
  rewrite vout_is_last_payment, fee_is_first_listed. auto 7.
Qed.

End LndSends.

Lemma nothing_is_sent_without_height_and_fee_witness :
  LndWalletProvider.run
    (LndWalletProvider.sendToAddress string OK
       (LndWalletProvider.mkProvider
          LndWalletProvider.offlineLnd LndWalletProvider.exampleChain)
       "bcrt1qdest" (JS.Int 100000) None "payout")
  = ([LndWalletProvider.LndGetInfo], Err "14 UNAVAILABLE: No connection established"%string)
  /\ LndWalletProvider.run
       (LndWalletProvider.sweepWallet string OK
          (LndWalletProvider.mkProvider
             LndWalletProvider.exampleLnd LndWalletProvider.noEstimateChain)
          "bcrt1qdest" (Some (JS.Int 0)) "payout")
     = ([LndWalletProvider.LndGetInfo; LndWalletProvider.ChainEstimateFee],
        Err "Insufficient data or no feerate found"%string).
Proof.
  split.
  - exact (proj1 (proj1 (nothing_is_sent_without_height_and_fee string OK
                           (LndWalletProvider.mkProvider
                              LndWalletProvider.offlineLnd LndWalletProvider.exampleChain)
                           "bcrt1qdest" "payout" (JS.Int 100000) None _) eq_refl)).
  - exact (proj2 (proj2 (nothing_is_sent_without_height_and_fee string OK
                           (LndWalletProvider.mkProvider
                              LndWalletProvider.exampleLnd LndWalletProvider.noEstimateChain)
                           "bcrt1qdest" "payout" (JS.Int 100000) (Some (JS.Int 0)) _)
                    _ eq_refl eq_refl eq_refl)).
Defined.

Lemma handleLndTransaction_result_witness :
  exists raw transactions,
    LndWalletProvider.getRawTransactionVerbose LndWalletProvider.twoPaymentsChain "4a5e1e4b"
    = OK raw
    /\ LndWalletProvider.getOnchainTransactions LndWalletProvider.listsTwiceLnd
         (JS.Int 800000) = OK transactions
    /\ @OK LndWalletProvider.exn string (LndWalletProvider.raw_hex raw) = OK "0200"%string
    /\ "4a5e1e4b"%string = "4a5e1e4b"%string
    /\ JS.Int 2
       = match List.find (LndWalletProvider.outputPaysTo "bcrt1qdest")
                 (rev (LndWalletProvider.raw_vout raw)) with
         | Some output => LndWalletProvider.out_n output
         | None => JS.Int 0
         end
    /\ JS.Int 141
       = match List.find
                 (fun t => String.eqb (LndWalletProvider.txHash t) "4a5e1e4b")
                 transactions with
         | Some t => LndWalletProvider.totalFees t
         | None => JS.Int 0
         end.
Proof.
  exact (handleLndTransaction_result string OK
           (LndWalletProvider.mkProvider
              LndWalletProvider.listsTwiceLnd LndWalletProvider.twoPaymentsChain)
           "4a5e1e4b" "bcrt1qdest" (JS.Int 800000)
           [ LndWalletProvider.ChainGetRawTransactionVerbose "4a5e1e4b";
             LndWalletProvider.LndGetOnchainTransactions (JS.Int 800000) ]
           (LndWalletProvider.mkSentTransaction string
              (JS.Int 141) (JS.Int 2) "4a5e1e4b" "0200")
           eq_refl).
Defined.

(** ** Hints of a reverse swap: failures and what is not looked at *)

Section HintsFurther.
Import JS ReverseRoutingHints.

Variable sha256 : Buffer -> Buffer.
Variable verifySchnorr : Buffer -> Buffer -> Buffer -> result string bool.
Variable getHexString : Buffer -> string.
Variable getSwapMemo : string -> SwapType -> string.
Variable minus : number -> number -> number.

Local Abbreviation verify := (verifyAddressSignature sha256 verifySchnorr).
Local Abbreviation hintsOf := (getHints sha256 verifySchnorr getHexString getSwapMemo minus).

Lemma acceptableDescriptionHash_dec h :
  acceptableDescriptionHash h \/ ~ acceptableDescriptionHash h.
Proof.
  destruct h as [h |]; simpl; [| now left].
  destruct (Nat.eq_dec (List.length h) 32%nat); [now left | now right].
Qed.

Lemma checkDescriptionHash_unacceptable h :
  ~ acceptableDescriptionHash h ->
  checkDescriptionHash h = Err (Swap INVALID_DESCRIPTION_HASH).
Proof.
  destruct h as [h |]; simpl; [| intros H; now destruct H].
  intros Hlen. destruct (Nat.eqb_spec (List.length h) 32); [contradiction | reflexivity].
Qed.

(** X9: hints carry a routing hint only for a request without a BOLT12
    invoice that names a claim public key and gives an address the wallet
    of the sending currency decodes, with a signature of that address that
    is valid under the claim key; the hint is then the one hop under the
    hex of that key, and the hints carry BIP21 parameters as well. *)
Theorem routing_hint_only_for_signed_address
  (this : ReverseRoutingHints) (currency : Currency) (args : Args)
  (hints : SwapHints) (hint : list (list HopHint)) :
  getHints sha256 verifySchnorr getHexString getSwapMemo minus this currency args
  = OK hints ->
  routingHint hints = Some hint ->
  invoice args = None
  /\ acceptableDescriptionHash (descriptionHash args)
  /\ bip21Params hints <> None
  /\ exists claimKey address signature,
       claimPublicKey args = Some claimKey
       /\ userAddress args = Some address
       /\ userAddressSignature args = Some signature
       /\ decodable this currency address
       /\ verifyAddressSignature sha256 verifySchnorr claimKey address signature = OK true
       /\ hint = [[ {| nodeId := getHexString claimKey;
                       chanId := transactionToLndScid 542409 1308 0;
                       feeBaseMsat := 0;
                       cltvExpiryDelta := 81;
                       feeProportionalMillionths := 21 |} ]].
Proof.
  intros Hhints Hhint.
  apply getHints_inv in Hhints. destruct Hhints as (checkedHash & Hhash & Hrest).
  destruct (userAddress args) as [address |]; [| subst hints; discriminate Hhint].
  destruct (userAddressSignature args) as [signature |];
    [| subst hints; discriminate Hhint].
  destruct Hrest as (Hdecodable & found & -> & Hfound).
  simpl in Hhint. subst found.
  destruct (invoice args) as [i |]; [destruct Hfound as [Hnone _]; discriminate Hnone |].
  apply checkDescriptionHash_inv in Hhash. destruct Hhash as [_ Hacceptable].
  apply encodeRoutingHint_ok in Hfound.
  destruct (claimPublicKey args) as [claimKey |]; [| discriminate Hfound].
  destruct Hfound as [Hvalid [= ->]].
  split; [reflexivity |]. split; [exact Hacceptable |]. split; [discriminate |].
  exists claimKey, address, signature. auto 7.
Qed.

(** X10: how a request without a BOLT12 invoice fails.  With a description
    hash that is neither absent nor 32 bytes long it fails with
    INVALID_DESCRIPTION_HASH, whatever else it carries; otherwise, when it
    gives an address and a signature, with INVALID_ADDRESS if the wallet of
    the sending currency does not decode the address, and if it does and
    the request names a claim public key, with INVALID_ADDRESS_SIGNATURE
    when the signature check finds the signature not valid under that key,
    and with the TypeError of the signature check when the check throws at
    that key and signature.  The miner fees of the sending currency being
    there, as the source asserts, it fails in no other way; without an
    address or without a signature only the description hash can make it
    fail. *)
Theorem bolt11_failures
  (this : ReverseRoutingHints) (currency : Currency) (args : Args) (e : Thrown) :
  invoice args = None ->
  (getHints sha256 verifySchnorr getHexString getSwapMemo minus this currency args = Err e
   <-> (e = Swap INVALID_DESCRIPTION_HASH
        /\ ~ acceptableDescriptionHash (descriptionHash args))
       \/ (acceptableDescriptionHash (descriptionHash args)
           /\ exists address signature,
                userAddress args = Some address
                /\ userAddressSignature args = Some signature
                /\ ((e = Swap INVALID_ADDRESS /\ ~ decodable this currency address)
                    \/ (e = Swap INVALID_ADDRESS_SIGNATURE
                        /\ decodable this currency address
                        /\ exists claimKey,
                             claimPublicKey args = Some claimKey
                             /\ verifyAddressSignature sha256 verifySchnorr
                                  claimKey address signature = OK false)
                    \/ (exists message,
                          e = TypeError message
                          /\ decodable this currency address
                          /\ exists claimKey,
                               claimPublicKey args = Some claimKey
                               /\ verifyAddressSignature sha256 verifySchnorr
                                    claimKey address signature = Err message)))).
Proof.
  intros Hinvoice. rewrite getHints_steps, Hinvoice. unfold Result.bind.
  destruct (acceptableDescriptionHash_dec (descriptionHash args)) as [Hhash | Hhash].
  - rewrite (checkDescriptionHash_accepts _ Hhash).
    destruct (userAddress args) as [address |].
    2: { split; [discriminate |].
         intros [[_ Hno] | (_ & a & s & Ha & _)]; [contradiction | discriminate Ha]. }
    destruct (userAddressSignature args) as [signature |].
    2: { split; [discriminate |].
         intros [[_ Hno] | (_ & a & s & _ & Hs & _)]; [contradiction | discriminate Hs]. }
    destruct (tryDecodeAddress this (symbol currency) address) as [[] | e'] eqn:Hdecode.
    + apply tryDecodeAddress_decodable in Hdecode.
      unfold encodeRoutingHint.
      destruct (claimPublicKey args) as [claimKey |].
      * destruct (verifyAddressSignature sha256 verifySchnorr claimKey address signature)
          as [[] | message] eqn:Hvalid; simpl.
        -- split; [discriminate |].
           intros [[_ Hno] | (_ & a & s & [= <-] & [= <-] & Hcase)]; [contradiction |].
           destruct Hcase as [[_ Hno] | [(_ & _ & k & [= <-] & Hinvalid)
                                        | (m & _ & _ & k & [= <-] & Hthrown)]];
             [contradiction | congruence | congruence].
        -- split.
           ++ intros [= <-]. right. split; [exact Hhash |].
              exists address, signature. split; [reflexivity |]. split; [reflexivity |].
              right. left. split; [reflexivity |]. split; [exact Hdecode |].
              now exists claimKey.
           ++ intros [[_ Hno] | (_ & a & s & [= <-] & [= <-] & Hcase)]; [contradiction |].
              destruct Hcase as [[_ Hno] | [(-> & _)
                                           | (m & _ & _ & k & [= <-] & Hthrown)]];
                [contradiction | reflexivity | congruence].
        -- split.
           ++ intros [= <-]. right. split; [exact Hhash |].
              exists address, signature. split; [reflexivity |]. split; [reflexivity |].
              right. right. exists message. split; [reflexivity |].
              split; [exact Hdecode |]. now exists claimKey.
           ++ intros [[_ Hno] | (_ & a & s & [= <-] & [= <-] & Hcase)]; [contradiction |].
              destruct Hcase as [[_ Hno] | [(_ & _ & k & [= <-] & Hinvalid)
                                           | (m & -> & _ & k & [= <-] & Hthrown)]];
                [contradiction | congruence | congruence].
      * split; [discriminate |].
        intros [[_ Hno] | (_ & a & s & [= <-] & [= <-] & Hcase)]; [contradiction |].
        destruct Hcase as [[_ Hno] | [(_ & _ & k & Hk & _) | (m & _ & _ & k & Hk & _)]];
          [contradiction | discriminate Hk | discriminate Hk].
    + assert (Hno : ~ decodable this currency address).
      { intros Hyes. apply tryDecodeAddress_decodable in Hyes. congruence. }
      rewrite (tryDecodeAddress_undecodable _ _ _ Hno) in Hdecode.
      injection Hdecode as <-.
      split.
      * intros [= <-]. right. split; [exact Hhash |].
        exists address, signature. split; [reflexivity |]. split; [reflexivity |].
        left. now split.
      * intros [[_ Hbad] | (_ & a & s & [= <-] & [= <-] & Hcase)]; [contradiction |].
        destruct Hcase as [[-> _] | [(_ & Hyes & _) | (m & _ & Hyes & _)]];
          [reflexivity | contradiction | contradiction].
  - rewrite (checkDescriptionHash_unacceptable _ Hhash). split.
    + intros [= <-]. left. now split.
    + intros [[-> _] | [Hyes _]]; [reflexivity | contradiction].
Qed.

(** X11: without an address or without a signature, nothing is verified
    and no wallet is consulted: the outcome is the same under any hash
    function, any signature check, any hex printing, any wallets and any
    encoder of payment requests, as long as the miner fees are the same,
    and it carries neither BIP21 parameters nor a routing hint. *)
Theorem hints_without_address
  (sha256' : Buffer -> Buffer)
  (verifySchnorr' : Buffer -> Buffer -> Buffer -> result string bool)
  (getHexString' : Buffer -> string)
  (this this' : ReverseRoutingHints) (currency : Currency) (args : Args) :
  userAddress args = None \/ userAddressSignature args = None ->
  rateProvider this = rateProvider this' ->
  getHints sha256 verifySchnorr getHexString getSwapMemo minus this currency args
  = getHints sha256' verifySchnorr' getHexString' getSwapMemo minus this' currency args
  /\ forall hints,
       getHints sha256 verifySchnorr getHexString getSwapMemo minus this currency args
       = OK hints ->
       bip21Params hints = None /\ routingHint hints = None.
Proof.
  intros Hmissing Hrates.
  assert (Hplain : forall s v g t,
            getHints s v g getSwapMemo minus t currency args
            = let? checkedHash :=
                match invoice args with
                | None => checkDescriptionHash (descriptionHash args)
                | Some _ => OK None
                end in
              OK (plainHints getSwapMemo minus t currency args checkedHash)).
  { intros s v g t. rewrite getHints_steps.
    destruct Hmissing as [-> | ->]; [reflexivity |].
    destruct (userAddress args); reflexivity. }
  split.
  - rewrite !Hplain. unfold plainHints. now rewrite Hrates.
  - intros hints. rewrite Hplain. unfold Result.bind.
    destruct (match invoice args with
              | Some _ => OK None
              | None => checkDescriptionHash (descriptionHash args)
              end) as [checkedHash | e]; [| discriminate].
    intros [= <-]. split; reflexivity.
Qed.

(** X12: for a request with a BOLT12 invoice, neither the description hash
    nor the claim public key of the request is looked at: two requests that
    agree on everything else have the same outcome, and hints never carry
    a description hash. *)
Theorem bolt12_ignores_description_hash_and_claim_key
  (this : ReverseRoutingHints) (currency : Currency) (args args' : Args) :
  isBolt12 args ->
  invoice args' = invoice args ->
  memo args' = memo args ->
  userAddress args' = userAddress args ->
  userAddressSignature args' = userAddressSignature args ->
  version args' = version args ->
  onchainAmount args' = onchainAmount args ->
  getHints sha256 verifySchnorr getHexString getSwapMemo minus this currency args'
  = getHints sha256 verifySchnorr getHexString getSwapMemo minus this currency args
  /\ forall hints,
       getHints sha256 verifySchnorr getHexString getSwapMemo minus this currency args
       = OK hints ->
       invoiceDescriptionHash hints = None.
Proof.
  intros Hbolt12 Hinvoice Hmemo Haddress Hsignature Hversion Hamount.
  destruct (invoice args) as [i |] eqn:Hi; [| now destruct Hbolt12].
  split.
  - rewrite !getHints_steps. unfold addressedHints, plainHints.
    rewrite Hinvoice, Hmemo, Haddress, Hsignature, Hversion, Hamount, Hi.
    reflexivity.
  - intros hints Hhints. apply getHints_inv in Hhints.
    destruct Hhints as (checkedHash & Hhash & Hrest). rewrite Hi in Hhash, Hrest.
    subst checkedHash.
    destruct (userAddress args) as [address |]; [| now subst hints].
    destruct (userAddressSignature args) as [signature |]; [| now subst hints].
    destruct Hrest as (_ & hint & -> & _). reflexivity.
Qed.

(** X13: the memo of the hints is, without a BOLT12 invoice, the memo of
    the request, or the swap memo of the sending currency when the request
    has none, so it is never absent; with a BOLT12 invoice it is the
    description of the invoice.  BIP21 parameters, when the hints carry
    them, encode the received amount of the hints and the memo of the
    request as it is, without the default. *)
Theorem memo_and_bip21_params
  (this : ReverseRoutingHints) (currency : Currency) (args : Args) (hints : SwapHints) :
  getHints sha256 verifySchnorr getHexString getSwapMemo minus this currency args
  = OK hints ->
  invoiceMemo hints
  = match invoice args with
    | None =>
        Some (default (getSwapMemo (symbol currency) ReverseSubmarine) (memo args))
    | Some i => description (decoded i)
    end
  /\ forall params,
       bip21Params hints = Some params ->
       params
       = encodeParams (paymentRequestUtils this) (symbol currency)
           (receivedAmount hints) (memo args).
Proof.
  intros Hhints. apply getHints_inv in Hhints.
  destruct Hhints as (checkedHash & _ & Hrest).
  assert (Hmemo : invoiceMemo (plainHints getSwapMemo minus this currency args checkedHash)
                  = match invoice args with
                    | None =>
                        Some (default (getSwapMemo (symbol currency) ReverseSubmarine)
                                (memo args))
                    | Some i => description (decoded i)
                    end).
  { unfold plainHints. simpl. destruct (invoice args); [reflexivity |].
    destruct (memo args); reflexivity. }
  destruct (userAddress args) as [address |];
    [destruct (userAddressSignature args) as [signature |] |].
  - destruct Hrest as (_ & hint & -> & _). split; [exact Hmemo |].
    intros params [= <-]. reflexivity.
  - subst hints. split; [exact Hmemo | discriminate].
  - subst hints. split; [exact Hmemo | discriminate].
Qed.

End HintsFurther.

Section HintsFurtherExamples.
Import JS ReverseRoutingHints.

Lemma routing_hint_only_for_signed_address_witness :
  invoice (bolt11Request None) = None
  /\ exists claimKey,
       claimPublicKey (bolt11Request None) = Some claimKey
       /\ verifyAddressSignature standInSha256 standInVerifySchnorr
            claimKey userAddr (standInSign clientKey userAddr) = OK true.
Proof.
  destruct (routing_hint_only_for_signed_address standInSha256 standInVerifySchnorr hex
              memoFor minusOfIntegers exampleHints btc (bolt11Request None) _ _
              eq_refl eq_refl)
    as (Hinvoice & _ & _ & claimKey & address & signature
        & Hkey & Haddress & Hsignature & _ & Hvalid & _).
  injection Haddress as <-. injection Hsignature as <-.
  split; [exact Hinvoice |]. exists claimKey. split; [exact Hkey | exact Hvalid].
Defined.

Lemma bolt11_failures_witness :
  getHints standInSha256 rejectAll hex memoFor minusOfIntegers
    exampleHints btc (bolt11Request None)
  = Err (Swap INVALID_ADDRESS_SIGNATURE)
  /\ exampleGetHints btc (emptySignature (bolt11Request None))
     = Err (TypeError "Expected Signature").
Proof.
  split.
  - apply (proj2 (bolt11_failures standInSha256 rejectAll hex memoFor minusOfIntegers
                    exampleHints btc (bolt11Request None)
                    (Swap INVALID_ADDRESS_SIGNATURE) eq_refl)).
    right. split; [exact I |].
    exists userAddr, (standInSign clientKey userAddr).
    split; [reflexivity |]. split; [reflexivity |].
    right. left. split; [reflexivity |]. split; [exact userAddr_decodable |].
    exists clientKey. split; reflexivity.
  - apply (proj2 (bolt11_failures standInSha256 standInVerifySchnorr hex memoFor
                    minusOfIntegers exampleHints btc (emptySignature (bolt11Request None))
                    (TypeError "Expected Signature") eq_refl)).
    right. split; [exact I |].
    exists userAddr, []. split; [reflexivity |]. split; [reflexivity |].
    right. right. exists "Expected Signature"%string. split; [reflexivity |].
    split; [exact userAddr_decodable |].
    exists clientKey. split; reflexivity.
Defined.

Lemma hints_without_address_witness :
  exampleGetHints btc plainRequest
  = getHints (fun data => data) rejectAll (fun _ => EmptyString) memoFor minusOfIntegers
      walletless btc plainRequest.
Proof.
  exact (proj1 (hints_without_address standInSha256 standInVerifySchnorr hex memoFor
                  minusOfIntegers (fun data => data) rejectAll (fun _ => EmptyString)
                  exampleHints walletless btc plainRequest
                  (or_introl eq_refl) eq_refl)).
Defined.

Lemma bolt12_ignores_description_hash_and_claim_key_witness :
  exampleGetHints btc bolt12RequestWithHash
  = exampleGetHints btc (bolt12Request userAddr payeeKey).
Proof.
  refine (proj1 (bolt12_ignores_description_hash_and_claim_key
                   standInSha256 standInVerifySchnorr hex memoFor minusOfIntegers
                   exampleHints btc (bolt12Request userAddr payeeKey)
                   bolt12RequestWithHash _
                   eq_refl eq_refl eq_refl eq_refl eq_refl eq_refl)).
  discriminate.
Defined.

Lemma memo_and_bip21_params_witness :
  invoiceMemo
    (addressedHints memoFor minusOfIntegers exampleHints btc (bolt11Request None)
       None (Some [[ {| nodeId := hex clientKey;
                        chanId := routingHintChanId;
                        feeBaseMsat := 0;
                        cltvExpiryDelta := 81;
                        feeProportionalMillionths := 21 |} ]]))
  = Some "Send to BTC address"%string.
Proof.
  exact (proj1 (memo_and_bip21_params standInSha256 standInVerifySchnorr hex memoFor
                  minusOfIntegers exampleHints btc (bolt11Request None) _ eq_refl)).
Defined.

End HintsFurtherExamples.

(** ** Comparing numbers *)

Section Comparisons.
Import JS.

Ltac compare_numbers :=
  simpl; try discriminate; try reflexivity;
  rewrite ?Z.ltb_lt, ?Z.ltb_ge; intros;
  repeat match goal with
         | d : positive |- _ =>
             lazymatch goal with
             | _ : 0 < Z.pos d |- _ => fail
             | _ => pose proof (Pos2Z.is_pos d)
             end
         end;
  try lia; try nia.

Lemma lt_trans a b c :
  Arith.lt a b = true -> Arith.lt b c = true -> Arith.lt a c = true.
Proof.
  destruct a as [x | [ | | | n d]], b as [y | [ | | | n' d']], c as [z | [ | | | n'' d'']];
    compare_numbers.
Qed.

(** What is not below a number that is not below a third is not below the
    third, unless the one in the middle is NaN. *)
Lemma lt_false_trans a b c :
  b <> NotInt NaN ->
  Arith.lt a b = false -> Arith.lt b c = false -> Arith.lt a c = false.
Proof.
  destruct a as [x | [ | | | n d]], b as [y | [ | | | n' d']], c as [z | [ | | | n'' d'']];
    intros Hnan; try (now destruct Hnan); clear Hnan; compare_numbers.
Qed.

End Comparisons.

(** ** Mnemonic files *)

Section MnemonicFiles.
Import JS WalletManager.

Variable ErrorCodePrefix : Type.
Variable WalletPrefix : ErrorCodePrefix.
Variable concatErrorCode : ErrorCodePrefix -> Z -> string.
Variable generateMnemonic : nat -> string.
Variable validateMnemonic : string -> bool.
Variable trim : string -> string.

Local Abbreviation load :=
  (loadMnemonic ErrorCodePrefix WalletPrefix concatErrorCode
     generateMnemonic validateMnemonic trim).
Local Abbreviation readAndValidate :=
  (WalletManager.readAndValidate ErrorCodePrefix WalletPrefix concatErrorCode
     validateMnemonic trim).

Lemma loadMnemonic_existing filename world content :
  files world !! filename = Some content ->
  load filename world = (world, readAndValidate filename content world).
Proof.
  intros Hfile. unfold loadMnemonic, existsSync, readFileSync, WalletManager.readAndValidate.
  rewrite Hfile. simpl. rewrite Hfile.
  destruct (readRefused world filename); [reflexivity |].
  destruct (validateMnemonic (trim content)); reflexivity.
Qed.

Lemma loadMnemonic_missing filename world :
  files world !! filename = None ->
  load filename world
  = let content := generateMnemonic (generated world) in
    match writeRefused world filename with
    | Some code =>
        ({| files := files world;
            generated := S (generated world);
            writeRefused := writeRefused world;
            readRefused := readRefused world |},
         Err (WriteRefused filename code))
    | None =>
        ({| files := <[filename := content]> (files world);
            generated := S (generated world);
            writeRefused := writeRefused world;
            readRefused := readRefused world |},
         readAndValidate filename content world)
    end.
Proof.
  intros Hfile.
  unfold loadMnemonic, existsSync, readFileSync, writeFileSync,
    WalletManager.readAndValidate.
  rewrite Hfile. simpl.
  destruct (writeRefused world filename); [reflexivity |].
  simpl. rewrite lookup_insert_eq.
  destruct (readRefused world filename); [reflexivity |].
  destruct (validateMnemonic _); reflexivity.
Qed.

Lemma readAndValidate_OK filename content world mnemonic :
  readAndValidate filename content world = OK mnemonic ->
  validateMnemonic mnemonic = true /\ mnemonic = trim content.
Proof.
  unfold WalletManager.readAndValidate.
  destruct (readRefused world filename); [discriminate |].
  destruct (validateMnemonic (trim content)) eqn:Hvalid; [| discriminate].
  intros [= <-]. now split.
Qed.

Lemma readAndValidate_failures filename content world :
  (forall missing, readAndValidate filename content world <> Err (ENOENT missing))
  /\ (forall name code,
        readAndValidate filename content world <> Err (WriteRefused name code)).
Proof.
  unfold WalletManager.readAndValidate.
  split; intros; destruct (readRefused world filename);
    try destruct (validateMnemonic (trim content)); discriminate.
Qed.

(** X14: [loadMnemonic] touches no file but the one it is given, and that
    one only when it does not exist.  It fails on a refused write exactly
    when the file does not exist and the file system refuses to write it;
    when the write goes through, the file holds the mnemonic that was
    generated.  Unless the write was refused, the file exists afterwards,
    so the read never fails on a missing file, and a second load of the
    same file changes nothing and gives the same answer, whatever
    [generateMnemonic] would return.  A mnemonic the load returns is valid
    and is the trimmed content of the file. *)
Theorem loadMnemonic_persists (filename : string) (world : World) :
  let after :=
    fst (loadMnemonic ErrorCodePrefix WalletPrefix concatErrorCode
           generateMnemonic validateMnemonic trim filename world) in
  let answer :=
    snd (loadMnemonic ErrorCodePrefix WalletPrefix concatErrorCode
           generateMnemonic validateMnemonic trim filename world) in
  (forall other, other <> filename -> files after !! other = files world !! other)
  /\ (existsSync filename world = true -> after = world)
  /\ (forall name code,
        answer = Err (WriteRefused name code)
        <-> name = filename
            /\ existsSync filename world = false
            /\ writeRefused world filename = Some code)
  /\ (existsSync filename world = false ->
      writeRefused world filename = None ->
      files after !! filename = Some (generateMnemonic (generated world)))
  /\ (forall missing, answer <> Err (ENOENT missing))
  /\ (forall mnemonic,
        answer = OK mnemonic ->
        validateMnemonic mnemonic = true
        /\ exists content,
             files after !! filename = Some content /\ mnemonic = trim content)
  /\ ((forall name code, answer <> Err (WriteRefused name code)) ->
      existsSync filename after = true
      /\ forall generateMnemonic',
           loadMnemonic ErrorCodePrefix WalletPrefix concatErrorCode
             generateMnemonic' validateMnemonic trim filename after
           = (after, answer)).
Proof.
  cbv zeta.
  destruct (files world !! filename) as [content |] eqn:Hfile.
  - rewrite (loadMnemonic_existing _ _ _ Hfile). simpl.
    destruct (readAndValidate_failures filename content world) as [Hread Hwrite].
    assert (Hexists : existsSync filename world = true)
      by (unfold existsSync; now rewrite Hfile).
    split; [reflexivity |]. split; [reflexivity |].
    split.
    { intros name code. split.
      - intros Hanswer. now apply Hwrite in Hanswer.
      - intros (_ & Hmissing & _). congruence. }
    split; [congruence |].
    split; [exact Hread |].
    split.
    + intros mnemonic Hanswer. apply readAndValidate_OK in Hanswer as [Hvalid ->].
      split; [exact Hvalid |]. now exists content.
    + intros _. split; [exact Hexists |].
      intros generateMnemonic'.
      unfold loadMnemonic, existsSync, readFileSync, WalletManager.readAndValidate.
      rewrite Hfile. simpl. rewrite Hfile.
      destruct (readRefused world filename); [reflexivity |].
      destruct (validateMnemonic (trim content)); reflexivity.
  - rewrite (loadMnemonic_missing _ _ Hfile). cbv zeta.
    assert (Hmissing : existsSync filename world = false)
      by (unfold existsSync; now rewrite Hfile).
    destruct (writeRefused world filename) as [code |] eqn:Hrefused; simpl.
    + split; [reflexivity |].
      split; [congruence |].
      split.
      { intros name code'. split.
        - intros [= <- <-]. auto.
        - intros (-> & _ & [= <-]). reflexivity. }
      split; [discriminate |].
      split; [discriminate |].
      split; [discriminate |].
      intros Hnot. now destruct (Hnot filename code).
    + destruct (readAndValidate_failures filename
                  (generateMnemonic (generated world)) world) as [Hread Hwrite].
      split; [intros other Hother; now rewrite lookup_insert_ne |].
      split; [congruence |].
      split.
      { intros name code. split.
        - intros Hanswer. now apply Hwrite in Hanswer.
        - intros (_ & _ & Hcode). discriminate Hcode. }
      split; [intros _ _; now rewrite lookup_insert_eq |].
      split; [exact Hread |].
      split.
      * intros mnemonic Hanswer. apply readAndValidate_OK in Hanswer as [Hvalid ->].
        split; [exact Hvalid |]. eexists. split; [| reflexivity].
        now rewrite lookup_insert_eq.
      * intros _. split; [unfold existsSync; simpl; now rewrite lookup_insert_eq |].
        intros generateMnemonic'.
        unfold loadMnemonic, existsSync, readFileSync, WalletManager.readAndValidate. simpl.
        rewrite lookup_insert_eq. simpl. rewrite lookup_insert_eq.
        destruct (readRefused world filename); [reflexivity |].
        destruct (validateMnemonic _); reflexivity.
Qed.

(** X15: a manager that is given one path for both mnemonics has one
    mnemonic: the second load reads what the first has read or written,
    and at most one mnemonic is generated. *)
Theorem one_path_one_mnemonic
  (path : string) (world after : World) (mnemonic mnemonicEvm : string) :
  loadMnemonics ErrorCodePrefix WalletPrefix concatErrorCode
    generateMnemonic validateMnemonic trim path path world
  = (after, OK (mnemonic, mnemonicEvm)) ->
  mnemonic = mnemonicEvm
  /\ (generated after <= S (generated world))%nat
  /\ exists content, files after !! path = Some content /\ mnemonic = trim content.
Proof.
  unfold loadMnemonics.
  destruct (files world !! path) as [content |] eqn:Hworld.
  - rewrite (loadMnemonic_existing _ _ _ Hworld).
    destruct (readAndValidate path content world) as [first | e] eqn:Hfirst;
      [| discriminate].
    rewrite (loadMnemonic_existing _ _ _ Hworld), Hfirst.
    apply readAndValidate_OK in Hfirst as [_ ->].
    intros [= <- <- <-]. split; [reflexivity |]. split; [lia |]. now exists content.
  - rewrite (loadMnemonic_missing _ _ Hworld). cbv zeta.
    destruct (writeRefused world path); [discriminate |].
    destruct (readAndValidate path (generateMnemonic (generated world)) world)
      as [first | e] eqn:Hfirst; [| discriminate].
    rewrite (loadMnemonic_existing _ _ (generateMnemonic (generated world)))
      by (simpl; now rewrite lookup_insert_eq).
    assert (Hsecond : forall w,
              readRefused w = readRefused world ->
              readAndValidate path (generateMnemonic (generated world)) w = OK first).
    { intros w Hsame. unfold WalletManager.readAndValidate in *. now rewrite Hsame. }
    rewrite Hsecond by reflexivity.
    apply readAndValidate_OK in Hfirst as [_ ->].
    intros [= <- <- <-]. split; [reflexivity |]. split; [simpl; lia |].
    eexists. split; [| reflexivity]. simpl. now rewrite lookup_insert_eq.
Qed.

(** A file system that refuses the write: the load fails with the refusal
    and the mnemonic that was generated is lost. *)
Example loadMnemonic_on_read_only_file_system :
  loadMnemonic string "W"%string WalletErrors.dotted
    exampleGenerate exampleValidate exampleTrim "seed.dat" readOnlyWorld
  = ({| files := ∅;
        generated := 1;
        writeRefused := writeRefused readOnlyWorld;
        readRefused := readRefused readOnlyWorld |},
     Err (WriteRefused "seed.dat" "EROFS")).
Proof. reflexivity. Qed.

End MnemonicFiles.

(** ** Key providers and wallets of the manager *)

Section KeyProviders.
Import JS WalletManager.

Variables LndClient ChainClient Network EthereumWallet Exception : Type.
Variable messageOf : Exception -> option string.
Variable ErrorCodePrefix : Type.
Variable WalletPrefix : ErrorCodePrefix.
Variable concatErrorCode : ErrorCodePrefix -> Z -> string.
Variable toString : number -> string.
Variable plusNonInteger : number -> number -> number.
Variable splitDerivationPath : string -> SplitPath.
Variable this : WalletManager LndClient ChainClient Network EthereumWallet Exception.

Local Abbreviation highestAt :=
  (getHighestDepthIndex WalletPrefix concatErrorCode toString splitDerivationPath).
Local Abbreviation round :=
  (initCurrency messageOf WalletPrefix concatErrorCode toString plusNonInteger
     splitDerivationPath this).
Local Abbreviation rounds :=
  (initCurrencies messageOf WalletPrefix concatErrorCode toString plusNonInteger
     splitDerivationPath this).
Local Abbreviation created :=
  (createdOnTop WalletPrefix concatErrorCode toString plusNonInteger splitDerivationPath).
Local Abbreviation Log := (list (Call LndClient ChainClient Network EthereumWallet)).

(** *** Maps *)

Lemma mapGet_mapSet {V} (key key' : string) (value : V) (map : Map V) :
  mapGet key' (mapSet key value map)
  = if String.eqb key key' then Some value else mapGet key' map.
Proof.
  unfold mapGet. induction map as [| [k v] map IH]; simpl.
  - destruct (String.eqb_spec key key'); reflexivity.
  - destruct (String.eqb_spec k key) as [-> | Hk]; simpl.
    + destruct (String.eqb_spec key key'); reflexivity.
    + destruct (String.eqb_spec k key') as [-> | Hk'].
      * destruct (String.eqb_spec key key'); [congruence | reflexivity].
      * exact IH.
Qed.

Lemma mapSet_absent {V} (key : string) (value : V) (map : Map V) :
  mapGet key map = None -> mapSet key value map = map ++ [(key, value)].
Proof.
  unfold mapGet. induction map as [| [k v] map IH]; simpl; [reflexivity |].
  destruct (String.eqb k key); simpl; [discriminate |].
  intros Hnone. now rewrite IH.
Qed.

Lemma mapSet_entries {V} (key : string) (value : V) (map : Map V) entry :
  In entry (mapSet key value map) -> entry = (key, value) \/ In entry map.
Proof.
  induction map as [| [k v] map IH]; simpl.
  - intros [<- | []]. now left.
  - destruct (String.eqb k key); simpl.
    + intros [<- | Hin]; auto.
    + intros [<- | Hin]; auto. destruct (IH Hin); auto.
Qed.

(** *** The highest index *)

Lemma lt_irrefl a : Arith.lt a a = false.
Proof. destruct a as [x | [ | | | n d]]; simpl; auto using Z.ltb_irrefl. Qed.

Lemma highest_of_fold depth (map : Map KeyProviderType) h0 :
  h0 <> NotInt NaN ->
  let h :=
    fold_left
      (fun highestIndex entry =>
         match subAt (splitDerivationPath (derivationPath (snd entry))) depth with
         | Some index => if Arith.gt index highestIndex then index else highestIndex
         | None => highestIndex
         end)
      map h0 in
  h <> NotInt NaN
  /\ Arith.lt h h0 = false
  /\ (h = h0
      \/ exists entry,
           In entry map
           /\ subAt (splitDerivationPath (derivationPath (snd entry))) depth = Some h)
  /\ forall entry index,
       In entry map ->
       subAt (splitDerivationPath (derivationPath (snd entry))) depth = Some index ->
       Arith.gt index h = false.
Proof.
  revert h0. induction map as [| entry map IH]; intros h0 Hnan; cbv zeta.
  - simpl. split; [exact Hnan |]. split; [apply lt_irrefl |]. split; [now left |].
    intros ? ? [].
  - simpl.
    destruct (subAt (splitDerivationPath (derivationPath (snd entry))) depth)
      as [index |] eqn:Hindex.
    + destruct (Arith.gt index h0) eqn:Hlt; unfold Arith.gt in Hlt.
      * assert (Hindex_nan : index <> NotInt NaN).
        { intros ->. destruct h0 as [x | [ | | | n d]]; discriminate Hlt. }
        destruct (IH index Hindex_nan) as (Hh & Hge & Hfrom & Hall).
        split; [exact Hh |]. split.
        { destruct (Arith.lt _ h0) eqn:Hbelow; [| reflexivity].
          rewrite (lt_trans _ _ _ Hbelow Hlt) in Hge. discriminate Hge. }
        split.
        { right. destruct Hfrom as [-> | (e & Hin & He)].
          - exists entry. split; [now left | exact Hindex].
          - exists e. split; [now right | exact He]. }
        intros e i [<- | Hin] Hi.
        { rewrite Hindex in Hi. injection Hi as <-. exact Hge. }
        { exact (Hall e i Hin Hi). }
      * destruct (IH h0 Hnan) as (Hh & Hge & Hfrom & Hall).
        split; [exact Hh |]. split; [exact Hge |]. split.
        { destruct Hfrom as [-> | (e & Hin & He)]; [now left |].
          right. exists e. split; [now right | exact He]. }
        intros e i [<- | Hin] Hi.
        { rewrite Hindex in Hi. injection Hi as <-.
          unfold Arith.gt. exact (lt_false_trans _ _ _ Hnan Hge Hlt). }
        { exact (Hall e i Hin Hi). }
    + destruct (IH h0 Hnan) as (Hh & Hge & Hfrom & Hall).
      split; [exact Hh |]. split; [exact Hge |]. split.
      { destruct Hfrom as [-> | (e & Hin & He)]; [now left |].
        right. exists e. split; [now right | exact He]. }
      intros e i [<- | Hin] Hi.
      { rewrite Hindex in Hi. discriminate Hi. }
      { exact (Hall e i Hin Hi). }
Qed.

(** X16: [getHighestDepthIndex] throws INVALID_DEPTH_INDEX exactly for the
    depth 0.  For every other depth it returns -1 or the index one of the
    key providers has at that depth, never NaN and never less than -1, and
    no key provider has a greater index there; a path that is too short
    for the depth, or an index NaN, is passed over. *)
Theorem getHighestDepthIndex_is_highest
  (map : Map KeyProviderType) (depth : number) :
  match getHighestDepthIndex WalletPrefix concatErrorCode toString
          splitDerivationPath map depth with
  | Err e =>
      depth = Int 0
      /\ e = WalletErrors.INVALID_DEPTH_INDEX ErrorCodePrefix WalletPrefix concatErrorCode
               toString depth
  | OK highest =>
      depth <> Int 0
      /\ highest <> NotInt NaN
      /\ Arith.lt highest (Int (-1)) = false
      /\ (highest = Int (-1)
          \/ exists entry,
               In entry map
               /\ subAt (splitDerivationPath (derivationPath (snd entry))) depth
                  = Some highest)
      /\ forall entry index,
           In entry map ->
           subAt (splitDerivationPath (derivationPath (snd entry))) depth = Some index ->
           Arith.gt index highest = false
  end.
Proof.
  unfold getHighestDepthIndex.
  destruct depth as [z | v].
  - destruct (Z.eqb_spec z 0) as [-> | Hz]; [split; reflexivity |].
    split; [congruence |].
    apply (highest_of_fold (Int z) map (Int (-1))). discriminate.
  - split; [discriminate |].
    apply (highest_of_fold (NotInt v) map (Int (-1))). discriminate.
Qed.

(** *** One round of [init] *)

Lemma addedKeyProviders_app (l1 l2 : Log) :
  addedKeyProviders (l1 ++ l2) = addedKeyProviders l1 ++ addedKeyProviders l2.
Proof. unfold addedKeyProviders. apply flat_map_app. Qed.

Lemma created_app map added1 map1 added2 map2 :
  created map added1 map1 -> created map1 added2 map2 ->
  created map (added1 ++ added2) map2.
Proof.
  revert map. induction added1 as [| info added1 IH]; intros map; simpl.
  - intros ->. auto.
  - intros (Hnone & Hinfo & Hrest) Hnext. split; [exact Hnone |].
    split; [exact Hinfo |]. now apply IH.
Qed.

(** Creating key providers leaves those of the map as they are. *)
Lemma created_keeps map added mapEnd key info :
  created map added mapEnd -> mapGet key map = Some info -> mapGet key mapEnd = Some info.
Proof.
  revert map. induction added as [| new added IH]; intros map; simpl.
  - intros ->. auto.
  - intros (Hnone & _ & Hrest) Hget. apply (IH _ Hrest).
    rewrite mapGet_mapSet.
    destruct (String.eqb_spec (symbol new) key) as [<- | _]; [congruence | exact Hget].
Qed.

Lemma created_from map added mapEnd key info :
  created map added mapEnd -> mapGet key mapEnd = Some info ->
  mapGet key map = Some info
  \/ (mapGet key map = None /\ In info added /\ symbol info = key).
Proof.
  revert map. induction added as [| new added IH]; intros map; simpl.
  - intros ->. auto.
  - intros (Hnone & _ & Hrest) Hget.
    destruct (IH _ Hrest Hget) as [Hset | (Hset & Hin & Hkey)].
    + rewrite mapGet_mapSet in Hset.
      destruct (String.eqb_spec (symbol new) key) as [<- | _]; [| now left].
      injection Hset as <-. right. auto.
    + rewrite mapGet_mapSet in Hset.
      destruct (String.eqb_spec (symbol new) key) as [<- | _]; [discriminate |].
      right. auto.
Qed.

Lemma created_symbols map added mapEnd :
  created map added mapEnd ->
  List.NoDup (List.map symbol added)
  /\ forall info, In info added -> mapGet (symbol info) map = None.
Proof.
  revert map. induction added as [| new added IH]; intros map; simpl.
  - intros _. split; [constructor | intros ? []].
  - intros (Hnone & _ & Hrest). destruct (IH _ Hrest) as [Hnodup Habsent]. split.
    + constructor; [| exact Hnodup].
      intros Hin. apply in_map_iff in Hin. destruct Hin as (info & Hsym & Hin).
      specialize (Habsent info Hin). rewrite mapGet_mapSet, Hsym, String.eqb_refl in Habsent.
      discriminate.
    + intros info [<- | Hin]; [exact Hnone |].
      specialize (Habsent info Hin). rewrite mapGet_mapSet in Habsent.
      destruct (String.eqb (symbol new) (symbol info)); [discriminate | exact Habsent].
Qed.

Lemma highest_at_depth_2 map : exists highest, highestAt map (Int 2) = OK highest.
Proof. eexists. reflexivity. Qed.

(** What a round of the loop does: its calls follow those made before;
    it creates at most one key provider, for its currency; the wallet it
    sets has the path and the index of the key provider of the currency;
    when it goes through for a UTXO based currency, it has set a wallet. *)
Local Abbreviation roundFacts map currency log outcome :=
  (exists calls mapNext,
     fst outcome = log ++ calls
     /\ (forall m, snd outcome = OK m ->
           m = mapNext
           /\ (type currency <> AccountBased ->
               exists wallet,
                 In (WalletsSet (currency_symbol currency) (Utxo wallet)) calls))
     /\ created map (addedKeyProviders calls) mapNext
     /\ (List.length (addedKeyProviders calls) <= 1)%nat
     /\ (forall info, In info (addedKeyProviders calls) ->
           type currency <> AccountBased /\ symbol info = currency_symbol currency)
     /\ (forall key wallet, In (WalletsSet key (Utxo wallet)) calls ->
           key = currency_symbol currency
           /\ type currency <> AccountBased
           /\ exists info,
                mapGet key mapNext = Some info
                /\ wallet_derivationPath wallet = derivationPath info
                /\ wallet_highestUsedIndex wallet = highestUsedIndex info)
     /\ (forall key wallet, ~ In (WalletsSet key (Ethereum wallet)) calls)).

(** The part of a round that follows the choice of the wallet provider. *)
Local Abbreviation afterProvider map currency log checks provider :=
  (match mapGet (currency_symbol currency) map with
   | Some info =>
       ((log ++ checks)
          ++ [WalletsSet (currency_symbol currency)
                (Utxo {| wallet_type := type currency;
                         walletProvider := provider;
                         wallet_network := network currency;
                         wallet_derivationPath := derivationPath info;
                         wallet_highestUsedIndex := highestUsedIndex info |})],
        OK map)
   | None =>
       match highestAt map (Int 2) with
       | Err e => (log ++ checks, Err (Thrown e))
       | OK highest =>
           let info :=
             {| highestUsedIndex := Int 0;
                symbol := currency_symbol currency;
                derivationPath :=
                  (baseDerivationPath ++ "/"
                   ++ toString (Arith.plus plusNonInteger highest (Int 1)))%string |} in
           match addKeyProvider this info with
           | OK _ =>
               (((log ++ checks) ++ [AddKeyProvider info])
                  ++ [WalletsSet (currency_symbol currency)
                        (Utxo {| wallet_type := type currency;
                                 walletProvider := provider;
                                 wallet_network := network currency;
                                 wallet_derivationPath := derivationPath info;
                                 wallet_highestUsedIndex := highestUsedIndex info |})],
                OK (mapSet (currency_symbol currency) info map))
           | Err x => ((log ++ checks) ++ [AddKeyProvider info], Err (Rejected x))
           end
       end
   end).

Lemma afterProvider_facts map
  (currency : Currency LndClient ChainClient Network) (log checks : Log) provider :
  type currency <> AccountBased ->
  addedKeyProviders checks = [] ->
  (forall key wallet, ~ In (WalletsSet key wallet) checks) ->
  roundFacts map currency log (afterProvider map currency log checks provider).
Proof.
  intros Htype Hchecks Hnosets.
  destruct (mapGet (currency_symbol currency) map) as [info |] eqn:Hget.
  - eexists (checks ++ [WalletsSet (currency_symbol currency) (Utxo _)]), map.
    simpl. rewrite addedKeyProviders_app, Hchecks. simpl.
    split; [now rewrite app_assoc |]. split.
    { intros m [= <-]. split; [reflexivity |]. intros _. eexists.
      apply in_or_app. right. now left. }
    split; [reflexivity |]. split; [lia |]. split; [intros ? [] |]. split.
    + intros key w Hin. apply in_app_or in Hin.
      destruct Hin as [Hin | [[= <- <-] | []]]; [now apply Hnosets in Hin |].
      split; [reflexivity |]. split; [exact Htype |]. exists info. auto.
    + intros key w Hin. apply in_app_or in Hin.
      destruct Hin as [Hin | [Hin | []]]; [now apply Hnosets in Hin | discriminate Hin].
  - destruct (highest_at_depth_2 map) as [highest Hhigh]. rewrite Hhigh.
    cbv zeta.
    set (info := {| highestUsedIndex := Int 0;
                    symbol := currency_symbol currency;
                    derivationPath := _ |}).
    assert (Hcreated : created map [info] (mapSet (currency_symbol currency) info map)).
    { simpl. split; [exact Hget |]. split; [| reflexivity].
      exists highest. split; [exact Hhigh | reflexivity]. }
    destruct (addKeyProvider this info) as [[] | x].
    + eexists (checks ++ [AddKeyProvider info;
                          WalletsSet (currency_symbol currency) (Utxo _)]),
              (mapSet (currency_symbol currency) info map).
      simpl. rewrite addedKeyProviders_app, Hchecks. simpl.
      split; [now rewrite <- !app_assoc |]. split.
      { intros m [= <-]. split; [reflexivity |]. intros _. eexists.
        apply in_or_app. right. right. now left. }
      split; [exact Hcreated |]. split; [lia |].
      split; [intros ? [<- | []]; auto |]. split.
      * intros key w Hin. apply in_app_or in Hin.
        destruct Hin as [Hin | [Hin | [[= <- <-] | []]]];
          [now apply Hnosets in Hin | discriminate Hin |].
        split; [reflexivity |]. split; [exact Htype |]. exists info.
        rewrite mapGet_mapSet, String.eqb_refl. auto.
      * intros key w Hin. apply in_app_or in Hin.
        destruct Hin as [Hin | [Hin | [Hin | []]]];
          [now apply Hnosets in Hin | discriminate Hin | discriminate Hin].
    + exists (checks ++ [AddKeyProvider info]),
             (mapSet (currency_symbol currency) info map).
      simpl. rewrite addedKeyProviders_app, Hchecks. simpl.
      split; [now rewrite <- !app_assoc |]. split; [discriminate |].
      split; [exact Hcreated |]. split; [lia |].
      split; [intros ? [<- | []]; auto |]. split.
      * intros key w Hin. apply in_app_or in Hin.
        destruct Hin as [Hin | [Hin | []]];
          [now apply Hnosets in Hin | discriminate Hin].
      * intros key w Hin. apply in_app_or in Hin.
        destruct Hin as [Hin | [Hin | []]];
          [now apply Hnosets in Hin | discriminate Hin].
Qed.

(** The wallet provider of a UTXO based currency, and the balance asked
    of it when it runs on the node. *)
Lemma initCurrency_provider configCurrencies map
  (currency : Currency LndClient ChainClient Network) (log : Log) :
  type currency <> AccountBased ->
  round configCurrencies map currency log
  = match lndWallet configCurrencies currency with
    | Some lnd =>
        afterProvider map currency log []
          (LndWalletProvider lnd (chainClient currency))
    | None =>
        let provider :=
          match type currency with
          | BitcoinLike => CoreWalletProvider (chainClient currency)
          | _ => ElementsWalletProvider (chainClient currency)
          end in
        match getBalance this provider with
        | OK _ => afterProvider map currency log [GetBalance provider] provider
        | Err error =>
            (log ++ [GetBalance provider],
             Err (if match messageOf error with
                     | Some message => String.eqb message "Method not found"
                     | None => false
                     end
                  then Thrown (WalletErrors.NO_WALLET_SUPPORT ErrorCodePrefix WalletPrefix
                                 concatErrorCode (currency_symbol currency))
                  else Rejected error))
        end
    end.
Proof.
  intros Htype.
  assert (Hafter : forall provider (l : Log) checks,
            l = log ++ checks ->
            Effects.await
              (match mapGet (currency_symbol currency) map with
               | Some keyProviderInfo => Effects.resolve (keyProviderInfo, map)
               | None =>
                   match highestAt map (Int 2) with
                   | OK highest =>
                       Effects.await
                         (ask _ _ _ _ _
                            (AddKeyProvider
                               {| symbol := currency_symbol currency;
                                  derivationPath :=
                                    (baseDerivationPath ++ "/"
                                     ++ toString
                                          (Arith.plus plusNonInteger highest (Int 1)))%string;
                                  highestUsedIndex := Int 0 |})
                            (addKeyProvider this
                               {| symbol := currency_symbol currency;
                                  derivationPath :=
                                    (baseDerivationPath ++ "/"
                                     ++ toString
                                          (Arith.plus plusNonInteger highest (Int 1)))%string;
                                  highestUsedIndex := Int 0 |}))
                         (fun _ =>
                            Effects.resolve
                              ({| symbol := currency_symbol currency;
                                  derivationPath :=
                                    (baseDerivationPath ++ "/"
                                     ++ toString
                                          (Arith.plus plusNonInteger highest (Int 1)))%string;
                                  highestUsedIndex := Int 0 |},
                               mapSet (currency_symbol currency)
                                 {| symbol := currency_symbol currency;
                                    derivationPath :=
                                      (baseDerivationPath ++ "/"
                                       ++ toString
                                            (Arith.plus plusNonInteger highest (Int 1)))%string;
                                    highestUsedIndex := Int 0 |} map))
                   | Err e => Effects.reject (Thrown e)
                   end
               end)
              (fun found =>
                 Effects.await
                   (Effects.call
                      (WalletsSet (currency_symbol currency)
                         (Utxo {| wallet_type := type currency;
                                  walletProvider := provider;
                                  wallet_network := network currency;
                                  wallet_derivationPath := derivationPath (fst found);
                                  wallet_highestUsedIndex := highestUsedIndex (fst found) |}))
                      (OK tt))
                   (fun _ => Effects.resolve (snd found)))
              l
            = afterProvider map currency log checks provider).
  { intros provider l checks ->.
    unfold Effects.await, Effects.call, Effects.resolve, Effects.reject, ask.
    destruct (mapGet (currency_symbol currency) map); [reflexivity |].
    destruct (highestAt map (Int 2)); [| reflexivity].
    cbv zeta. unfold Effects.mapErr.
    destruct (addKeyProvider this _) as [[] |]; reflexivity. }
  unfold initCurrency.
  destruct (type currency) eqn:Htype'; [| | now destruct Htype].
  - unfold Effects.await at 1.
    destruct (lndWallet configCurrencies currency) as [lnd |].
    + unfold Effects.resolve at 1. apply Hafter. now rewrite app_nil_r.
    + unfold Effects.call at 1. cbv zeta.
      destruct (getBalance this _) as [[] | x]; [now apply Hafter |].
      destruct (match messageOf x with
                | Some message => String.eqb message "Method not found"
                | None => false
                end); reflexivity.
  - unfold Effects.await at 1.
    destruct (lndWallet configCurrencies currency) as [lnd |].
    + unfold Effects.resolve at 1. apply Hafter. now rewrite app_nil_r.
    + unfold Effects.call at 1. cbv zeta.
      destruct (getBalance this _) as [[] | x]; [now apply Hafter |].
      destruct (match messageOf x with
                | Some message => String.eqb message "Method not found"
                | None => false
                end); reflexivity.
Qed.

Lemma initCurrency_round configCurrencies map currency (log : Log) :
  roundFacts map currency log (round configCurrencies map currency log).
Proof.
  destruct (type currency) eqn:Htype.
  3: { unfold initCurrency. rewrite Htype.
       exists [], map. simpl. rewrite app_nil_r. split; [reflexivity |].
       split; [intros m [= <-]; split; [reflexivity | intros H; now destruct H] |].
       split; [reflexivity |]. split; [lia |].
       split; [intros ? [] |]. split; intros ? ? []. }
  all: rewrite initCurrency_provider by (rewrite Htype; discriminate).
  all: rewrite <- Htype.
  all: destruct (lndWallet configCurrencies currency) as [lnd |];
    [apply afterProvider_facts;
     [rewrite Htype; discriminate | reflexivity | intros ? ? []] |].
  all: cbv zeta;
    destruct (getBalance this _) as [[] | x];
    [apply afterProvider_facts;
     [rewrite Htype; discriminate | reflexivity
      | intros ? ? [Hin | []]; discriminate Hin] |].
  all: eexists [GetBalance _], map; simpl;
    (split; [reflexivity |]); (split; [discriminate |]); (split; [reflexivity |]);
    (split; [lia |]); (split; [intros ? [] |]);
    split; intros ? ? [Hin | []]; discriminate Hin.
Qed.

(** *** The loop over the currencies *)

Local Abbreviation loopFacts map currencies log outcome :=
  (exists calls mapEnd,
     fst outcome = log ++ calls
     /\ (forall m, snd outcome = OK m ->
           forall currency, In currency currencies -> type currency <> AccountBased ->
           exists wallet,
             In (WalletsSet (currency_symbol currency) (Utxo wallet)) calls)
     /\ created map (addedKeyProviders calls) mapEnd
     /\ le (List.length (addedKeyProviders calls)) (List.length currencies)
     /\ (forall info, In info (addedKeyProviders calls) ->
           exists currency,
             In currency currencies
             /\ type currency <> AccountBased
             /\ symbol info = currency_symbol currency)
     /\ (forall key wallet, In (WalletsSet key (Utxo wallet)) calls ->
           exists info,
             mapGet key mapEnd = Some info
             /\ wallet_derivationPath wallet = derivationPath info
             /\ wallet_highestUsedIndex wallet = highestUsedIndex info)
     /\ (forall key wallet, ~ In (WalletsSet key (Ethereum wallet)) calls)).

Lemma initCurrencies_rounds configCurrencies
  (currencies : list (Currency LndClient ChainClient Network)) :
  forall map (log : Log),
    loopFacts map currencies log (rounds configCurrencies map currencies log).
Proof.
  induction currencies as [| currency rest IH]; intros map log.
  - exists [], map. simpl. rewrite app_nil_r. split; [reflexivity |].
    split; [intros ? _ ? [] |]. split; [reflexivity |]. split; [lia |].
    split; [intros ? [] |]. split; intros ? ? [].
  - assert (Hstep : rounds configCurrencies map (currency :: rest) log
                    = match round configCurrencies map currency log with
                      | (log', OK next) => rounds configCurrencies next rest log'
                      | (log', Err e) => (log', Err e)
                      end) by reflexivity.
    rewrite Hstep. clear Hstep.
    destruct (initCurrency_round configCurrencies map currency log)
      as (calls1 & map1 & Hlog1 & Hres1 & Hcreated1 & Hlen1 & Hadded1 & Hsets1 & Heth1).
    destruct (round configCurrencies map currency log) as [log1 [m1 | e]].
    + simpl in Hlog1, Hres1. subst log1.
      destruct (Hres1 m1 eq_refl) as [-> Hset1].
      destruct (IH map1 (log ++ calls1))
        as (calls2 & mapEnd & Hlog2 & Hres2 & Hcreated2 & Hlen2 & Hadded2 & Hsets2 & Heth2).
      exists (calls1 ++ calls2), mapEnd.
      split; [now rewrite Hlog2, app_assoc |].
      split.
      { intros m Hm c [<- | Hin] Htype.
        - destruct (Hset1 Htype) as [wallet Hwallet]. exists wallet.
          apply in_or_app. now left.
        - destruct (Hres2 m Hm c Hin Htype) as [wallet Hwallet]. exists wallet.
          apply in_or_app. now right. }
      rewrite addedKeyProviders_app.
      split; [exact (created_app _ _ _ _ _ Hcreated1 Hcreated2) |].
      split; [rewrite length_app; simpl; lia |].
      split.
      { intros info Hin. apply in_app_or in Hin. destruct Hin as [Hin | Hin].
        - destruct (Hadded1 info Hin) as [Htype Hsym]. exists currency.
          split; [now left | auto].
        - destruct (Hadded2 info Hin) as (c & Hc & Htype & Hsym). exists c.
          split; [now right | auto]. }
      split.
      { intros key wallet Hin. apply in_app_or in Hin. destruct Hin as [Hin | Hin].
        - destruct (Hsets1 key wallet Hin) as (_ & _ & info & Hget & Hpath & Hindex).
          exists info. split; [| auto].
          exact (created_keeps _ _ _ _ _ Hcreated2 Hget).
        - exact (Hsets2 key wallet Hin). }
      intros key wallet Hin. apply in_app_or in Hin.
      destruct Hin as [Hin | Hin]; [exact (Heth1 _ _ Hin) | exact (Heth2 _ _ Hin)].
    + simpl in Hlog1. subst log1. exists calls1, map1. simpl.
      split; [reflexivity |]. split; [discriminate |].
      split; [exact Hcreated1 |]. split; [lia |]. split.
      { intros info Hin. destruct (Hadded1 info Hin) as [Htype Hsym]. exists currency.
        split; [now left | auto]. }
      split; [| exact Heth1].
      intros key wallet Hin.
      destruct (Hsets1 key wallet Hin) as (_ & _ & info & Hget & Hpath & Hindex).
      exists info. auto.
Qed.

(** *** The wallets of the Ethereum managers *)

Lemma setEthereumWallets_log (ethereumWallets : Map EthereumWallet) :
  forall log : Log,
  exists more,
    @setEthereumWallets LndClient ChainClient Network EthereumWallet Exception
      ethereumWallets log
    = (log ++ more, OK tt)
    /\ addedKeyProviders more = []
    /\ (forall key wallet, ~ In (WalletsSet key (Utxo wallet)) more)
    /\ (forall key wallet, In (key, wallet) ethereumWallets ->
          In (WalletsSet key (Ethereum wallet)) more).
Proof.
  induction ethereumWallets as [| [key wallet] rest IH]; intros log.
  - exists []. simpl. unfold Effects.resolve. rewrite app_nil_r.
    split; [reflexivity |]. split; [reflexivity |]. split; intros ? ? [].
  - simpl. unfold Effects.await at 1. unfold Effects.call at 1.
    destruct (IH (log ++ [WalletsSet key (Ethereum wallet)]))
      as (more & -> & Hadded & Hutxo & Hsets).
    exists (WalletsSet key (Ethereum wallet) :: more).
    split; [now rewrite <- app_assoc |]. split; [exact Hadded |]. split.
    + intros k w [Hin | Hin]; [discriminate Hin | exact (Hutxo _ _ Hin)].
    + intros k w [[= <- <-] | Hin]; [now left | right; exact (Hsets _ _ Hin)].
Qed.

Lemma initEthereumManagers_log
  (managers : list (EthereumManager EthereumWallet Exception)) :
  forall log : Log,
  exists more,
    fst (initEthereumManagers this managers log) = log ++ more
    /\ addedKeyProviders more = []
    /\ (forall key wallet, ~ In (WalletsSet key (Utxo wallet)) more)
    /\ (snd (initEthereumManagers this managers log) = OK tt ->
        forall manager ethereumWallets key wallet,
          In manager managers ->
          manager_init manager (mnemonicEvm this) = OK ethereumWallets ->
          In (key, wallet) ethereumWallets ->
          In (WalletsSet key (Ethereum wallet)) more).
Proof.
  induction managers as [| manager rest IH]; intros log.
  - exists []. simpl. rewrite app_nil_r. split; [reflexivity |].
    split; [reflexivity |]. split; [intros ? ? [] |]. intros _ ? ? ? ? [].
  - assert (Hstep :
      initEthereumManagers this (manager :: rest) log
      = match manager_init manager (mnemonicEvm this) with
        | OK ethereumWallets =>
            match @setEthereumWallets LndClient ChainClient Network EthereumWallet
                    Exception ethereumWallets
                    (log ++ [EthereumManagerInit (mnemonicEvm this)]) with
            | (log', OK _) => initEthereumManagers this rest log'
            | (log', Err e) => (log', Err e)
            end
        | Err x => (log ++ [EthereumManagerInit (mnemonicEvm this)], Err (Rejected x))
        end).
    { simpl. unfold Effects.await, ask, Effects.call, Effects.mapErr.
      destruct (manager_init manager (mnemonicEvm this)); reflexivity. }
    rewrite Hstep. clear Hstep.
    destruct (manager_init manager (mnemonicEvm this)) as [ethereumWallets | x] eqn:Hinit.
    + destruct (setEthereumWallets_log ethereumWallets
                  (log ++ [EthereumManagerInit (mnemonicEvm this)]))
        as (sets & -> & Hadded1 & Hutxo1 & Hsets1).
      destruct (IH ((log ++ [EthereumManagerInit (mnemonicEvm this)]) ++ sets))
        as (more & Hlog & Hadded2 & Hutxo2 & Hsets2).
      exists (EthereumManagerInit (mnemonicEvm this) :: sets ++ more).
      split; [rewrite Hlog, <- !app_assoc; reflexivity |].
      split.
      { change (EthereumManagerInit (mnemonicEvm this) :: sets ++ more)
          with ([EthereumManagerInit (mnemonicEvm this)] ++ sets ++ more).
        now rewrite !addedKeyProviders_app, Hadded1, Hadded2. }
      split.
      { intros k w [Hin | Hin]; [discriminate Hin |].
        apply in_app_or in Hin.
        destruct Hin as [Hin | Hin]; [exact (Hutxo1 _ _ Hin) | exact (Hutxo2 _ _ Hin)]. }
      intros Hok m ws k w [<- | Hin] Hws Hkw.
      * rewrite Hinit in Hws. injection Hws as <-. right. apply in_or_app. left.
        exact (Hsets1 _ _ Hkw).
      * right. apply in_or_app. right. exact (Hsets2 Hok m ws k w Hin Hws Hkw).
    + exists [EthereumManagerInit (mnemonicEvm this)].
      split; [reflexivity |]. split; [reflexivity |].
      split; [intros ? ? [Hin | []]; discriminate Hin |]. discriminate.
Qed.

(** *** The whole of [init] *)

Lemma getKeyProviderMap_entries (keyProviders : list KeyProviderType) :
  forall (map : Map KeyProviderType) entry,
    In entry
      (fold_left
         (fun map keyProvider =>
            mapSet (symbol keyProvider)
              {| symbol := symbol keyProvider;
                 derivationPath := derivationPath keyProvider;
                 highestUsedIndex := highestUsedIndex keyProvider |}
              map)
         keyProviders map) ->
    In entry map
    \/ exists keyProvider,
         In keyProvider keyProviders
         /\ derivationPath (snd entry) = derivationPath keyProvider.
Proof.
  induction keyProviders as [| keyProvider rest IH]; intros map entry; simpl; [auto |].
  intros Hin. destruct (IH _ _ Hin) as [Hset | (kp & Hkp & Hpath)].
  - apply mapSet_entries in Hset. destruct Hset as [-> | Hmap]; [| now left].
    right. exists keyProvider. split; [now left | reflexivity].
  - right. exists kp. split; [now right | exact Hpath].
Qed.

Lemma init_log configCurrencies keyProviders :
  getKeyProviders this = OK keyProviders ->
  exists map calls mapEnd more,
    Effects.run (getKeyProviderMap this) = ([GetKeyProviders], OK map)
    /\ (forall entry, In entry map ->
          exists keyProvider,
            In keyProvider keyProviders
            /\ derivationPath (snd entry) = derivationPath keyProvider)
    /\ fst (Effects.run
              (init messageOf WalletPrefix concatErrorCode toString plusNonInteger
                 splitDerivationPath this configCurrencies))
       = [GetKeyProviders] ++ calls ++ more
    /\ created map (addedKeyProviders calls) mapEnd
    /\ (List.length (addedKeyProviders calls) <= List.length (currencies this))%nat
    /\ (forall info, In info (addedKeyProviders calls) ->
          exists currency,
            In currency (currencies this)
            /\ type currency <> AccountBased
            /\ symbol info = currency_symbol currency)
    /\ (forall key wallet, In (WalletsSet key (Utxo wallet)) calls ->
          exists info,
            mapGet key mapEnd = Some info
            /\ wallet_derivationPath wallet = derivationPath info
            /\ wallet_highestUsedIndex wallet = highestUsedIndex info)
    /\ addedKeyProviders more = []
    /\ (forall key wallet, ~ In (WalletsSet key (Utxo wallet)) more)
    /\ (snd (Effects.run
               (init messageOf WalletPrefix concatErrorCode toString plusNonInteger
                  splitDerivationPath this configCurrencies)) = OK tt ->
        (forall currency, In currency (currencies this) ->
           type currency <> AccountBased ->
           exists wallet,
             In (WalletsSet (currency_symbol currency) (Utxo wallet)) calls)
        /\ forall manager ethereumWallets key wallet,
             In manager (ethereumManagers this) ->
             manager_init manager (mnemonicEvm this) = OK ethereumWallets ->
             In (key, wallet) ethereumWallets ->
             In (WalletsSet key (Ethereum wallet)) more).
Proof.
  intros HkeyProviders.
  set (map := fold_left
                (fun map keyProvider =>
                   mapSet (symbol keyProvider)
                     {| symbol := symbol keyProvider;
                        derivationPath := derivationPath keyProvider;
                        highestUsedIndex := highestUsedIndex keyProvider |}
                     map)
                keyProviders []).
  assert (Hmap : Effects.run (getKeyProviderMap this) = ([GetKeyProviders], OK map)).
  { unfold Effects.run, getKeyProviderMap, Effects.await, ask, Effects.call.
    rewrite HkeyProviders. reflexivity. }
  destruct (initCurrencies_rounds configCurrencies (currencies this) map [GetKeyProviders])
    as (calls & mapEnd & Hlog & Hres & Hcreated & Hlen & Hadded & Hsets & Heth).
  assert (Hstep :
    Effects.run
      (init messageOf WalletPrefix concatErrorCode toString plusNonInteger
         splitDerivationPath this configCurrencies)
    = match rounds configCurrencies map (currencies this) [GetKeyProviders] with
      | (log', OK _) => initEthereumManagers this (ethereumManagers this) log'
      | (log', Err e) => (log', Err e)
      end).
  { unfold Effects.run, init, getKeyProviderMap, Effects.await, ask, Effects.call.
    rewrite HkeyProviders. reflexivity. }
  rewrite Hstep. clear Hstep.
  destruct (rounds configCurrencies map (currencies this) [GetKeyProviders])
    as [log1 [m1 | e]].
  - cbn [fst] in Hlog. subst log1.
    destruct (initEthereumManagers_log (ethereumManagers this) ([GetKeyProviders] ++ calls))
      as (more & Hlog2 & Hadded2 & Hutxo2 & Hsets2).
    exists map, calls, mapEnd, more.
    split; [exact Hmap |]. split.
    { intros entry Hin. destruct (getKeyProviderMap_entries _ _ _ Hin) as [[] | H].
      exact H. }
    split; [now rewrite Hlog2, <- app_assoc |].
    split; [exact Hcreated |]. split; [exact Hlen |]. split; [exact Hadded |].
    split; [exact Hsets |]. split; [exact Hadded2 |]. split; [exact Hutxo2 |].
    intros Hok. split; [exact (Hres m1 eq_refl) | exact (Hsets2 Hok)].
  - cbn [fst] in Hlog. subst log1. exists map, calls, mapEnd, [].
    split; [exact Hmap |]. split.
    { intros entry Hin. destruct (getKeyProviderMap_entries _ _ _ Hin) as [[] | H].
      exact H. }
    split; [now rewrite app_nil_r |].
    split; [exact Hcreated |]. split; [exact Hlen |]. split; [exact Hadded |].
    split; [exact Hsets |]. split; [reflexivity |]. split; [intros ? ? [] |].
    discriminate.
Qed.

Lemma created_unused map added mapEnd info :
  created map added mapEnd -> In info added -> highestUsedIndex info = Int 0.
Proof.
  revert map. induction added as [| new added IH]; intros map; simpl; [intros _ [] |].
  intros (_ & (highest & _ & Hnew) & Hrest) [<- | Hin].
  - rewrite Hnew. reflexivity.
  - exact (IH _ Hrest Hin).
Qed.

Lemma getKeyProviderMap_get (keyProviders : list KeyProviderType) key :
  forall map : Map KeyProviderType,
    match mapGet key
            (fold_left
               (fun map keyProvider =>
                  mapSet (symbol keyProvider)
                    {| symbol := symbol keyProvider;
                       derivationPath := derivationPath keyProvider;
                       highestUsedIndex := highestUsedIndex keyProvider |}
                    map)
               keyProviders map) with
    | Some info =>
        mapGet key map = Some info
        \/ exists keyProvider,
             In keyProvider keyProviders
             /\ symbol keyProvider = key
             /\ derivationPath info = derivationPath keyProvider
             /\ highestUsedIndex info = highestUsedIndex keyProvider
    | None =>
        mapGet key map = None
        /\ forall keyProvider, In keyProvider keyProviders -> symbol keyProvider <> key
    end.
Proof.
  induction keyProviders as [| keyProvider rest IH]; intros map; simpl.
  - destruct (mapGet key map); [now left | split; [reflexivity | intros ? []]].
  - specialize (IH (mapSet (symbol keyProvider)
                      {| symbol := symbol keyProvider;
                         derivationPath := derivationPath keyProvider;
                         highestUsedIndex := highestUsedIndex keyProvider |} map)).
    destruct (mapGet key (fold_left _ rest _)) as [info |].
    + destruct IH as [Hset | (kp & Hin & Hkp)].
      * rewrite mapGet_mapSet in Hset.
        destruct (String.eqb_spec (symbol keyProvider) key) as [Hkey | _]; [| now left].
        injection Hset as <-. right. exists keyProvider. simpl. auto.
      * right. exists kp. split; [now right | exact Hkp].
    + destruct IH as [Hset Hrest]. rewrite mapGet_mapSet in Hset.
      destruct (String.eqb_spec (symbol keyProvider) key) as [Hkey | Hkey];
        [discriminate |].
      split; [exact Hset |]. intros kp [<- | Hin]; [exact Hkey | exact (Hrest kp Hin)].
Qed.

(** X17: the key providers [init] hands to the repository.  No symbol is
    handed over twice, and none that the repository already knows; each is
    the symbol of a UTXO based currency of the manager, with no index used
    yet.  A wallet that is set for a symbol the repository knows runs on
    the derivation path and the highest used index stored there; any other
    wallet of the loop runs on the key provider created for its symbol. *)
Theorem key_providers_are_created_once
  (configCurrencies : list CurrencyConfig) (keyProviders : list KeyProviderType) :
  getKeyProviders this = OK keyProviders ->
  let log :=
    fst (Effects.run
           (init messageOf WalletPrefix concatErrorCode toString plusNonInteger
              splitDerivationPath this configCurrencies)) in
  List.NoDup (List.map symbol (addedKeyProviders log))
  /\ (forall info, In info (addedKeyProviders log) ->
        highestUsedIndex info = Int 0
        /\ (forall keyProvider, In keyProvider keyProviders ->
              symbol keyProvider <> symbol info)
        /\ exists currency,
             In currency (currencies this)
             /\ type currency <> AccountBased
             /\ symbol info = currency_symbol currency)
  /\ (forall key wallet, In (WalletsSet key (Utxo wallet)) log ->
        (exists keyProvider,
           In keyProvider keyProviders
           /\ symbol keyProvider = key
           /\ wallet_derivationPath wallet = derivationPath keyProvider
           /\ wallet_highestUsedIndex wallet = highestUsedIndex keyProvider)
        \/ (exists info,
              In info (addedKeyProviders log)
              /\ symbol info = key
              /\ wallet_derivationPath wallet = derivationPath info
              /\ wallet_highestUsedIndex wallet = Int 0)).
Proof.
  intros HkeyProviders log.
  destruct (init_log configCurrencies keyProviders HkeyProviders)
    as (map & calls & mapEnd & more & Hmap & _ & Hlog & Hcreated & _ & Hadded
        & Hsets & Hmore & Hutxo & _).
  assert (Hmap' : map = fold_left
                          (fun map keyProvider =>
                             mapSet (symbol keyProvider)
                               {| symbol := symbol keyProvider;
                                  derivationPath := derivationPath keyProvider;
                                  highestUsedIndex := highestUsedIndex keyProvider |}
                               map)
                          keyProviders []).
  { revert Hmap.
    unfold Effects.run, getKeyProviderMap, Effects.await, ask, Effects.call.
    rewrite HkeyProviders. simpl. now intros [= <-]. }
  assert (Hall : addedKeyProviders log = addedKeyProviders calls).
  { subst log. rewrite Hlog, !addedKeyProviders_app, Hmore, app_nil_r. reflexivity. }
  rewrite Hall.
  destruct (created_symbols _ _ _ Hcreated) as [Hnodup Habsent].
  split; [exact Hnodup |]. split.
  - intros info Hin. split; [exact (created_unused _ _ _ _ Hcreated Hin) |].
    split; [| exact (Hadded info Hin)].
    specialize (Habsent info Hin). rewrite Hmap' in Habsent.
    pose proof (getKeyProviderMap_get keyProviders (symbol info) []) as Hget.
    rewrite Habsent in Hget. exact (proj2 Hget).
  - intros key wallet Hin. subst log. rewrite Hlog in Hin. simpl in Hin.
    destruct Hin as [Hin | Hin]; [discriminate Hin |].
    apply in_app_or in Hin. destruct Hin as [Hin | Hin]; [| now apply Hutxo in Hin].
    destruct (Hsets key wallet Hin) as (info & Hget & Hpath & Hindex).
    destruct (created_from _ _ _ _ _ Hcreated Hget) as [Hold | (_ & Hnew & Hsym)].
    + left. rewrite Hmap' in Hold.
      pose proof (getKeyProviderMap_get keyProviders key []) as Hfold.
      rewrite Hold in Hfold. destruct Hfold as [Hnil | (kp & Hkp & Hsym & Hp & Hi)];
        [discriminate Hnil |].
      exists kp. rewrite Hpath, Hindex, Hp, Hi. auto.
    + right. exists info. rewrite Hindex.
      rewrite (created_unused _ _ _ _ Hcreated Hnew). auto.
Qed.

(** Under the paths [init] gives them, new key providers get indices
    above those of the map. *)
Lemma created_fresh added :
  (forall z, 0 <= z ->
     subAt (splitDerivationPath
              (baseDerivationPath ++ "/" ++ toString (Int z))%string) (Int 2)
     = Some (Int z)) ->
  forall map mapEnd bound,
    created map added mapEnd ->
    (forall entry, In entry map ->
       exists z, accountIndex splitDerivationPath (snd entry) = Some (Int z)
                 /\ 0 <= z <= bound) ->
    -1 <= bound ->
    bound + Z.of_nat (List.length added) <= MAX_SAFE_INTEGER ->
    exists indices,
      List.map (accountIndex splitDerivationPath) added
      = List.map (fun z => Some (Int z)) indices
      /\ List.NoDup indices
      /\ forall z, In z indices ->
           0 <= z <= bound + Z.of_nat (List.length added)
           /\ forall entry z0,
                In entry map ->
                accountIndex splitDerivationPath (snd entry) = Some (Int z0) ->
                z0 < z.
Proof.
  intros Hsplit.
  induction added as [| info added IH]; intros map mapEnd bound Hcreated Hmap Hbound Hmax.
  - exists []. split; [reflexivity |]. split; [constructor | intros ? []].
  - cbn [createdOnTop] in Hcreated.
    destruct Hcreated as (Hnone & (highest & Hhigh & Hinfo) & Hrest).
    change (Z.of_nat (List.length (info :: added)))
      with (Z.of_nat (S (List.length added))) in *.
    rewrite Nat2Z.inj_succ in *.
    pose proof (highest_of_fold (Int 2) map (Int (-1)) ltac:(discriminate)) as Hfold.
    cbv zeta in Hfold.
    unfold getHighestDepthIndex in Hhigh. change (2 =? 0) with false in Hhigh.
    cbv iota in Hhigh.
    assert (Hok : forall a b : number, @OK WalletErrors.Error number a = OK b -> a = b)
      by congruence.
    apply Hok in Hhigh. clear Hok. rewrite Hhigh in Hfold.
    destruct Hfold as (_ & Hlow & Hfrom & Hall).
    assert (Hint : exists hz, highest = Int hz /\ -1 <= hz <= bound).
    { destruct Hfrom as [-> | (entry & Hin & Hentry)]; [exists (-1); split; [reflexivity | lia] |].
      destruct (Hmap entry Hin) as (z & Hz & Hrange).
      unfold accountIndex in Hz. rewrite Hentry in Hz. injection Hz as ->.
      exists z. split; [reflexivity | lia]. }
    destruct Hint as (hz & -> & Hhz).
    assert (Hbelow : forall entry z0,
              In entry map ->
              accountIndex splitDerivationPath (snd entry) = Some (Int z0) ->
              z0 <= hz).
    { intros entry z0 Hin Hz0. specialize (Hall entry (Int z0) Hin Hz0).
      unfold Arith.gt in Hall. simpl in Hall. lia. }
    assert (Hplus : Arith.plus plusNonInteger (Int hz) (Int 1) = Int (hz + 1)).
    { simpl. apply safe_integer_is_double. lia. }
    assert (Hindex : accountIndex splitDerivationPath info = Some (Int (hz + 1))).
    { unfold accountIndex. rewrite Hinfo. cbn [derivationPath]. rewrite Hplus.
      apply Hsplit. lia. }
    destruct (IH (mapSet (symbol info) info map) mapEnd (bound + 1) Hrest)
      as (indices & Hindices & Hnodup & Hfresh).
    { rewrite (mapSet_absent _ _ _ Hnone). intros entry Hin. apply in_app_or in Hin.
      destruct Hin as [Hin | [<- | []]].
      - destruct (Hmap entry Hin) as (z & Hz & Hrange). exists z. split; [exact Hz | lia].
      - exists (hz + 1). split; [exact Hindex | lia]. }
    { lia. }
    { lia. }
    exists (hz + 1 :: indices). simpl. rewrite Hindex, Hindices.
    split; [reflexivity |]. split.
    + constructor; [| exact Hnodup]. intros Hin.
      destruct (Hfresh _ Hin) as [_ Habove].
      specialize (Habove (symbol info, info) (hz + 1)).
      rewrite (mapSet_absent _ _ _ Hnone) in Habove.
      specialize (Habove ltac:(apply in_or_app; right; now left) Hindex). lia.
    + intros z [<- | Hin].
      * split; [lia |]. intros entry z0 Hentry Hz0.
        specialize (Hbelow entry z0 Hentry Hz0). lia.
      * destruct (Hfresh _ Hin) as [Hrange Habove]. split; [lia |].
        intros entry z0 Hentry Hz0. apply (Habove entry z0); [| exact Hz0].
        rewrite (mapSet_absent _ _ _ Hnone). apply in_or_app. now left.
Qed.


(** *** The wallets after [init] *)

Lemma walletsAfter_set (log : Log) key :
  forall wallets : Map (AnyWallet LndClient ChainClient Network EthereumWallet),
    (exists wallet, mapGet key wallets = Some wallet)
    \/ (exists wallet, In (WalletsSet key wallet) log) ->
    exists wallet,
      mapGet key
        (fold_left
           (fun wallets c =>
              match c with
              | WalletsSet symbol wallet => mapSet symbol wallet wallets
              | _ => wallets
              end)
           log wallets)
      = Some wallet.
Proof.
  induction log as [| c log IH]; intros wallets; simpl.
  - intros [H | [? []]]. exact H.
  - intros [[wallet Hget] | [wallet [-> | Hin]]].
    + apply IH. left. destruct c as [ | | | set | ]; eauto.
      rewrite mapGet_mapSet. destruct (String.eqb set key); eauto.
    + apply IH. left. rewrite mapGet_mapSet, String.eqb_refl. eauto.
    + apply IH. right. eauto.
Qed.

(** X19: when [init] resolves, the manager has a wallet under the symbol
    of each of its UTXO based currencies, and under every symbol of the
    wallets its Ethereum managers have returned. *)
Theorem init_sets_every_wallet (configCurrencies : list CurrencyConfig) :
  snd (Effects.run
         (init messageOf WalletPrefix concatErrorCode toString plusNonInteger
            splitDerivationPath this configCurrencies)) = OK tt ->
  let wallets :=
    walletsAfter
      (fst (Effects.run
              (init messageOf WalletPrefix concatErrorCode toString plusNonInteger
                 splitDerivationPath this configCurrencies))) in
  (forall currency,
     In currency (currencies this) -> type currency <> AccountBased ->
     exists wallet, mapGet (currency_symbol currency) wallets = Some wallet)
  /\ (forall manager ethereumWallets key wallet,
        In manager (ethereumManagers this) ->
        manager_init manager (mnemonicEvm this) = OK ethereumWallets ->
        In (key, wallet) ethereumWallets ->
        exists wallet', mapGet key wallets = Some wallet').
Proof.
  intros Hok wallets.
  destruct (getKeyProviders this) as [keyProviders | x] eqn:HkeyProviders.
  2: { revert Hok.
       unfold Effects.run, init, getKeyProviderMap, Effects.await, ask, Effects.call.
       rewrite HkeyProviders. discriminate. }
  destruct (init_log configCurrencies keyProviders HkeyProviders)
    as (map & calls & mapEnd & more & _ & _ & Hlog & _ & _ & _ & _ & _ & _ & Hsets).
  destruct (Hsets Hok) as [Hutxo Hethereum].
  subst wallets. unfold walletsAfter. rewrite Hlog. split.
  - intros currency Hin Htype. apply walletsAfter_set. right.
    destruct (Hutxo currency Hin Htype) as [wallet Hwallet].
    exists (Utxo wallet). simpl. right. apply in_or_app. now left.
  - intros manager ethereumWallets key wallet Hin Hinit Hkey.
    apply walletsAfter_set. right. exists (Ethereum wallet). simpl. right.
    apply in_or_app. right. exact (Hethereum manager ethereumWallets key wallet Hin Hinit Hkey).
Qed.

Lemma afterProvider_log map (currency : Currency LndClient ChainClient Network)
  (checks : Log) provider :
  exists rest,
    fst (afterProvider map currency [] checks provider) = checks ++ rest
    /\ (forall check, ~ In (GetBalance check) rest)
    /\ forall key wallet, In (WalletsSet key (Utxo wallet)) rest ->
         walletProvider wallet = provider.
Proof.
  destruct (mapGet (currency_symbol currency) map) as [info |].
  - eexists [_]. simpl. split; [reflexivity |].
    split; [intros ? [H | []]; discriminate H |].
    intros key wallet [[= _ <-] | []]. reflexivity.
  - destruct (highest_at_depth_2 map) as [highest ->]. cbv zeta.
    destruct (addKeyProvider this _) as [[] | x].
    + eexists [_; _]. simpl. split; [now rewrite <- app_assoc |].
      split; [intros ? [H | [H | []]]; discriminate H |].
      intros key wallet [H | [[= _ <-] | []]]; [discriminate H | reflexivity].
    + eexists [_]. simpl. split; [reflexivity |].
      split; [intros ? [H | []]; discriminate H |].
      intros key wallet [H | []]. discriminate H.
Qed.


End KeyProviders.

Section KeyProviderExamples.
Import JS WalletManager.

Lemma Number_1 : Number 1 = Int 1.
Proof. vm_compute. reflexivity. Qed.

(** The stand-ins read the paths they write. *)
Lemma splitUnderBase_decimal z :
  0 <= z ->
  subAt (splitUnderBase (baseDerivationPath ++ "/" ++ decimal (Int z))%string) (Int 2)
  = Some (Int z).
Proof.
  intros Hz. unfold subAt. change (2 - 1) with 1. rewrite Number_1.
  change (Some (match NilZero.int_of_string (NilZero.string_of_int (Z.to_int z)) with
                | Some i => Int (Z.of_int i)
                | None => NotInt NaN
                end) = Some (Int z)).
  rewrite NilZero.isi.
  - now rewrite DecimalZ.of_to.
  - destruct z as [| p | p]; simpl; [discriminate | | lia].
    intros [= H]. exact (Unsigned.to_uint_nonnil p H).
  - destruct z as [| p | p]; simpl; [discriminate | discriminate | lia].
Qed.

(** [init] on the example: BTC keeps its key provider and runs on LND,
    L-BTC and LTC get the two indices that follow and run on the node,
    after their balance has been asked; ETH is left to its manager. *)
Example init_example :
  Effects.run (exampleInit "none")
  = ([ GetKeyProviders;
       WalletsSet "BTC"
         (Utxo {| wallet_type := BitcoinLike;
                  walletProvider := LndWalletProvider "lnd-btc" "bitcoind";
                  wallet_network := "bitcoinRegtest";
                  wallet_derivationPath := "m/0/4";
                  wallet_highestUsedIndex := Int 17 |});
       GetBalance (ElementsWalletProvider "elementsd");
       AddKeyProvider (mkKeyProviderType "L-BTC" "m/0/5" (Int 0));
       WalletsSet "L-BTC"
         (Utxo {| wallet_type := Liquid;
                  walletProvider := ElementsWalletProvider "elementsd";
                  wallet_network := "liquidRegtest";
                  wallet_derivationPath := "m/0/5";
                  wallet_highestUsedIndex := Int 0 |});
       GetBalance (CoreWalletProvider "litecoind");
       AddKeyProvider (mkKeyProviderType "LTC" "m/0/6" (Int 0));
       WalletsSet "LTC"
         (Utxo {| wallet_type := BitcoinLike;
                  walletProvider := CoreWalletProvider "litecoind";
                  wallet_network := "litecoinRegtest";
                  wallet_derivationPath := "m/0/6";
                  wallet_highestUsedIndex := Int 0 |});
       EthereumManagerInit "test test test test test test test test test test test junk";
       WalletsSet "ETH" (Ethereum "ether wallet");
       WalletsSet "USDT" (Ethereum "token wallet") ]%string,
     OK tt).
Proof. vm_compute. reflexivity. Qed.

Lemma one_path_one_mnemonic_witness :
  exampleGenerate 0 = exampleGenerate 0
  /\ (generated {| files := {[ "seed.dat"%string := exampleGenerate 0 ]};
                   generated := 1;
                   writeRefused := writeRefused emptyWorld;
                   readRefused := readRefused emptyWorld |}
      <= S (generated emptyWorld))%nat
  /\ exists content,
       files {| files := {[ "seed.dat"%string := exampleGenerate 0 ]};
                generated := 1;
                writeRefused := writeRefused emptyWorld;
                readRefused := readRefused emptyWorld |}
         !! "seed.dat"%string = Some content
       /\ exampleGenerate 0 = exampleTrim content.
Proof.
  apply (one_path_one_mnemonic string "W"%string WalletErrors.dotted
           exampleGenerate exampleValidate exampleTrim "seed.dat" emptyWorld).
  vm_compute. reflexivity.
Defined.

Lemma key_providers_are_created_once_witness :
  List.NoDup (List.map symbol (addedKeyProviders (fst (Effects.run (exampleInit "none"))))).
Proof.
  exact (proj1 (key_providers_are_created_once
                  string string string string string Some string "W"%string
                  WalletErrors.dotted decimal plusOfIntegers splitUnderBase
                  (exampleManager "none") exampleConfig _ eq_refl)).
Defined.


Lemma init_sets_every_wallet_witness :
  exists wallet,
    mapGet "LTC" (walletsAfter (fst (Effects.run (exampleInit "none")))) = Some wallet.
Proof.
  apply (proj1 (init_sets_every_wallet
                  string string string string string Some string "W"%string
                  WalletErrors.dotted decimal plusOfIntegers splitUnderBase
                  (exampleManager "none") exampleConfig eq_refl)
           (mkCurrency _ _ _ "LTC" BitcoinLike "litecoinRegtest" None "litecoind")).
  - simpl. auto.
  - discriminate.
Defined.


End KeyProviderExamples.

(** ** The codes of the wallet errors *)

Section WalletErrorCodes.
Import JS WalletErrors.

Variable ErrorCodePrefix : Type.
Variable WalletPrefix : ErrorCodePrefix.
Variable concatErrorCode : ErrorCodePrefix -> Z -> string.
Variable toString : number -> string.

Lemma nodup_map_injective {A B} (f : A -> B) (l : list A) a b :
  List.NoDup (List.map f l) -> In a l -> In b l -> f a = f b -> a = b.
Proof.
  induction l as [| x l IH]; simpl; [intros _ [] |].
  intros Hnodup Ha Hb Hf. inversion Hnodup as [| ? ? Hnotin Hrest]; subst.
  destruct Ha as [-> | Ha], Hb as [-> | Hb]; [reflexivity | | | now apply IH].
  - destruct Hnotin. rewrite Hf. now apply in_map.
  - destruct Hnotin. rewrite <- Hf. now apply in_map.
Qed.

(** X21: the errors INVALID_ETHEREUM_CONFIGURATION and
    NOT_SUPPORTED_BY_WALLET carry the same code, whatever they are raised
    with; when [concatErrorCode] gives the numbers 0 to 11 twelve different
    codes, no other two errors of the table share a code. *)
Theorem wallet_error_codes_are_shared_once (text : string) (n : number) (version : Z) :
  (forall reason symbol method,
     code (INVALID_ETHEREUM_CONFIGURATION ErrorCodePrefix WalletPrefix concatErrorCode
             reason)
     = code (NOT_SUPPORTED_BY_WALLET ErrorCodePrefix WalletPrefix concatErrorCode
               symbol method))
  /\ (List.NoDup
        (List.map (concatErrorCode WalletPrefix) [0; 1; 2; 3; 4; 5; 6; 7; 8; 9; 10; 11]) ->
      forall name1 name2 shared,
        In (name1, shared)
          (codes ErrorCodePrefix WalletPrefix concatErrorCode toString text n version) ->
        In (name2, shared)
          (codes ErrorCodePrefix WalletPrefix concatErrorCode toString text n version) ->
        name1 = name2
        \/ (name1 = "INVALID_ETHEREUM_CONFIGURATION"%string
            /\ name2 = "NOT_SUPPORTED_BY_WALLET"%string)
        \/ (name1 = "NOT_SUPPORTED_BY_WALLET"%string
            /\ name2 = "INVALID_ETHEREUM_CONFIGURATION"%string)).
Proof.
  split; [reflexivity |].
  intros Hnodup name1 name2 shared H1 H2.
  assert (Hinj : forall a b,
            In a [0; 1; 2; 3; 4; 5; 6; 7; 8; 9; 10; 11] ->
            In b [0; 1; 2; 3; 4; 5; 6; 7; 8; 9; 10; 11] ->
            concatErrorCode WalletPrefix a = concatErrorCode WalletPrefix b -> a = b).
  { intros a b. now apply nodup_map_injective. }
  unfold codes in H1, H2. cbn [code] in H1, H2.
  unfold NOT_INITIALIZED, INVALID_MNEMONIC, INVALID_DEPTH_INDEX, NOT_ENOUGH_FUNDS,
    INVALID_SIGNATURE, CURRENCY_NOT_SUPPORTED, OUTPUTTYPE_NOT_SUPPORTED,
    NO_WALLET_SUPPORT, MISSING_SWAP_CONTRACTS, INVALID_ETHEREUM_CONFIGURATION,
    NOT_SUPPORTED_BY_WALLET, UNSUPPORTED_CONTRACT_VERSION,
    TAPROOT_BLINDING_NOT_SUPPORTED in H1, H2.
  cbn [code In] in H1, H2.
  repeat (destruct H1 as [H1 | H1];
          [apply pair_equal_spec in H1; destruct H1 as [<- <-] |]); [.. | destruct H1].
  all: repeat (destruct H2 as [H2 | H2];
               [apply pair_equal_spec in H2; destruct H2 as [<- H2] |]);
    [.. | destruct H2].
  all: try (left; reflexivity).
  all: try (right; left; split; reflexivity).
  all: try (right; right; split; reflexivity).
  all: exfalso; apply Hinj in H2; [discriminate H2 | simpl; auto 20 ..].
Qed.

End WalletErrorCodes.

Lemma wallet_error_codes_are_shared_once_witness :
  "INVALID_ETHEREUM_CONFIGURATION"%string = "NOT_SUPPORTED_BY_WALLET"%string
  \/ ("INVALID_ETHEREUM_CONFIGURATION"%string = "INVALID_ETHEREUM_CONFIGURATION"%string
      /\ "NOT_SUPPORTED_BY_WALLET"%string = "NOT_SUPPORTED_BY_WALLET"%string)
  \/ ("INVALID_ETHEREUM_CONFIGURATION"%string = "NOT_SUPPORTED_BY_WALLET"%string
      /\ "NOT_SUPPORTED_BY_WALLET"%string = "INVALID_ETHEREUM_CONFIGURATION"%string).
Proof.
  apply (proj2 (wallet_error_codes_are_shared_once string "W"%string WalletErrors.dotted
                  WalletManager.decimal "BTC" (JS.Int 2) 3)
           ltac:(vm_compute;
                 repeat (constructor;
                         [simpl; intros H; decompose [or] H; try discriminate; assumption |]);
                 constructor)
           "INVALID_ETHEREUM_CONFIGURATION"%string "NOT_SUPPORTED_BY_WALLET"%string
           "W.9"%string).
  - vm_compute. auto 20.
  - vm_compute. auto 20.
Defined.

(** ** Mining blocks *)

Section Mining.
Import JS MineCommand.

Variable connectEthereum : string -> result exn Signer.
Variable toString : number -> string.
Variable plusNonInteger : number -> number -> number.

Lemma plus_safe a b :
  Z.abs (a + b) <= MAX_SAFE_INTEGER ->
  Arith.plus plusNonInteger (Int a) (Int b) = Int (a + b).
Proof. intros H. simpl. now apply safe_integer_is_double. Qed.

Lemma mine_sends signer signerAddress k b :
  (forall nonce, sendTransaction signer signerAddress nonce = OK tt) ->
  0 <= k -> k + b <= MAX_SAFE_INTEGER ->
  forall (n : nat) i (fuel : nat) log,
    0 <= i -> i + Z.of_nat n = b -> (n < fuel)%nat ->
    mine plusNonInteger fuel signer signerAddress (Int k) (Int b) (Int i) log
    = (log ++ List.map (fun j => SendTransaction signerAddress (Int (k + i + Z.of_nat j)))
                (seq 0 n),
       OK (Some tt)).
Proof.
  intros Hsend Hk Hmax.
  induction n as [| n IH]; intros i fuel log Hi Hb Hfuel;
    (destruct fuel as [| fuel]; [lia |]); cbn [mine];
    change (Arith.lt (Int i) (Int b)) with (i <? b).
  - replace (Z.ltb i b) with false by (symmetry; apply Z.ltb_ge; lia).
    unfold Effects.resolve. simpl. now rewrite app_nil_r.
  - replace (Z.ltb i b) with true by (symmetry; apply Z.ltb_lt; lia).
    unfold Effects.await at 1. unfold Effects.call at 1. rewrite Hsend.
    rewrite !plus_safe by lia.
    rewrite (IH (i + 1) fuel) by lia.
    rewrite <- app_assoc. simpl. f_equal. f_equal. f_equal; [f_equal; f_equal; lia |].
    rewrite <- seq_shift, List.map_map. apply List.map_ext. intros j.
    f_equal. f_equal. lia.
Qed.

(** X22: with a signer that answers and whose transactions all go
    through, the handler of [mine <blocks>] given a whole number of blocks
    below the largest safe integer sends that many transactions, all to
    the address of the signer, under the nonces that follow the one of the
    signer, and then prints how many blocks it has mined; given a number
    that is not above 0, or NaN, it sends nothing. *)
Theorem mine_sends_one_transaction_per_block
  (fuel : nat) (argv : Argv) (signer : Signer) (signerAddress : string) (nonce : Z) :
  connectEthereum (provider argv) = OK signer ->
  getAddress signer = OK signerAddress ->
  getNonce signer = OK (Int nonce) ->
  (forall n, sendTransaction signer signerAddress n = OK tt) ->
  0 <= nonce ->
  let log := fst (Effects.run (handler connectEthereum toString plusNonInteger fuel argv)) in
  let outcome :=
    snd (Effects.run (handler connectEthereum toString plusNonInteger fuel argv)) in
  (forall count,
     blocks argv = Int count -> 0 <= count -> nonce + count <= MAX_SAFE_INTEGER ->
     (Z.to_nat count < fuel)%nat ->
     outcome = OK (Some tt)
     /\ log
        = [ConnectEthereum (provider argv); GetAddress; GetNonce]
          ++ List.map (fun j => SendTransaction signerAddress (Int (nonce + Z.of_nat j)))
               (seq 0 (Z.to_nat count))
          ++ [ConsoleLog ("Mined " ++ toString (Int count) ++ " blocks")%string])
  /\ (Arith.lt (Int 0) (blocks argv) = false -> (0 < fuel)%nat ->
      outcome = OK (Some tt)
      /\ log
         = [ConnectEthereum (provider argv); GetAddress; GetNonce;
            ConsoleLog ("Mined " ++ toString (blocks argv) ++ " blocks")%string]).
Proof.
  intros Hconnect Haddress Hnonce Hsend Hpos log outcome.
  assert (Hrun :
    Effects.run (handler connectEthereum toString plusNonInteger fuel argv)
    = match mine plusNonInteger fuel signer signerAddress (Int nonce) (blocks argv) (Int 0)
              [ConnectEthereum (provider argv); GetAddress; GetNonce] with
      | (log', OK (Some _)) =>
          (log' ++ [ConsoleLog ("Mined " ++ toString (blocks argv) ++ " blocks")%string],
           OK (Some tt))
      | (log', OK None) => (log', OK None)
      | (log', Err e) => (log', Err e)
      end).
  { unfold Effects.run, handler, Effects.await, Effects.call, Effects.resolve.
    rewrite Hconnect. simpl. rewrite Haddress. simpl. rewrite Hnonce. simpl.
    destruct (mine _ _ _ _ _ _ _ _) as [log' [[[] |] | e]]; reflexivity. }
  subst log outcome. rewrite Hrun. split.
  - intros count Hblocks Hcount Hmax Hfuel. rewrite Hblocks.
    rewrite (mine_sends signer signerAddress nonce count Hsend Hpos Hmax
               (Z.to_nat count) 0 fuel) by lia.
    simpl fst. simpl snd. split; [reflexivity |].
    simpl. do 3 f_equal. f_equal.
    apply List.map_ext. intros j. f_equal. f_equal. lia.
  - intros Hnothing Hfuel. destruct fuel as [| fuel]; [lia |].
    cbn [mine]. rewrite Hnothing. split; reflexivity.
Qed.

End Mining.

Lemma mine_sends_one_transaction_per_block_witness :
  snd (Effects.run (MineCommand.exampleHandler 10 (JS.Int 3))) = OK (Some tt)
  /\ MineCommand.sentNonces (fst (Effects.run (MineCommand.exampleHandler 10 (JS.Int 3))))
     = [JS.Int 7; JS.Int 8; JS.Int 9].
Proof.
  destruct (mine_sends_one_transaction_per_block
              (fun _ => OK MineCommand.exampleSigner) WalletManager.decimal
              WalletManager.plusOfIntegers 10
              (MineCommand.mkArgv "http://127.0.0.1:8545" (JS.Int 3))
              MineCommand.exampleSigner "0xf39Fd6e51aad88F6F4ce6aB8827279cffFb92266" 7
              eq_refl eq_refl eq_refl (fun _ => eq_refl) ltac:(lia))
    as [Hmined _].
  destruct (Hmined 3 eq_refl ltac:(lia) ltac:(vm_compute; discriminate) ltac:(simpl; lia))
    as [Houtcome Hlog].
  split; [exact Houtcome |].
  unfold MineCommand.exampleHandler. rewrite Hlog. reflexivity.
Defined.
